(** * DFloat11 inference: buffer pool, launch planning, graph rewrite, placement

    A shallow embedding of [inference_precompile_v2.py]: the per-device
    tensor pool ([TensorManager]), the decode forward-pre-hook ([get_hook]),
    the rewrite of the module tree ([load_and_replace_tensors]), the
    placement advisor ([get_no_split_classes]) and the loader
    ([DFloat11Model.from_pretrained]).

    Python values are modelled as the code has them: integers are [Z],
    exceptions are an explicit [Raise] outcome, the process-wide pool and
    the standard-error stream are fields of an explicit runtime state, and
    the module tree is an inductive tree of modules whose attribute
    dictionaries keep their insertion order. *)

From Stdlib Require Import ZArith List String Ascii Bool Lia SpecFloat.
From stdpp Require Import base option list gmap strings.

Local Open Scope string_scope.
Local Open Scope list_scope.
Local Open Scope Z_scope.

(** ** Exceptions and outcomes *)

Inductive exn : Type :=
| AttributeError
| KeyError
| IndexError
| TypeError
| ValueError
| RuntimeError
| AssertionError
| ZeroDivisionError
| OverflowError
| ExternalError
| Unmodelled.

Inductive outcome (A : Type) : Type :=
| Ok (a : A)
| Raise (e : exn).
Arguments Ok {A} a.
Arguments Raise {A} e.

#[global] Instance outcome_ret : MRet outcome := fun A a => Ok a.
#[global] Instance outcome_bind : MBind outcome := fun A B k m =>
  match m with
  | Ok a => k a
  | Raise e => Raise e
  end.

Definition is_ok {A : Type} (m : outcome A) : bool :=
  match m with Ok _ => true | Raise _ => false end.

(** ** Devices, element types and pool buffers *)

(** A [torch.device]: a device type and an optional index. *)
Definition torch_device : Type := string * option N.

(** The [device] argument of the pool: a string or a [torch.device]. *)
Inductive device_arg : Type :=
| DevStr (s : string)
| DevObj (d : torch_device).

Inductive dtype : Type :=
| uint8 | int8
| float16 | bfloat16 | int16 | uint16
| float32 | int32 | uint32
| float64 | int64 | uint64
| torch_bool.

(** Where a tensor's elements live.  A tensor read from a shard or built
    with the model carries its elements (integers as their values, floats as
    their bit patterns, row-major); a tensor of the pool is a window on an
    allocation made by [torch.empty], whose contents are whatever the decode
    kernel last wrote there. *)
Inductive storage : Type :=
| Loaded (data : list Z)
| Pooled (base : nat) (offset : Z).

Record tensor : Type := Tensor {
  t_dtype : dtype;
  t_shape : list Z;
  t_device : torch_device;
  t_storage : storage }.

Definition numel_of_shape (s : list Z) : Z := fold_right Z.mul 1 s.

(** [t.numel()] *)
Definition numel (t : tensor) : Z := numel_of_shape (t_shape t).

(** The allocation a pool tensor shares storage with. *)
Definition allocation (t : tensor) : option nat :=
  match t_storage t with
  | Pooled base _ => Some base
  | Loaded _ => None
  end.

(** What the process reports or asks of its collaborators, in order. *)
Inductive event : Type :=
| EmptyCache
| PrintAllocated (n : Z) (d : torch_device)
| PrintShapeMismatch (name : string) (model_shape loaded_shape : list Z)
| PrintCannotFindModulePath (name : string)
| PrintUnrecognizedDtype (dt : dtype)
| PrintTotalModelSize (model_bytes : Z)
| PrintCpuWarning
| KernelDecode (n_luts n_bytes n_elements blocks threads shared_mem : Z) (out : tensor)
| SnapshotDownload (repo local_dir : string)
| ModelTo (device : string)
| GetBalancedMemory
| InferAutoDeviceMap
| DispatchModel.

(** The process-wide state: [TensorManager._tensors], the allocator's next
    fresh identity, and the trace of events. *)
Record runtime : Type := Runtime {
  _tensors : gmap torch_device tensor;
  next_alloc : nat;
  trace : list event }.

Definition emit (e : event) (rt : runtime) : runtime :=
  Runtime (_tensors rt) (next_alloc rt) (trace rt ++ [e]).

(** The stop index of [t[:n]] on a dimension of [len] elements. *)
Definition slice_upto (len n : Z) : Z :=
  if 0 <=? n then Z.min n len else Z.max (len + n) 0.

(** [existing_tensor[:n_elements]] on a one-dimensional tensor: a view on
    the same storage, starting at the same element. *)
Definition tensor_prefix (t : tensor) (n : Z) : tensor :=
  Tensor (t_dtype t) [slice_upto (numel t) n] (t_device t)
    match t_storage t with
    | Loaded data => Loaded (take (Z.to_nat (slice_upto (numel t) n)) data)
    | Pooled base offset => Pooled base offset
    end.

(** A computation on the process state.  An exception ends it, and the
    state reached when it was raised stays. *)
Definition M (A : Type) : Type := runtime -> outcome A * runtime.

#[global] Instance M_ret : MRet M := fun A a rt => (Ok a, rt).
#[global] Instance M_bind : MBind M := fun A B k m rt =>
  match m rt with
  | (Ok a, rt) => k a rt
  | (Raise e, rt) => (Raise e, rt)
  end.

(** A step that does not touch the process state. *)
Definition lift {A : Type} (o : outcome A) : M A := fun rt => (o, rt).

(** [print(..., file=stderr)] and the calls to collaborators. *)
Definition report (e : event) : M unit := fun rt => (Ok tt, emit e rt).

(** [TensorManager._tensors], read and written. *)
Definition pool_lookup (d : torch_device) : M (option tensor) :=
  fun rt => (Ok (_tensors rt !! d), rt).
Definition pool_store (d : torch_device) (t : tensor) : M unit :=
  fun rt => (Ok tt, Runtime (<[d := t]> (_tensors rt)) (next_alloc rt) (trace rt)).
Definition pool_delete (d : torch_device) : M unit :=
  fun rt => (Ok tt, Runtime (delete d (_tensors rt)) (next_alloc rt) (trace rt)).
Definition pool_clear : M unit :=
  fun rt => (Ok tt, Runtime ∅ (next_alloc rt) (trace rt)).

(** [torch.empty(n, dtype=dt, device=d)]: a negative size raises; exhaustion
    of device memory is outside the model. *)
Definition torch_empty (n : Z) (dt : dtype) (d : torch_device) : M tensor :=
  fun rt =>
    if n <? 0 then (Raise RuntimeError, rt)
    else (Ok (Tensor dt [n] d (Pooled (next_alloc rt) 0)),
          Runtime (_tensors rt) (S (next_alloc rt)) (trace rt)).

(** ** Python arithmetic used by the launch geometry

    [n_bytes / (threads_per_block[0] * bytes_per_thread)] is Python's true
    division of two integers: the binary64 number nearest to the exact
    quotient, ties to even, [ZeroDivisionError] on a zero divisor and
    [OverflowError] when the result exceeds the binary64 range.  A finite
    binary64 number is a sign, a mantissa below [2^53] and an exponent of at
    least [-1074]: its value is [(-1)^neg * mant * 2^exp]. *)

Record pyfloat : Type := PyFloat {
  f_neg : bool;
  f_mant : Z;
  f_exp : Z }.

(** The integer part of the base-2 logarithm of [n / d], for positive [n], [d]. *)
Definition quotient_log2 (n d : Z) : Z :=
  let k := Z.log2 n - Z.log2 d in
  let below := if 0 <=? k then n <? d * 2 ^ k else n * 2 ^ (- k) <? d in
  if below then k - 1 else k.

(** [num / den] rounded to the nearest integer, ties to even. *)
Definition round_half_even (num den : Z) : Z :=
  let q := num / den in
  let r := num mod den in
  if 2 * r <? den then q
  else if den <? 2 * r then q + 1
  else if Z.even q then q else q + 1.

(** Mantissa and exponent of the binary64 number nearest to [n / d], for
    positive [n] and [d]: 53 significant bits, or fewer below [2^-1022]. *)
Definition round_quotient (n d : Z) : Z * Z :=
  let e := Z.max (quotient_log2 n d - 52) (-1074) in
  let m := if 0 <=? e then round_half_even n (d * 2 ^ e)
           else round_half_even (n * 2 ^ (- e)) d in
  if m =? 2 ^ 53 then (2 ^ 52, e + 1) else (m, e).

(** [a / b] on Python integers. *)
Definition int_true_divide (a b : Z) : outcome pyfloat :=
  if b =? 0 then Raise ZeroDivisionError
  else
    let neg := xorb (a <? 0) (b <? 0) in
    if a =? 0 then Ok (PyFloat neg 0 0)
    else
      let '(m, e) := round_quotient (Z.abs a) (Z.abs b) in
      if 971 <? e then Raise OverflowError
      else Ok (PyFloat neg m e).

(** [math.ceil(x)] on a finite float: an exact integer. *)
Definition math_ceil (x : pyfloat) : Z :=
  let z := if f_neg x then - f_mant x else f_mant x in
  if 0 <=? f_exp x then z * 2 ^ f_exp x
  else - ((- z) / 2 ^ (- f_exp x)).

(** [threads_per_block[0]] *)
Definition first_item (l : list Z) : outcome Z :=
  match l with
  | x :: _ => Ok x
  | [] => Raise IndexError
  end.

(** [int(math.ceil(n_bytes / (threads_per_block[0] * bytes_per_thread)))],
    the grid dimension of the decode hook. *)
Definition blocks_per_grid (n_bytes : Z) (threads_per_block : list Z)
    (bytes_per_thread : Z) : outcome Z :=
  t0 ← first_item threads_per_block;
  q ← int_true_divide n_bytes (t0 * bytes_per_thread);
  Ok (math_ceil q).

(** The ceiling of [n / d] over the integers, as the specification reads it. *)
Definition exact_ceil_div (n d : Z) : Z := (n + d - 1) / d.

(** ** Strings *)

(** [s.split(sep)] for a one-character separator: never empty. *)
Fixpoint split_on (sep : ascii) (s : string) : list string :=
  match s with
  | EmptyString => [EmptyString]
  | String c rest =>
      if Ascii.eqb c sep then EmptyString :: split_on sep rest
      else match split_on sep rest with
           | x :: xs => String c x :: xs
           | [] => [String c EmptyString]
           end
  end.

(** [s.endswith(suffix)] *)
Definition endswith (suffix s : string) : bool :=
  let n := String.length s in
  let k := String.length suffix in
  (k <=? n)%nat && String.eqb (substring (n - k) k s) suffix.

(** [parts[:-1]] and [parts[-1]] *)
Definition all_but_last (parts : list string) : list string := removelast parts.
Definition last_part (parts : list string) : string := List.last parts EmptyString.

(** ['.'.join(parts)] *)
Definition dotted (parts : list string) : string := String.concat "." parts.

(** ** Tensors read as unsigned 32-bit words *)

Definition itemsize (dt : dtype) : Z :=
  match dt with
  | uint8 | int8 | torch_bool => 1
  | float16 | bfloat16 | int16 | uint16 => 2
  | float32 | int32 | uint32 => 4
  | float64 | int64 | uint64 => 8
  end.

(** The [k] little-endian bytes of an element. *)
Fixpoint le_bytes (k : nat) (x : Z) : list Z :=
  match k with
  | O => []
  | S k => x mod 256 :: le_bytes k (x / 256)
  end.

(** Four little-endian bytes at a time, as unsigned 32-bit words. *)
Fixpoint words_of_bytes (bs : list Z) : list Z :=
  match bs with
  | b0 :: b1 :: b2 :: b3 :: rest =>
      (b0 + 256 * b1 + 65536 * b2 + 16777216 * b3) :: words_of_bytes rest
  | _ => []
  end.

(** [t.view(torch.uint32)]: the same bytes regrouped; the last dimension
    scales with the element size and must hold a whole number of words. *)
Definition view_uint32 (t : tensor) : outcome tensor :=
  match t_storage t with
  | Pooled _ _ => Raise Unmodelled
  | Loaded data =>
      let words := words_of_bytes (mbind (le_bytes (Z.to_nat (itemsize (t_dtype t)))) data) in
      match List.rev (t_shape t) with
      | [] =>
          if itemsize (t_dtype t) =? 4
          then Ok (Tensor uint32 [] (t_device t) (Loaded words))
          else Raise RuntimeError
      | last_dim :: outer =>
          if (last_dim * itemsize (t_dtype t)) mod 4 =? 0
          then Ok (Tensor uint32 (List.rev (last_dim * itemsize (t_dtype t) / 4 :: outer))
                     (t_device t) (Loaded words))
          else Raise RuntimeError
      end
  end.

(** [t.numpy()]: only for a tensor in host memory. *)
Definition numpy (t : tensor) : outcome (list Z * list Z) :=
  match t_storage t with
  | Pooled _ _ => Raise Unmodelled
  | Loaded data =>
      if String.eqb (fst (t_device t)) "cpu" then Ok (t_shape t, data)
      else Raise TypeError
  end.

Definition sub_uint32 (x y : Z) : Z := (x - y) mod 2 ^ 32.

(** [a[1:] - a[:-1]] on a [uint32] array of the given shape, flattened: the
    slices are taken along the first dimension, and the subtraction wraps. *)
Definition consecutive_differences (shape : list Z) (a : list Z) : outcome (list Z) :=
  match shape with
  | [] => Raise IndexError
  | _ :: inner =>
      Ok (zip_with sub_uint32 (drop (Z.to_nat (numel_of_shape inner)) a) a)
  end.

(** [a.max().item()]: no maximum of an empty array. *)
Definition array_max (a : list Z) : outcome Z :=
  match a with
  | [] => Raise ValueError
  | x :: xs => Ok (fold_left Z.max xs x)
  end.

(** The value stored as [shared_mem_size]:
    [threads_per_block[0] * 4 + 4 + (p[1:] - p[:-1]).max().item() * 2] with
    [p = output_positions.view(torch.uint32).numpy()]. *)
Definition shared_mem_size_of (threads_per_block : list Z) (output_positions : tensor)
  : outcome Z :=
  t0 ← first_item threads_per_block;
  p ← view_uint32 output_positions;
  '(shape, a) ← numpy p;
  diffs ← consecutive_differences shape a;
  gap ← array_max diffs;
  Ok (t0 * 4 + 4 + gap * 2).

(** ** The module tree *)

Inductive module_kind : Type := KLinear | KEmbedding | KOther.

(** The closure returned by [get_hook]: it captures the launch parameters. *)
Inductive hook : Type :=
| DecodeHook (threads_per_block : list Z) (bytes_per_thread : Z).

(** Plain attribute values.  A reference to a sub-module (an element of
    [weight_injection_modules]) is the attribute path that leads to it from
    the module holding the reference. *)
Inductive value : Type :=
| VNone
| VInt (z : Z)
| VIntList (l : list Z)
| VTensor (t : tensor)
| VModules (targets : list (list string)).

(** A [torch.nn.Module]: its class, whether it is an instance of
    [nn.Linear] or [nn.Embedding], its plain instance attributes, its
    registered parameters (possibly [None]), buffers, child modules in
    registration order, and its forward pre-hooks in registration order.
    A module is held by one parent only. *)
#[warnings="-register-all"]
Inductive nn_module : Type := Module {
  class_name : string;
  kind : module_kind;
  attrs : gmap string value;
  _parameters : gmap string (option tensor);
  _buffers : gmap string tensor;
  _modules : list (string * nn_module);
  _forward_pre_hooks : list hook }.

Inductive pyobj : Type :=
| OValue (v : value)
| OModule (m : nn_module).

Definition with_attrs (m : nn_module) (a : gmap string value) : nn_module :=
  Module (class_name m) (kind m) a (_parameters m) (_buffers m) (_modules m)
    (_forward_pre_hooks m).
Definition with_parameters (m : nn_module) (ps : gmap string (option tensor)) : nn_module :=
  Module (class_name m) (kind m) (attrs m) ps (_buffers m) (_modules m)
    (_forward_pre_hooks m).
Definition with_buffers (m : nn_module) (bs : gmap string tensor) : nn_module :=
  Module (class_name m) (kind m) (attrs m) (_parameters m) bs (_modules m)
    (_forward_pre_hooks m).
Definition with_modules (m : nn_module) (ms : list (string * nn_module)) : nn_module :=
  Module (class_name m) (kind m) (attrs m) (_parameters m) (_buffers m) ms
    (_forward_pre_hooks m).
Definition with_hooks (m : nn_module) (hs : list hook) : nn_module :=
  Module (class_name m) (kind m) (attrs m) (_parameters m) (_buffers m) (_modules m) hs.

(** Ordered dictionaries keyed by strings. *)
Fixpoint assoc {A : Type} (k : string) (l : list (string * A)) : option A :=
  match l with
  | [] => None
  | (k', v) :: rest => if String.eqb k k' then Some v else assoc k rest
  end.

Fixpoint assoc_set {A : Type} (k : string) (v : A) (l : list (string * A))
  : list (string * A) :=
  match l with
  | [] => [(k, v)]
  | (k', v') :: rest =>
      if String.eqb k k' then (k, v) :: rest else (k', v') :: assoc_set k v rest
  end.

Fixpoint assoc_del {A : Type} (k : string) (l : list (string * A)) : list (string * A) :=
  match l with
  | [] => []
  | (k', v') :: rest =>
      if String.eqb k k' then rest else (k', v') :: assoc_del k rest
  end.

(** [getattr(module, name)]: the instance dictionary first, then the
    registered parameters, buffers and child modules. *)
Definition getattr (m : nn_module) (name : string) : outcome pyobj :=
  match attrs m !! name with
  | Some v => Ok (OValue v)
  | None =>
  match _parameters m !! name with
  | Some p => Ok (OValue (from_option VTensor VNone p))
  | None =>
  match _buffers m !! name with
  | Some b => Ok (OValue (VTensor b))
  | None =>
  match assoc name (_modules m) with
  | Some c => Ok (OModule c)
  | None => Raise AttributeError
  end end end end.

Definition hasattr (m : nn_module) (name : string) : bool := is_ok (getattr m name).

(** [setattr(module, name, value)] for a value that is neither a parameter
    nor a module ([nn.Module.__setattr__]): a registered parameter or child
    module of that name refuses it, a registered buffer accepts a tensor
    only, and otherwise it becomes a plain instance attribute. *)
Definition setattr (m : nn_module) (name : string) (v : value) : outcome nn_module :=
  if decide (is_Some (_parameters m !! name)) then
    match v with
    | VNone => Ok (with_parameters m (<[name := None]> (_parameters m)))
    | _ => Raise TypeError
    end
  else if decide (is_Some (assoc name (_modules m))) then
    match v with
    | VNone => Raise Unmodelled
    | _ => Raise TypeError
    end
  else if decide (is_Some (_buffers m !! name)) then
    match v with
    | VTensor t => Ok (with_buffers m (<[name := t]> (_buffers m)))
    | VNone => Raise Unmodelled
    | _ => Raise TypeError
    end
  else Ok (with_attrs m (<[name := v]> (attrs m))).

(** [delattr(module, name)] ([nn.Module.__delattr__]) *)
Definition delattr (m : nn_module) (name : string) : outcome nn_module :=
  if decide (is_Some (_parameters m !! name)) then
    Ok (with_parameters m (delete name (_parameters m)))
  else if decide (is_Some (_buffers m !! name)) then
    Ok (with_buffers m (delete name (_buffers m)))
  else if decide (is_Some (assoc name (_modules m))) then
    Ok (with_modules m (assoc_del name (_modules m)))
  else if decide (is_Some (attrs m !! name)) then
    Ok (with_attrs m (delete name (attrs m)))
  else Raise AttributeError.

(** [module.register_buffer(name, tensor)] *)
Definition register_buffer (m : nn_module) (name : string) (t : tensor) : outcome nn_module :=
  if String.eqb name "" then Raise KeyError
  else if hasattr m name && negb (bool_decide (is_Some (_buffers m !! name)))
  then Raise KeyError
  else Ok (with_buffers m (<[name := t]> (_buffers m))).

(** [module.register_forward_pre_hook(hook)] *)
Definition register_forward_pre_hook (m : nn_module) (h : hook) : nn_module :=
  with_hooks m (_forward_pre_hooks m ++ [h]).

(** [get_hook(threads_per_block, bytes_per_thread)] *)
Definition get_hook (threads_per_block : list Z) (bytes_per_thread : Z) : hook :=
  DecodeHook threads_per_block bytes_per_thread.

(** The child module reached through [_modules] along a path. *)
Fixpoint submodule (path : list string) (m : nn_module) : option nn_module :=
  match path with
  | [] => Some m
  | name :: rest =>
      match assoc name (_modules m) with
      | Some c => submodule rest c
      | None => None
      end
  end.

(** [target = module; for p in path: target = getattr(target, p)] followed by
    an update of [target] in place.  Attribute access on anything but a
    module is outside the model. *)
Fixpoint update_target (path : list string) (f : nn_module -> outcome nn_module) (m : nn_module)
  : outcome nn_module :=
  match path with
  | [] => f m
  | p :: rest =>
      o ← getattr m p;
      match o with
      | OModule c =>
          c' ← update_target rest f c;
          Ok (with_modules m (assoc_set p c' (_modules m)))
      | OValue _ => Raise Unmodelled
      end
  end.

(** ** A matcher for a fragment of Python's regular expressions

    The rewrite and the placement advisor call [re.fullmatch], which the
    development takes as a parameter.  For concrete runs the parameter is
    instantiated with [re_fullmatch], which covers literal characters,
    [\.]-style escapes of punctuation, [\d], [.], grouping, [|], [*], [+] and
    [?]; a pattern outside this fragment matches nothing. *)

Inductive regex : Type :=
| ReEmpty
| ReEps
| ReChr (c : ascii)
| ReAny
| ReDigit
| ReCat (r1 r2 : regex)
| ReAlt (r1 r2 : regex)
| ReStar (r : regex).

Fixpoint nullable (r : regex) : bool :=
  match r with
  | ReEmpty | ReChr _ | ReAny | ReDigit => false
  | ReEps | ReStar _ => true
  | ReCat r1 r2 => nullable r1 && nullable r2
  | ReAlt r1 r2 => nullable r1 || nullable r2
  end.

Definition is_digit (c : ascii) : bool :=
  let n := nat_of_ascii c in (48 <=? n)%nat && (n <=? 57)%nat.

Definition is_alnum (c : ascii) : bool :=
  let n := nat_of_ascii c in
  is_digit c || ((65 <=? n)%nat && (n <=? 90)%nat) || ((97 <=? n)%nat && (n <=? 122)%nat).

Fixpoint deriv (c : ascii) (r : regex) : regex :=
  match r with
  | ReEmpty | ReEps => ReEmpty
  | ReChr c' => if Ascii.eqb c c' then ReEps else ReEmpty
  | ReAny => if Ascii.eqb c "010" then ReEmpty else ReEps
  | ReDigit => if is_digit c then ReEps else ReEmpty
  | ReCat r1 r2 =>
      if nullable r1 then ReAlt (ReCat (deriv c r1) r2) (deriv c r2)
      else ReCat (deriv c r1) r2
  | ReAlt r1 r2 => ReAlt (deriv c r1) (deriv c r2)
  | ReStar r1 => ReCat (deriv c r1) (ReStar r1)
  end.

Fixpoint regex_matches (r : regex) (s : string) : bool :=
  match s with
  | EmptyString => nullable r
  | String c rest => regex_matches (deriv c r) rest
  end.

(** Postfix operators after an atom. *)
Fixpoint parse_postfix (r : regex) (s : list ascii) : regex * list ascii :=
  match s with
  | "*"%char :: rest => parse_postfix (ReStar r) rest
  | "+"%char :: rest => parse_postfix (ReCat r (ReStar r)) rest
  | "?"%char :: rest => parse_postfix (ReAlt ReEps r) rest
  | _ => (r, s)
  end.

Definition is_special (c : ascii) : bool :=
  existsb (Ascii.eqb c) ["*"; "+"; "?"; "["; "]"; "{"; "}"; "^"; "$"; ")"; "|"]%char.

Fixpoint parse_alt (fuel : nat) (s : list ascii) : option (regex * list ascii) :=
  match fuel with
  | O => None
  | S fuel =>
      '(r1, s1) ← parse_cat fuel s;
      match s1 with
      | "|"%char :: s2 => '(r2, s3) ← parse_alt fuel s2; Some (ReAlt r1 r2, s3)
      | _ => Some (r1, s1)
      end
  end
with parse_cat (fuel : nat) (s : list ascii) : option (regex * list ascii) :=
  match fuel with
  | O => None
  | S fuel =>
      match s with
      | [] => Some (ReEps, s)
      | "|"%char :: _ => Some (ReEps, s)
      | ")"%char :: _ => Some (ReEps, s)
      | _ =>
          '(a, s1) ← parse_atom fuel s;
          let '(r1, s2) := parse_postfix a s1 in
          '(r2, s3) ← parse_cat fuel s2;
          Some (ReCat r1 r2, s3)
      end
  end
with parse_atom (fuel : nat) (s : list ascii) : option (regex * list ascii) :=
  match fuel with
  | O => None
  | S fuel =>
      match s with
      | [] => None
      | "("%char :: s1 =>
          '(r, s2) ← parse_alt fuel s1;
          match s2 with
          | ")"%char :: s3 => Some (r, s3)
          | _ => None
          end
      | "\"%char :: c :: s1 =>
          if Ascii.eqb c "d" then Some (ReDigit, s1)
          else if is_alnum c then None
          else Some (ReChr c, s1)
      | "\"%char :: [] => None
      | "."%char :: s1 => Some (ReAny, s1)
      | c :: s1 => if is_special c then None else Some (ReChr c, s1)
      end
  end.

Definition parse_regex (pattern : string) : option regex :=
  let s := list_ascii_of_string pattern in
  match parse_alt (4 * List.length s + 8) s with
  | Some (r, []) => Some r
  | _ => None
  end.

Definition re_fullmatch (pattern s : string) : bool :=
  match parse_regex pattern with
  | Some r => regex_matches r s
  | None => false
  end.

(** ** Tensor views used by the decode hook *)

(** A slice bound of Python, brought into [0, len]. *)
Definition clamp_index (len i : Z) : Z :=
  if i <? 0 then Z.max (len + i) 0 else Z.min i len.

(** [t[start:stop]] on a one-dimensional tensor. *)
Definition tensor_slice (t : tensor) (start stop : Z) : tensor :=
  let a := clamp_index (numel t) start in
  let b := clamp_index (numel t) stop in
  let n := Z.max (b - a) 0 in
  Tensor (t_dtype t) [n] (t_device t)
    match t_storage t with
    | Loaded data => Loaded (take (Z.to_nat n) (drop (Z.to_nat a) data))
    | Pooled base offset => Pooled base (offset + a)
    end.

(** [torch.tensor_split(t, indices)] on a one-dimensional tensor:
    [t[:i1], t[i1:i2], ..., t[ik:]]. *)
Fixpoint tensor_split_from (t : tensor) (start : Z) (indices : list Z) : list tensor :=
  match indices with
  | [] => [tensor_slice t start (numel t)]
  | i :: rest => tensor_slice t start i :: tensor_split_from t i rest
  end.

Definition tensor_split (t : tensor) (indices : list Z) : list tensor :=
  tensor_split_from t 0 indices.

(** [t.view(rows, cols)] with explicit sizes: the element count must agree. *)
Definition tensor_view (t : tensor) (shape : list Z) : outcome tensor :=
  if forallb (Z.leb 0) shape then
    if numel_of_shape shape =? numel t
    then Ok (Tensor (t_dtype t) shape (t_device t) (t_storage t))
    else Raise RuntimeError
  else Raise Unmodelled.

(** [tensor_value.tolist()] *)
Definition tolist (t : tensor) : outcome value :=
  match t_storage t, t_shape t with
  | Loaded [x], [] => Ok (VInt x)
  | Loaded data, [_] => Ok (VIntList data)
  | _, _ => Raise Unmodelled
  end.

(** An attribute that must be a tensor ([module.luts.data_ptr()]) or an
    integer ([module.out_features]). *)
Definition tensor_attr (m : nn_module) (name : string) : outcome tensor :=
  o ← getattr m name;
  match o with
  | OValue (VTensor t) => Ok t
  | _ => Raise AttributeError
  end.

Definition int_attr (m : nn_module) (name : string) : outcome Z :=
  o ← getattr m name;
  match o with
  | OValue (VInt z) => Ok z
  | _ => Raise TypeError
  end.

(** [sub_module.weight = weight.view(sub_module.out_features, sub_module.in_features)] *)
Definition assign_weight (rows cols : string) (weight : tensor) (m : nn_module)
  : outcome nn_module :=
  r ← int_attr m rows;
  c ← int_attr m cols;
  w ← tensor_view weight [r; c];
  setattr m "weight" (VTensor w).

(** [for sub_module, weight in zip(module.weight_injection_modules, weights)] *)
Fixpoint inject_weights (targets : list (list string)) (weights : list tensor)
    (m : nn_module) : outcome nn_module :=
  match targets, weights with
  | target :: targets, weight :: weights =>
      m ← update_target target (assign_weight "out_features" "in_features" weight) m;
      inject_weights targets weights m
  | _, _ => Ok m
  end.

(** ** Configuration and state dictionary *)

Record dfloat11_config : Type := Config {
  cfg_threads_per_block : list Z;
  cfg_bytes_per_thread : Z;
  cfg_pattern_dict : list (string * list string) }.

Inductive entry_kind : Type := IsParameter | IsBuffer.

(** The entry of [model.state_dict()] under the dotted name [parts]: the
    registered names hold no dot, so the name determines the path. *)
Definition state_dict_entry (model : nn_module) (parts : list string)
  : option (entry_kind * tensor) :=
  owner ← submodule (all_but_last parts) model;
  match _parameters owner !! last_part parts with
  | Some (Some p) => Some (IsParameter, p)
  | _ =>
      match _buffers owner !! last_part parts with
      | Some b => Some (IsBuffer, b)
      | None => None
      end
  end.

(** The module at [path], replaced in place. *)
Fixpoint update_submodule (path : list string) (f : nn_module -> nn_module) (m : nn_module)
  : nn_module :=
  match path with
  | [] => f m
  | name :: rest =>
      match assoc name (_modules m) with
      | Some c => with_modules m (assoc_set name (update_submodule rest f c) (_modules m))
      | None => m
      end
  end.

(** [model.named_modules()]: the module itself under [prefix], then its
    children in registration order, each under its dotted name. *)
Fixpoint named_modules (prefix : string) (m : nn_module) : list (string * nn_module) :=
  (prefix, m) ::
  flat_map
    (fun child =>
       named_modules
         (prefix ++ (if String.eqb prefix "" then "" else ".") ++ fst child)%string
         (snd child))
    (_modules m).

(** [model.state_dict().values()] *)
Fixpoint state_dict_values (m : nn_module) : list tensor :=
  omap id (map snd (map_to_list (_parameters m)))
  ++ map snd (map_to_list (_buffers m))
  ++ flat_map (fun child => state_dict_values (snd child)) (_modules m).

(** [model.parameters()] *)
Fixpoint parameters (m : nn_module) : list tensor :=
  omap id (map snd (map_to_list (_parameters m)))
  ++ flat_map (fun child => parameters (snd child)) (_modules m).

Section Inference.

Set Default Proof Using "Type".

(** [torch.device(s)] for a string [s]; raises on a malformed string. *)
Variable torch_device_of_str : string -> outcome torch_device.

(** [re.fullmatch(pattern, s) is not None] *)
Variable fullmatch : string -> string -> bool.

(** The element conversion of [Tensor.copy_] from one element type to another. *)
Variable convert_elements : dtype -> dtype -> list Z -> list Z.

(** The file system: [os.listdir], [os.path.join] and safetensors' [load_file]. *)
Variable os_listdir : string -> outcome (list string).
Variable os_path_join : string -> string -> string.
Variable load_file : string -> outcome (list (string * tensor)).
Variable os_path_exists : string -> bool.

(** The model hub and the model library: the persisted configuration and
    its [dfloat11_config] attribute when it has one, the empty model built
    from a configuration (with tied weights, in evaluation mode), and the
    model with its generation configuration attached when one can be read. *)
Variable hf_config : Type.
Variable model_kwargs : Type.
Variable snapshot_download : string -> string -> outcome unit.
Variable AutoConfig_from_pretrained : string -> outcome hf_config.
Variable config_dfloat11 : hf_config -> option dfloat11_config.
Variable model_from_config : hf_config -> model_kwargs -> outcome nn_module.
Variable with_generation_config : string -> nn_module -> nn_module.

(** Device placement: [model.to(device)] and the balanced multi-device
    placement of the accelerate library. *)
Variable memory_map : Type.
Variable device_assignment : Type.
Variable model_to : nn_module -> string -> outcome nn_module.
Variable get_balanced_memory :
  nn_module -> option memory_map -> list string -> outcome memory_map.
Variable infer_auto_device_map :
  nn_module -> memory_map -> list string -> outcome device_assignment.
Variable dispatch_model : nn_module -> device_assignment -> outcome nn_module.


Definition resolve_device (a : device_arg) : outcome torch_device :=
  match a with
  | DevStr s => torch_device_of_str s
  | DevObj d => Ok d
  end.

(** [TensorManager.get_tensor] *)
Definition get_tensor (device : device_arg) (n_elements : Z) : M tensor :=
  device ← lift (resolve_device device);
  let allocate : M tensor :=
    new_tensor ← torch_empty n_elements bfloat16 device;
    report (PrintAllocated n_elements device);;
    pool_store device new_tensor;;
    mret new_tensor in
  existing ← pool_lookup device;
  match existing with
  | Some existing_tensor =>
      if n_elements <=? numel existing_tensor
      then mret (tensor_prefix existing_tensor n_elements)
      else
        pool_delete device;;
        report EmptyCache;;
        allocate
  | None => allocate
  end.

(** [TensorManager.clear_device] *)
Definition clear_device (device : option device_arg) : M unit :=
  match device with
  | None => pool_clear
  | Some device =>
      device ← lift (resolve_device device);
      existing ← pool_lookup device;
      match existing with
      | Some _ => pool_delete device
      | None => mret tt
      end
  end;;
  report EmptyCache.

(** [decode_hook(module, _)], the closure of [get_hook]: the module after
    the hook ran. *)
Definition decode_hook (threads_per_block : list Z) (bytes_per_thread : Z)
    (module : nn_module) : M nn_module :=
  sign_mantissa ← lift (tensor_attr module "sign_mantissa");
  let n_elements := numel sign_mantissa in
  encoded_exponent ← lift (tensor_attr module "encoded_exponent");
  let n_bytes := numel encoded_exponent in
  luts ← lift (tensor_attr module "luts");
  n_luts ← lift (first_item (t_shape luts));
  let device := t_device encoded_exponent in
  reconstructed ← get_tensor (DevObj device) n_elements;
  blocks ← lift (blocks_per_grid n_bytes threads_per_block bytes_per_thread);
  lift (tensor_attr module "output_positions");;
  lift (tensor_attr module "gaps");;
  threads ← lift (first_item threads_per_block);
  shared_mem_size ← lift (int_attr module "shared_mem_size");
  report (KernelDecode n_luts n_bytes n_elements blocks threads shared_mem_size
            reconstructed);;
  match kind module with
  | KLinear =>
      lift (assign_weight "out_features" "in_features" reconstructed module)
  | KEmbedding =>
      lift (assign_weight "num_embeddings" "embedding_dim" reconstructed module)
  | KOther =>
      split_positions ← lift (getattr module "split_positions");
      match split_positions with
      | OValue (VIntList indices) =>
          let weights := tensor_split reconstructed indices in
          targets ← lift (getattr module "weight_injection_modules");
          match targets with
          | OValue (VModules targets) => lift (inject_weights targets weights module)
          | _ => lift (Raise Unmodelled)
          end
      | _ => lift (Raise Unmodelled)
      end
  end.

Definition run_hook (h : hook) (module : nn_module) : M nn_module :=
  match h with
  | DecodeHook threads_per_block bytes_per_thread =>
      decode_hook threads_per_block bytes_per_thread module
  end.

(** The forward pre-hooks of a module, run in registration order before its
    forward computation. *)
Fixpoint run_forward_pre_hooks (hooks : list hook) (module : nn_module) : M nn_module :=
  match hooks with
  | [] => mret module
  | h :: hooks =>
      module ← run_hook h module;
      run_forward_pre_hooks hooks module
  end.

Definition forward_pre (module : nn_module) : M nn_module :=
  run_forward_pre_hooks (_forward_pre_hooks module) module.

(** [tmp = module.weight; delattr(module, 'weight'); del tmp] *)
Definition detach_weight (m : nn_module) : outcome nn_module :=
  _ ← getattr m "weight";
  delattr m "weight".

(** [for attr_path in attr_names: ...]: each target is resolved from
    [module], loses its weight and is appended to
    [module.weight_injection_modules]; [parts] is rebound on the way. *)
Fixpoint collect_targets (attr_names : list string) (parts : list string)
    (module : nn_module) : outcome (nn_module * list string) :=
  match attr_names with
  | [] => Ok (module, parts)
  | attr_path :: attr_names =>
      let parts := split_on "." attr_path in
      module ← update_target parts detach_weight module;
      targets ← getattr module "weight_injection_modules";
      match targets with
      | OValue (VModules targets) =>
          module ← setattr module "weight_injection_modules"
                     (VModules (targets ++ [parts]));
          collect_targets attr_names parts module
      | _ => Raise Unmodelled
      end
  end.

(** [for pattern, attr_names in pattern_dict.items(): ...] *)
Fixpoint configure_weight_injection (pattern_dict : list (string * list string))
    (parts : list string) (module : nn_module) : outcome nn_module :=
  match pattern_dict with
  | [] => Ok module
  | (pattern, attr_names) :: pattern_dict =>
      if fullmatch pattern (dotted (all_but_last parts)) then
        match kind module with
        | KEmbedding | KLinear =>
            module ← detach_weight module;
            configure_weight_injection pattern_dict parts module
        | KOther =>
            module ← setattr module "weight_injection_modules" (VModules []);
            '(module, parts) ← collect_targets attr_names parts module;
            configure_weight_injection pattern_dict parts module
        end
      else configure_weight_injection pattern_dict parts module
  end.

(** The body of the [else] of the navigation loop: what is done to the
    module the dotted path resolved to. *)
Definition attach (cfg : dfloat11_config) (parts : list string) (tensor_value : tensor)
    (module : nn_module) : outcome nn_module :=
  module ←
    (if String.eqb (last_part parts) "split_positions" then
       l ← tolist tensor_value;
       setattr module "split_positions" l
     else register_buffer module (last_part parts) tensor_value);
  if String.eqb (last_part parts) "encoded_exponent" then
    let module :=
      register_forward_pre_hook module
        (get_hook (cfg_threads_per_block cfg) (cfg_bytes_per_thread cfg)) in
    configure_weight_injection (cfg_pattern_dict cfg) parts module
  else if String.eqb (last_part parts) "output_positions" then
    output_positions ← tensor_attr module "output_positions";
    size ← shared_mem_size_of (cfg_threads_per_block cfg) output_positions;
    setattr module "shared_mem_size" (VInt size)
  else Ok module.

(** [for part in parts[:-1]: if hasattr(module, part): module = getattr(...)
    else: print(...); break] with its [else]: [None] when the loop broke. *)
Fixpoint navigate (path : list string) (f : nn_module -> outcome nn_module) (module : nn_module)
  : outcome (option nn_module) :=
  match path with
  | [] => module ← f module; Ok (Some module)
  | part :: rest =>
      if hasattr module part then
        o ← getattr module part;
        match o with
        | OModule child =>
            r ← navigate rest f child;
            match r with
            | Some child =>
                Ok (Some (with_modules module (assoc_set part child (_modules module))))
            | None => Ok None
            end
        | OValue _ => Raise Unmodelled
        end
      else Ok None
  end.

(** [dst.copy_(src)] *)
Definition copy_ (dst src : tensor) : outcome tensor :=
  match t_storage dst, t_storage src with
  | Loaded _, Loaded data =>
      Ok (Tensor (t_dtype dst) (t_shape dst) (t_device dst)
            (Loaded (convert_elements (t_dtype src) (t_dtype dst) data)))
  | _, _ => Raise Unmodelled
  end.

(** One iteration of [for tensor_name, tensor_value in loaded_tensors.items()] *)
Definition load_tensor (cfg : dfloat11_config) (model : nn_module)
    (entry : string * tensor) : M nn_module :=
  let '(tensor_name, tensor_value) := entry in
  let parts := split_on "." tensor_name in
  match state_dict_entry model parts with
  | Some (IsParameter, param) =>
      if decide (t_shape param = t_shape tensor_value) then
        param ← lift (copy_ param tensor_value);
        mret (update_submodule (all_but_last parts)
                (fun owner => with_parameters owner
                   (<[last_part parts := Some param]> (_parameters owner))) model)
      else
        report (PrintShapeMismatch tensor_name (t_shape param) (t_shape tensor_value));;
        mret model
  | Some (IsBuffer, buffer) =>
      if decide (t_shape buffer = t_shape tensor_value) then
        buffer ← lift (copy_ buffer tensor_value);
        mret (update_submodule (all_but_last parts)
                (fun owner => with_buffers owner
                   (<[last_part parts := buffer]> (_buffers owner))) model)
      else
        report (PrintShapeMismatch tensor_name (t_shape buffer) (t_shape tensor_value));;
        mret model
  | None =>
      r ← lift (navigate (all_but_last parts) (attach cfg parts tensor_value) model);
      match r with
      | Some model => mret model
      | None => report (PrintCannotFindModulePath tensor_name);; mret model
      end
  end.

(** A [for] loop over [items] that threads a value through its body. *)
Fixpoint for_each {S A : Type} (body : S -> A -> M S) (items : list A) (s : S) : M S :=
  match items with
  | [] => mret s
  | x :: items => s ← body s x; for_each body items s
  end.

(** [load_and_replace_tensors(model, directory_path, dfloat11_config)] *)
Definition load_and_replace_tensors (model : nn_module) (directory_path : string)
    (cfg : dfloat11_config) : M nn_module :=
  names ← lift (os_listdir directory_path);
  let safetensors_files := List.filter (endswith ".safetensors") names in
  for_each
    (fun model file_name =>
       let file_path := os_path_join directory_path file_name in
       loaded_tensors ← lift (load_file file_path);
       for_each (load_tensor cfg) loaded_tensors model)
    safetensors_files model.

(** [get_no_split_classes(model, pattern_dict)] *)
Definition note_class (no_split_classes : list string) (entry : string * nn_module)
    (pattern : string) : list string :=
  if fullmatch pattern (fst entry) then
    let class_name := class_name (snd entry) in
    if bool_decide (class_name ∈ no_split_classes) then no_split_classes
    else no_split_classes ++ [class_name]
  else no_split_classes.

Definition get_no_split_classes (model : nn_module)
    (pattern_dict : list (string * list string)) : list string :=
  fold_left
    (fun no_split_classes pattern =>
       fold_left (fun acc entry => note_class acc entry pattern)
         (named_modules "" model) no_split_classes)
    (map fst pattern_dict) [].

(** [s.replace('/', '__')] *)
Fixpoint replace_slashes (s : string) : string :=
  match s with
  | EmptyString => EmptyString
  | String c rest =>
      if Ascii.eqb c "/" then String "_" (String "_" (replace_slashes rest))
      else String c (replace_slashes rest)
  end.

(** The bytes one element of a state-dictionary entry counts for, when its
    element type is one the loader recognises. *)
Definition counted_bytes (dt : dtype) : option Z :=
  match dt with
  | uint8 | int8 => Some 1
  | float16 | bfloat16 | int16 | uint16 => Some 2
  | float32 | int32 | uint32 => Some 4
  | float64 | int64 | uint64 => Some 8
  | torch_bool => None
  end.

(** [if device:] on an optional string. *)
Definition truthy (device : option string) : bool :=
  match device with
  | Some s => negb (String.eqb s "")
  | None => false
  end.

(** The placement step of [from_pretrained]: move the model to the given
    device, or spread it over the devices. *)
Definition place_model (model : nn_module) (cfg : dfloat11_config)
    (device : option string) (device_map : string) (max_memory : option memory_map)
  : M nn_module :=
  if truthy device then
    report (ModelTo (default "" device));;
    lift (model_to model (default "" device))
  else
    (if decide (device_map = "auto") then mret tt else lift (Raise AssertionError));;
    let no_split_classes := get_no_split_classes model (cfg_pattern_dict cfg) in
    report GetBalancedMemory;;
    max_memory ← lift (get_balanced_memory model max_memory no_split_classes);
    report InferAutoDeviceMap;;
    device_map ← lift (infer_auto_device_map model max_memory no_split_classes);
    report DispatchModel;;
    lift (dispatch_model model device_map).

(** The first part of [from_pretrained], up to the report of the model
    size: the model with its tensors attached, and its decode configuration. *)
Definition prepare_model (dfloat11_model_name_or_path : string)
    (bfloat16_model : option nn_module) (kwargs : model_kwargs)
  : M (nn_module * dfloat11_config) :=
  dfloat11_model_path ←
    (if os_path_exists dfloat11_model_name_or_path
     then mret dfloat11_model_name_or_path
     else
       let dfloat11_model_path := replace_slashes dfloat11_model_name_or_path in
       (if os_path_exists dfloat11_model_path then mret tt
        else
          report (SnapshotDownload dfloat11_model_name_or_path dfloat11_model_path);;
          lift (snapshot_download dfloat11_model_name_or_path dfloat11_model_path));;
       mret dfloat11_model_path);
  config ← lift (AutoConfig_from_pretrained dfloat11_model_path);
  model ←
    match bfloat16_model with
    | Some model => mret model
    | None =>
        model ← lift (model_from_config config kwargs);
        mret (with_generation_config dfloat11_model_path model)
    end;
  dfloat11_config ←
    match config_dfloat11 config with
    | Some cfg => mret cfg
    | None => lift (Raise AssertionError)
    end;
  model ← load_and_replace_tensors model dfloat11_model_path dfloat11_config;
  model_bytes ←
    for_each
      (fun model_bytes param =>
         match counted_bytes (t_dtype param) with
         | Some size => mret (model_bytes + numel param * size)
         | None => report (PrintUnrecognizedDtype (t_dtype param));; mret model_bytes
         end)
      (state_dict_values model) 0;
  report (PrintTotalModelSize model_bytes);;
  mret (model, dfloat11_config).

(** [DFloat11Model.from_pretrained] *)
Definition from_pretrained (dfloat11_model_name_or_path : string)
    (device : option string) (device_map : string) (max_memory : option memory_map)
    (bfloat16_model : option nn_module) (kwargs : model_kwargs) : M nn_module :=
  '(model, dfloat11_config) ←
    prepare_model dfloat11_model_name_or_path bfloat16_model kwargs;
  model ← place_model model dfloat11_config device device_map max_memory;
  (if existsb (fun param => String.eqb (fst (t_device param)) "cpu") (parameters model)
   then report PrintCpuWarning else mret tt);;
  mret model.

(** ** Invariants of the buffer pool *)

(** Every pool entry is a whole allocation made by [get_tensor] for its
    device, and the allocator has moved past its identity. *)
Definition pool_ok (rt : runtime) : Prop :=
  forall d t, _tensors rt !! d = Some t ->
    exists n id, t = Tensor bfloat16 [n] d (Pooled id 0) /\ 0 <= n /\ (id < next_alloc rt)%nat.

(** The process states that calls to the pool, and reports, can lead to. *)
Inductive reachable : runtime -> Prop :=
| reach_start : reachable (Runtime ∅ 0 [])
| reach_get_tensor rt device n :
    reachable rt -> reachable (get_tensor device n rt).2
| reach_clear_device rt device :
    reachable rt -> reachable (clear_device device rt).2
| reach_report rt e :
    reachable rt -> reachable (emit e rt).


(** ** Offsets and gaps *)

(** The shape and the elements of [output_positions.view(torch.uint32).numpy()]. *)
Definition uint32_offsets (t : tensor) : outcome (list Z * list Z) :=
  p ← view_uint32 t;
  numpy p.

(** The consecutive differences of a sequence of offsets, in unsigned
    32-bit arithmetic. *)
Definition gaps_uint32 (a : list Z) : list Z := zip_with sub_uint32 (drop 1 a) a.

(** A module that has none of its attributes under [name]. *)
Definition unused_name (m : nn_module) (name : string) : Prop :=
  attrs m !! name = None /\ _parameters m !! name = None /\
  _buffers m !! name = None /\ assoc name (_modules m) = None.

(** ** Sample data *)

Definition cpu : torch_device := ("cpu", None).
Definition cuda0 : torch_device := ("cuda", Some 0%N).

(** A one-dimensional tensor of 32-bit unsigned offsets in host memory. *)
Definition offsets_tensor (l : list Z) : tensor :=
  Tensor uint32 [Z.of_nat (length l)] cpu (Loaded l).

(** The same offsets as stored bytes. *)
Definition bytes_tensor (l : list Z) : tensor :=
  Tensor uint8 [Z.of_nat (length l)] cpu (Loaded l).

(** The last step of the decode hook: how the decoded tensor is installed. *)
Definition install_weights (reconstructed : tensor) (module : nn_module)
  : outcome nn_module :=
  match kind module with
  | KLinear => assign_weight "out_features" "in_features" reconstructed module
  | KEmbedding => assign_weight "num_embeddings" "embedding_dim" reconstructed module
  | KOther =>
      split_positions ← getattr module "split_positions";
      match split_positions with
      | OValue (VIntList indices) =>
          targets ← getattr module "weight_injection_modules";
          match targets with
          | OValue (VModules targets) =>
              inject_weights targets (tensor_split reconstructed indices) module
          | _ => Raise Unmodelled
          end
      | _ => Raise Unmodelled
      end
  end.

(** [torch.device] on the two device strings of the samples. *)
Definition sample_device_of_str (s : string) : outcome torch_device :=
  if String.eqb s "cpu" then Ok cpu
  else if String.eqb s "cuda:0" then Ok cuda0
  else Raise RuntimeError.

(** A copy between tensors of one element type keeps the elements. *)
Definition same_elements (src dst : dtype) (data : list Z) : list Z := data.

Definition weight_tensor (rows cols : Z) : tensor :=
  Tensor bfloat16 [rows; cols] cpu (Loaded (repeat 0 (Z.to_nat (rows * cols)))).

(** [nn.Linear(in_features, out_features, bias=False)] *)
Definition linear (in_features out_features : Z) : nn_module :=
  Module "Linear" KLinear
    {[ "in_features" := VInt in_features; "out_features" := VInt out_features ]}
    {[ "weight" := Some (weight_tensor out_features in_features); "bias" := None ]}
    ∅ [] [].

(** A model with a head and an attention block of two projections. *)
Definition toy_model : nn_module :=
  Module "Toy" KOther ∅ ∅ ∅
    [ ("lm_head", linear 2 3);
      ("attn", Module "Attention" KOther ∅ ∅ ∅
                 [ ("q_proj", linear 2 2); ("k_proj", linear 2 1) ] []) ]
    [].

(** The process state before anything ran. *)
Definition start : runtime := Runtime ∅ 0 [].

(** The compressed record of a six-element weight, on the first GPU. *)
Definition on_gpu (dt : dtype) (shape : list Z) (data : list Z) : tensor :=
  Tensor dt shape cuda0 (Loaded data).

(** A linear layer after rewrite and placement: its weight detached, its
    compressed record and shared-memory size attached, its hook registered. *)
Definition rewritten_linear : nn_module :=
  Module "Linear" KLinear
    {[ "in_features" := VInt 2; "out_features" := VInt 3;
       "shared_mem_size" := VInt 546 ]}
    {[ "bias" := None ]}
    {[ "sign_mantissa" := on_gpu uint8 [6] [0; 0; 0; 0; 0; 0];
       "encoded_exponent" := on_gpu uint8 [3] [0; 0; 0];
       "luts" := on_gpu uint8 [2; 256] (repeat 0 512%nat);
       "output_positions" := on_gpu uint32 [4] [0; 10; 25; 40];
       "gaps" := on_gpu uint8 [2] [0; 0] ]}
    [] [DecodeHook [128] 8].

(** Whether the walk along [path] stops at a module that lacks the next
    attribute. *)
Fixpoint path_breaks (path : list string) (m : nn_module) : bool :=
  match path with
  | [] => false
  | part :: rest =>
      match getattr m part with
      | Raise _ => true
      | Ok (OModule child) => path_breaks rest child
      | Ok (OValue _) => false
      end
  end.

(** ** Pattern dispatch, as the specification reads it *)

(** Only the first pattern, in mapping order, that matches the path. *)
Definition first_match (pattern_dict : list (string * list string)) (path : string)
  : list (string * list string) :=
  match List.find (fun entry => fullmatch (fst entry) path) pattern_dict with
  | Some entry => [entry]
  | None => []
  end.

(** The weight target resolved from the first matching pattern alone. *)
Definition configure_first_match_only (pattern_dict : list (string * list string))
    (parts : list string) (module : nn_module) : outcome nn_module :=
  configure_weight_injection
    (first_match pattern_dict (dotted (all_but_last parts))) parts module.

(** A module whose [weight] is a registered parameter and nothing else. *)
Definition weight_is_parameter (m : nn_module) : Prop :=
  attrs m !! "weight" = None /\ is_Some (_parameters m !! "weight") /\
  _buffers m !! "weight" = None /\ assoc "weight" (_modules m) = None.

(** A module of the model whose dotted name fully matches [pattern] and
    whose class is [c]. *)
Definition matched_class (model : nn_module) (pattern : string) (c : string) : Prop :=
  exists name m, (name, m) ∈ named_modules "" model /\
    fullmatch pattern name = true /\ class_name m = c.

(** ** Placement events *)

(** The calls that place the model on devices. *)
Definition is_placement (e : event) : bool :=
  match e with
  | ModelTo _ | GetBalancedMemory | InferAutoDeviceMap | DispatchModel => true
  | _ => false
  end.

(** A computation that only appends to the trace, and appends no placement
    call. *)
Definition no_placement {A : Type} (m : M A) : Prop :=
  forall rt, exists extra,
    trace (m rt).2 = trace rt ++ extra /\ Forall (fun e => is_placement e = false) extra.

(** Drops the collaborators a goal does not mention, so that a decision
    procedure does not pull them into the proof. *)
Ltac forget_collaborators :=
  try clear dispatch_model; try clear infer_auto_device_map;
  try clear get_balanced_memory; try clear model_to;
  try clear device_assignment; try clear memory_map;
  try clear with_generation_config; try clear model_from_config;
  try clear config_dfloat11; try clear AutoConfig_from_pretrained;
  try clear snapshot_download; try clear model_kwargs; try clear hf_config;
  try clear os_path_exists; try clear load_file; try clear os_path_join;
  try clear os_listdir; try clear convert_elements; try clear fullmatch;
  try clear torch_device_of_str.

(** A decode configuration whose only pattern is the attention block. *)
Definition attention_only : dfloat11_config :=
  Config [128] 8 [("attn", ["q_proj"; "k_proj"])].

(** Two patterns that both match the head. *)
Definition head_twice : dfloat11_config :=
  Config [128] 8 [("lm_head", []); ("lm_hea.", [])].

(** Two patterns that both match the attention block. *)
Definition attention_twice : dfloat11_config :=
  Config [128] 8 [("attn", []); ("at+n", ["q_proj"])].

Definition on_cpu (dt : dtype) (shape : list Z) (data : list Z) : tensor :=
  Tensor dt shape cpu (Loaded data).

(** The compressed record of the head's six-element weight, as a shard
    lists it. *)
Definition head_record : list (string * tensor) :=
  [ ("lm_head.sign_mantissa", on_cpu uint8 [6] [0; 0; 0; 0; 0; 0]);
    ("lm_head.luts", on_cpu uint8 [2; 256] (repeat 0 512%nat));
    ("lm_head.output_positions", on_cpu uint32 [4] [0; 10; 25; 40]);
    ("lm_head.gaps", on_cpu uint8 [2] [0; 0]);
    ("lm_head.encoded_exponent", on_cpu uint8 [3] [0; 0; 0]) ].

(** A head that kept its weight and carries the decode hook. *)
Definition hooked_linear : nn_module :=
  with_hooks (linear 2 3) [DecodeHook [128] 8].


(** ** Further notions used below *)

(** The element count of the device's pool buffer, zero when it has none. *)
Definition capacity (rt : runtime) (d : torch_device) : Z :=
  match _tensors rt !! d with
  | Some t => numel t
  | None => 0
  end.

(** A component of a dotted name: a string without a dot. *)
Fixpoint dot_free (s : string) : bool :=
  match s with
  | EmptyString => true
  | String c rest => negb (Ascii.eqb c ".") && dot_free rest
  end.

(** The module the navigation loop of the rewrite reaches along [path]:
    every step finds a child module under the attribute name. *)
Fixpoint resolve_path (path : list string) (m : nn_module) : option nn_module :=
  match path with
  | [] => Some m
  | part :: rest =>
      match getattr m part with
      | Ok (OModule child) => resolve_path rest child
      | _ => None
      end
  end.

(** Two modules that agree on what they register under [k] as a parameter
    and as a buffer. *)
Definition same_registered (k : string) (m m' : nn_module) : Prop :=
  _parameters m' !! k = _parameters m !! k /\ _buffers m' !! k = _buffers m !! k.

(** The attribute names under which a Linear or an Embedding layer keeps
    the two dimensions of its weight. *)
Definition rows_attr (k : module_kind) : string :=
  match k with KEmbedding => "num_embeddings" | _ => "out_features" end.
Definition cols_attr (k : module_kind) : string :=
  match k with KEmbedding => "embedding_dim" | _ => "in_features" end.

(** A rewritten Linear or Embedding layer on device [d]: its compressed
    record of [n] elements and its shared-memory size are attached, the
    launch geometry is defined, its dimensions multiply to [n], and no
    registered parameter, buffer or child module occupies the name
    [weight]. *)
Definition ready_for_decode (tpb : list Z) (bpt : Z) (m : nn_module)
    (d : torch_device) (n rows cols : Z) : Prop :=
  kind m <> KOther /\
  (exists sm, tensor_attr m "sign_mantissa" = Ok sm /\ numel sm = n) /\
  (exists ee, tensor_attr m "encoded_exponent" = Ok ee /\ t_device ee = d /\
     is_ok (blocks_per_grid (numel ee) tpb bpt) = true) /\
  (exists luts, tensor_attr m "luts" = Ok luts /\ is_ok (first_item (t_shape luts)) = true) /\
  is_ok (tensor_attr m "output_positions") = true /\
  is_ok (tensor_attr m "gaps") = true /\
  is_ok (int_attr m "shared_mem_size") = true /\
  int_attr m (rows_attr (kind m)) = Ok rows /\
  int_attr m (cols_attr (kind m)) = Ok cols /\
  0 <= rows /\ 0 <= cols /\ rows * cols = n /\
  _parameters m !! "weight" = None /\ _buffers m !! "weight" = None /\
  assoc "weight" (_modules m) = None.

(** The name [named_modules] gives the module reached from a module named
    [prefix] along [path]. *)
Definition qualified (prefix : string) (path : list string) : string :=
  fold_left
    (fun prefix part => (prefix ++ (if String.eqb prefix "" then "" else ".") ++ part)%string)
    path prefix.

(** A computation that leaves the pool and the allocator alone, and whose
    reports all satisfy [allowed]. *)
Definition reports_only {A : Type} (allowed : event -> bool) (m : M A) : Prop :=
  forall rt, exists extra,
    (m rt).2 = Runtime (_tensors rt) (next_alloc rt) (trace rt ++ extra) /\
    Forall (fun e => allowed e = true) extra.

(** The diagnostics of the rewrite. *)
Definition is_load_diagnostic (e : event) : bool :=
  match e with
  | PrintShapeMismatch _ _ _ | PrintCannotFindModulePath _ => true
  | _ => false
  end.

(** Everything but a download from the hub. *)
Definition is_not_download (e : event) : bool :=
  match e with
  | SnapshotDownload _ _ => false
  | _ => true
  end.

(** Whether a name holds a slash. *)
Fixpoint has_slash (s : string) : bool :=
  match s with
  | EmptyString => false
  | String c rest => Ascii.eqb c "/" || has_slash rest
  end.




(** Split positions that never decrease from [start] and end at or before
    [stop]. *)
Fixpoint nondecreasing_from (start : Z) (indices : list Z) (stop : Z) : bool :=
  match indices with
  | [] => start <=? stop
  | i :: rest => (start <=? i) && nondecreasing_from i rest stop
  end.

(** [w] seen as a matrix of [rows] by [cols]. *)
Definition as_matrix (w : tensor) (rows cols : Z) : tensor :=
  Tensor (t_dtype w) [rows; cols] (t_device w) (t_storage w).

(** A module that carries [w] as its weight: as a plain attribute, or in the
    buffer it registered under that name. *)
Definition holds_weight (m : nn_module) (w : tensor) : Prop :=
  attrs m !! "weight" = Some (VTensor w) \/ _buffers m !! "weight" = Some w.

(** The targets of a split, each named by one attribute of the module. *)
Definition direct_targets (names : list string) : list (list string) :=
  map (fun name => [name]) names.

(** A linear layer whose weight the rewrite detached. *)
Definition detached_linear (in_features out_features : Z) : nn_module :=
  with_parameters (linear in_features out_features)
    (delete "weight" (_parameters (linear in_features out_features))).

(** An attention block after the rewrite: its two projections lost their
    weights and are its injection targets. *)
Definition detached_attention : nn_module :=
  Module "Attention" KOther
    {[ "split_positions" := VIntList [4];
       "weight_injection_modules" := VModules [["q_proj"]; ["k_proj"]] ]}
    ∅ ∅
    [ ("q_proj", detached_linear 2 2); ("k_proj", detached_linear 2 1) ] [].

(** The five tensors of a layer's compressed record, by leaf name. *)
Definition compressed_record (ee sm luts pos gaps : tensor) : list (string * tensor) :=
  [ ("encoded_exponent", ee); ("sign_mantissa", sm); ("luts", luts);
    ("output_positions", pos); ("gaps", gaps) ].

(** The entries of a shard for the module at [path]: each leaf under its
    dotted name. *)
Definition named_under (path : list string) (entries : list (string * tensor))
  : list (string * tensor) :=
  map (fun entry => (dotted (path ++ [entry.1]), entry.2)) entries.

(** A Linear or Embedding layer as the model is built: its weight is a
    registered parameter, its two dimensions are known, and none of the
    names of a compressed record is taken. *)
Definition compressible (lin : nn_module) (rows cols : Z) : Prop :=
  kind lin <> KOther /\ weight_is_parameter lin /\
  Forall (unused_name lin)
    ["encoded_exponent"; "sign_mantissa"; "luts"; "output_positions"; "gaps";
     "shared_mem_size"] /\
  int_attr lin (rows_attr (kind lin)) = Ok rows /\
  int_attr lin (cols_attr (kind lin)) = Ok cols /\
  0 <= rows /\ 0 <= cols.

(** The layer [lin] after the entries [done] of its record were attached,
    the latest first. *)
Definition attached (tpb : list Z) (bpt size : Z) (done : list (string * tensor))
    (lin : nn_module) : nn_module :=
  Module (class_name lin) (kind lin)
    (if bool_decide ("output_positions" ∈ done.*1)
     then <["shared_mem_size" := VInt size]> (attrs lin) else attrs lin)
    (if bool_decide ("encoded_exponent" ∈ done.*1)
     then delete "weight" (_parameters lin) else _parameters lin)
    (foldr (fun entry bs => <[entry.1 := entry.2]> bs) (_buffers lin) done)
    (_modules lin)
    (_forward_pre_hooks lin ++
     if bool_decide ("encoded_exponent" ∈ done.*1) then [DecodeHook tpb bpt] else []).

(** A decode configuration that names the attention block and the head. *)
Definition attention_and_head : dfloat11_config :=
  Config [128] 8 [("attn", ["q_proj"; "k_proj"]); ("lm_head", [])].

(** The attention block of the toy model. *)
Definition attention_block : nn_module :=
  Module "Attention" KOther ∅ ∅ ∅
    [ ("q_proj", linear 2 2); ("k_proj", linear 2 1) ] [].

(** ** Launch geometry *)

Lemma pow2_pos (e : Z) : 0 <= e -> 0 < 2 ^ e.
Proof. intros; apply Z.pow_pos_nonneg; lia. Qed.

Lemma quotient_log2_le n d : 0 < n -> 0 < d -> quotient_log2 n d <= Z.log2 n.
Proof.
  intros Hn Hd. unfold quotient_log2.
  pose proof (Z.log2_nonneg d).
  repeat case_match; lia.
Qed.

Lemma quotient_log2_lower n d :
  0 < n -> 0 < d ->
  let fl := quotient_log2 n d in
  (0 <= fl -> d * 2 ^ fl <= n) /\ (fl < 0 -> d <= n * 2 ^ (- fl)).
Proof.
  intros Hn Hd. cbv zeta.
  destruct (Z.log2_spec n Hn) as [Hn1 Hn2].
  destruct (Z.log2_spec d Hd) as [Hd1 Hd2].
  pose proof (Z.log2_nonneg n) as Hln. pose proof (Z.log2_nonneg d) as Hld.
  unfold quotient_log2.
  set (k := Z.log2 n - Z.log2 d).
  destruct (0 <=? k) eqn:Hk.
  - apply Z.leb_le in Hk.
    destruct (n <? d * 2 ^ k) eqn:Hb.
    + split; intros Hs.
      * assert (Z.log2 n = Z.succ (Z.log2 d) + (k - 1)) as E by lia.
        rewrite E, Z.pow_add_r in Hn1 by lia.
        pose proof (pow2_pos (k - 1) ltac:(lia)). nia.
      * assert (Z.log2 n = Z.log2 d) as E by lia.
        replace (- (k - 1)) with 1 by lia.
        rewrite Z.pow_succ_r in Hd2 by lia. rewrite E in Hn1. lia.
    + apply Z.ltb_ge in Hb. split; intros; lia.
  - apply Z.leb_gt in Hk.
    destruct (n * 2 ^ (- k) <? d) eqn:Hb.
    + split; intros Hs; [lia|].
      replace (- (k - 1)) with (Z.succ (Z.log2 d) - Z.log2 n) by lia.
      assert (2 ^ Z.succ (Z.log2 d) = 2 ^ Z.log2 n * 2 ^ (Z.succ (Z.log2 d) - Z.log2 n)) as E.
      { rewrite <- Z.pow_add_r by lia. f_equal. lia. }
      pose proof (pow2_pos (Z.succ (Z.log2 d) - Z.log2 n) ltac:(lia)). nia.
    + apply Z.ltb_ge in Hb. split; intros; lia.
Qed.

Lemma mantissa_exponent_bounds n d :
  0 < n < 2 ^ 53 -> 0 < d < 2 ^ 1075 ->
  let e := Z.max (quotient_log2 n d - 52) (-1074) in
  e <= 0 /\ d < 2 * 2 ^ (- e).
Proof.
  intros Hn Hd. cbv zeta.
  pose proof (quotient_log2_le n d ltac:(lia) ltac:(lia)) as Hle.
  assert (Z.log2 n < 53) as Hl by (apply Z.log2_lt_pow2; lia).
  destruct (quotient_log2_lower n d ltac:(lia) ltac:(lia)) as [Hp Hm].
  set (fl := quotient_log2 n d) in *.
  split; [lia|].
  destruct (Z.max_spec (fl - 52) (-1074)) as [[Hlt ->]|[Hge ->]].
  - change (- -1074) with 1074. change (2 * 2 ^ 1074) with (2 ^ 1075). lia.
  - replace (2 * 2 ^ (- (fl - 52))) with (2 ^ (53 - fl)).
    2:{ replace (53 - fl) with (1 + (- (fl - 52))) by lia.
        rewrite Z.pow_add_r by lia. reflexivity. }
    destruct (Z_lt_le_dec fl 0) as [Hneg|Hpos].
    + specialize (Hm Hneg).
      replace (53 - fl) with (53 + (- fl)) by lia. rewrite Z.pow_add_r by lia.
      pose proof (pow2_pos (- fl) ltac:(lia)). nia.
    + specialize (Hp Hpos).
      assert (2 ^ 53 = 2 ^ fl * 2 ^ (53 - fl)) as E.
      { rewrite <- Z.pow_add_r by lia. f_equal. lia. }
      pose proof (pow2_pos fl ltac:(lia)). pose proof (pow2_pos (53 - fl) ltac:(lia)). nia.
Qed.

Lemma round_half_even_scaled n d P :
  0 < n -> 0 < d -> 0 < P -> d < 2 * P ->
  let m := round_half_even (n * P) d in
  - ((- m) / P) = exact_ceil_div n d.
Proof.
  intros Hn Hd HP HdP. cbv zeta. unfold exact_ceil_div, round_half_even.
  pose proof (Z.div_mod n d ltac:(lia)) as En.
  pose proof (Z.mod_pos_bound n d ltac:(lia)) as Rn.
  pose proof (Z.div_mod (n * P) d ltac:(lia)) as E1.
  pose proof (Z.mod_pos_bound (n * P) d ltac:(lia)) as R1.
  set (k := n / d) in *. set (r := n mod d) in *.
  set (q1 := (n * P) / d) in *. set (r1 := (n * P) mod d) in *.
  assert (0 <= k) by (apply Z.div_pos; lia).
  destruct (Z.eq_dec r 0) as [Hr|Hr].
  - assert (q1 = k * P /\ r1 = 0) as [-> ->].
    { assert (n * P = d * (k * P) + 0) as E2 by nia.
      split; [symmetry; apply (Z.div_unique (n * P) d (k * P) 0)
             |symmetry; apply (Z.mod_unique (n * P) d (k * P) 0)]; lia. }
    replace (2 * 0 <? d) with true by (symmetry; apply Z.ltb_lt; lia).
    replace (- (k * P)) with ((- k) * P) by lia. rewrite Z.div_mul by lia.
    rewrite Z.opp_involutive.
    apply (Z.div_unique (n + d - 1) d k (d - 1)); lia.
  - assert ((n + d - 1) / d = k + 1) as ->.
    { symmetry. apply (Z.div_unique (n + d - 1) d (k + 1) (r - 1)); lia. }
    assert (k * P <= q1 <= (k + 1) * P - 1) as Hq1 by nia.
    assert (forall m, k * P < m <= (k + 1) * P -> - (- m / P) = k + 1) as Hceil.
    { intros m Hm. 
      rewrite <- (Z.div_unique (- m) P (- (k + 1)) ((k + 1) * P - m)); lia. }
    assert (q1 = k * P -> d < 2 * r1) as Hup by nia.
    destruct (2 * r1 <? d) eqn:T1; [apply Z.ltb_lt in T1|apply Z.ltb_ge in T1].
    + apply Hceil. nia.
    + destruct (d <? 2 * r1) eqn:T2; [apply Z.ltb_lt in T2|apply Z.ltb_ge in T2].
      * apply Hceil. lia.
      * destruct (Z.even q1); apply Hceil; nia.
Qed.

Lemma math_ceil_canonical e :
  e <= 0 ->
  math_ceil (PyFloat false (2 ^ 52) (e + 1)) = math_ceil (PyFloat false (2 ^ 53) e).
Proof.
  intros He. unfold math_ceil; cbn [f_neg f_mant f_exp].
  destruct (Z.eq_dec e 0) as [->|Hne]; [reflexivity|].
  destruct (Z.leb_spec 0 e) as [H0|H0]; [lia|].
  destruct (Z.leb_spec 0 (e + 1)) as [H1|H1].
  - assert (e = -1) as -> by lia. reflexivity.
  - f_equal.
    replace (- e) with (1 + (- (e + 1))) by lia.
    rewrite Z.pow_add_r by lia.
    change (- 2 ^ 53) with (2 ^ 1 * (- 2 ^ 52)).
    rewrite Z.div_mul_cancel_l; [reflexivity| |lia].
    pose proof (pow2_pos (- (e + 1)) ltac:(lia)). lia.
Qed.

Lemma blocks_per_grid_exact n t b tpb :
  0 < n < 2 ^ 53 -> 0 < t -> 0 < b -> t * b < 2 ^ 1075 ->
  blocks_per_grid n (t :: tpb) b = Ok (exact_ceil_div n (t * b)).
Proof.
  intros Hn Ht Hb Hd.
  assert (0 < t * b) as Hd0 by nia.
  unfold blocks_per_grid. cbn [first_item mbind outcome_bind].
  unfold int_true_divide.
  destruct (Z.eqb_spec (t * b) 0) as [?|_]; [lia|].
  destruct (Z.eqb_spec n 0) as [?|_]; [lia|].
  replace (n <? 0) with false by (symmetry; apply Z.ltb_ge; lia).
  replace (t * b <? 0) with false by (symmetry; apply Z.ltb_ge; lia).
  rewrite (Z.abs_eq n), (Z.abs_eq (t * b)) by lia.
  set (d := t * b) in *.
  destruct (mantissa_exponent_bounds n d ltac:(lia) ltac:(lia)) as [He HdP].
  unfold round_quotient.
  set (e := Z.max (quotient_log2 n d - 52) (-1074)) in *.
  set (m := if 0 <=? e then _ else _).
  assert (m = round_half_even (n * 2 ^ (- e)) d) as Em.
  { subst m. destruct (Z.leb_spec 0 e); [|reflexivity].
    assert (e = 0) as -> by lia. simpl. f_equal; lia. }
  pose proof (pow2_pos (- e) ltac:(lia)) as HP.
  pose proof (round_half_even_scaled n d (2 ^ (- e)) ltac:(lia) ltac:(lia) HP HdP) as Hc.
  cbv zeta in Hc. rewrite <- Em in Hc.
  assert (math_ceil (PyFloat false m e) = exact_ceil_div n d) as Hm.
  { unfold math_ceil; cbn [f_neg f_mant f_exp].
    destruct (Z.leb_spec 0 e); [|exact Hc].
    assert (e = 0) as E0 by lia. rewrite E0 in *. 
    change (2 ^ (- 0)) with 1 in Hc. rewrite Z.div_1_r in Hc. change (2 ^ 0) with 1. lia. }
  destruct (Z.eqb_spec m (2 ^ 53)) as [E53|_].
  - destruct (Z.ltb_spec 971 (e + 1)); [lia|].
    cbn [mbind outcome_bind]. rewrite math_ceil_canonical by lia.
    rewrite <- E53. f_equal. exact Hm.
  - destruct (Z.ltb_spec 971 e); [lia|].
    cbn [mbind outcome_bind]. f_equal. exact Hm.
Qed.

Lemma exact_ceil_div_spec n d :
  0 < d ->
  d * (exact_ceil_div n d - 1) < n <= d * exact_ceil_div n d.
Proof.
  intros Hd. unfold exact_ceil_div.
  pose proof (Z.div_mod (n + d - 1) d ltac:(lia)).
  pose proof (Z.mod_pos_bound (n + d - 1) d Hd). lia.
Qed.

(** The rounding of [int_true_divide] is the IEEE 754 binary64 division of
    the Standard Library, here on the quotients used below. *)
Lemma int_true_divide_is_binary64_division :
  SFdiv 53 1024 (S754_finite false 1000 0) (S754_finite false 1024 0)
    = S754_finite false 8796093022208000 (-53) /\
  int_true_divide 1000 1024 = Ok (PyFloat false 8796093022208000 (-53)) /\
  SFdiv 53 1024 (S754_finite false 18014398509481985 0) (S754_finite false 2048 0)
    = S754_finite false 4503599627370496 (-9) /\
  int_true_divide 18014398509481985 2048 = Ok (PyFloat false 4503599627370496 (-9)) /\
  SFdiv 53 1024 (S754_finite false 1 0) (S754_finite false 3 0)
    = S754_finite false 6004799503160661 (-54) /\
  int_true_divide 1 3 = Ok (PyFloat false 6004799503160661 (-54)).
Proof. repeat split; vm_compute; reflexivity. Qed.

(** C4 (amended). For positive [n_bytes], [threads_per_block[0]] and
    [bytes_per_thread] with [n_bytes < 2^53] and a product
    [threads_per_block[0] * bytes_per_thread] below [2^1075], the grid
    dimension of the decode hook is the exact integer ceiling of
    [n_bytes / (threads_per_block[0] * bytes_per_thread)]; for 1000 bytes,
    256 threads and 4 bytes per thread it is 1. *)
Theorem blocks_per_grid_exact_ceiling (n_bytes t0 bytes_per_thread : Z) (tpb : list Z) :
  0 < n_bytes < 2 ^ 53 ->
  0 < t0 ->
  0 < bytes_per_thread ->
  t0 * bytes_per_thread < 2 ^ 1075 ->
  blocks_per_grid n_bytes (t0 :: tpb) bytes_per_thread
    = Ok (exact_ceil_div n_bytes (t0 * bytes_per_thread)) /\
  (t0 * bytes_per_thread) * (exact_ceil_div n_bytes (t0 * bytes_per_thread) - 1) < n_bytes
    <= (t0 * bytes_per_thread) * exact_ceil_div n_bytes (t0 * bytes_per_thread) /\
  blocks_per_grid 1000 [256] 4 = Ok 1.
Proof.
  intros Hn Ht Hb Hd. split; [|split].
  - exact (blocks_per_grid_exact n_bytes t0 bytes_per_thread tpb Hn Ht Hb Hd).
  - apply exact_ceil_div_spec. nia.
  - vm_compute. reflexivity.
Qed.

(** ** The buffer pool *)

Lemma numel_1d dt n d st : numel (Tensor dt [n] d st) = n.
Proof. unfold numel, numel_of_shape; simpl. lia. Qed.


Lemma run_bind {A B : Type} (m : M A) (k : A -> M B) (rt : runtime) :
  (m ≫= k) rt =
  match m rt with
  | (Ok a, rt') => k a rt'
  | (Raise e, rt') => (Raise e, rt')
  end.
Proof. reflexivity. Qed.

Lemma run_lift_bind {A B : Type} (o : outcome A) (k : A -> M B) (rt : runtime) :
  (lift o ≫= k) rt =
  match o with
  | Ok a => k a rt
  | Raise e => (Raise e, rt)
  end.
Proof. rewrite run_bind. unfold lift. destruct o; reflexivity. Qed.

Lemma run_ret {A : Type} (a : A) (rt : runtime) : (mret a : M A) rt = (Ok a, rt).
Proof. reflexivity. Qed.

Ltac run :=
  cbv [mbind M_bind mret M_ret lift report pool_lookup pool_delete pool_store
       pool_clear emit];
  cbn [_tensors next_alloc trace fst snd].

Lemma get_tensor_hit device d n rt existing :
  resolve_device device = Ok d ->
  _tensors rt !! d = Some existing ->
  n <= numel existing ->
  get_tensor device n rt = (Ok (tensor_prefix existing n), rt).
Proof.
  intros Hd He Hn. unfold get_tensor.
  rewrite run_lift_bind, Hd, run_bind. unfold pool_lookup at 1. rewrite He.
  destruct (Z.leb_spec n (numel existing)); [reflexivity|lia].
Qed.

Lemma get_tensor_allocate device d n rt :
  resolve_device device = Ok d ->
  0 <= n ->
  (forall existing, _tensors rt !! d = Some existing -> numel existing < n) ->
  get_tensor device n rt =
    (Ok (Tensor bfloat16 [n] d (Pooled (next_alloc rt) 0)),
     Runtime (<[d := Tensor bfloat16 [n] d (Pooled (next_alloc rt) 0)]> (_tensors rt))
       (S (next_alloc rt))
       (trace rt ++ (if _tensors rt !! d is Some _ then [EmptyCache] else [])
                 ++ [PrintAllocated n d])).
Proof.
  intros Hd Hn Hsmall. unfold get_tensor.
  rewrite run_lift_bind, Hd, run_bind. unfold pool_lookup at 1.
  destruct (_tensors rt !! d) as [existing|] eqn:He.
  - specialize (Hsmall existing eq_refl).
    destruct (Z.leb_spec n (numel existing)); [lia|].
    unfold torch_empty. run.
    destruct (Z.ltb_spec n 0); [lia|]. cbn [_tensors next_alloc trace].
    rewrite insert_delete_eq, <- app_assoc. reflexivity.
  - unfold torch_empty. run.
    destruct (Z.ltb_spec n 0); [lia|]. reflexivity.
Qed.

Lemma pool_ok_delete rt d tr :
  pool_ok rt -> pool_ok (Runtime (delete d (_tensors rt)) (next_alloc rt) tr).
Proof.
  intros Hok d' t Ht. cbn in Ht.
  apply lookup_delete_Some in Ht as [_ Ht]. exact (Hok d' t Ht).
Qed.

Lemma pool_ok_trace rt tr :
  pool_ok rt -> pool_ok (Runtime (_tensors rt) (next_alloc rt) tr).
Proof. intros Hok d t Ht. exact (Hok d t Ht). Qed.

Lemma get_tensor_pool_ok device n rt :
  pool_ok rt -> pool_ok (get_tensor device n rt).2.
Proof.
  intros Hok. unfold get_tensor. rewrite run_lift_bind.
  destruct (resolve_device device) as [d|e]; [|exact Hok].
  rewrite run_bind. unfold pool_lookup at 1.
  assert (forall rt0, pool_ok rt0 -> pool_ok
            ((torch_empty n bfloat16 d ≫= λ new_tensor : tensor,
                report (PrintAllocated n d) ≫= λ _ : (),
                  pool_store d new_tensor ≫= λ _ : (), mret new_tensor) rt0).2) as Halloc.
  { intros rt0 Hok0. unfold torch_empty. run.
    destruct (Z.ltb_spec n 0); [exact Hok0|].
    cbn [snd _tensors next_alloc trace]. intros d' t Ht. cbn in Ht.
    destruct (decide (d = d')) as [<-|Hne].
    - rewrite lookup_insert_eq in Ht. injection Ht as <-.
      exists n, (next_alloc rt0). repeat split; [lia|]. cbn. lia.
    - rewrite lookup_insert_ne in Ht by done.
      destruct (Hok0 d' t Ht) as (n' & id & -> & ? & ?).
      exists n', id. repeat split; [lia|]. cbn. lia. }
  destruct (_tensors rt !! d) as [existing|] eqn:He.
  - destruct (n <=? numel existing); [exact Hok|].
    rewrite run_bind. unfold pool_delete at 1. rewrite run_bind. unfold report at 1.
    apply Halloc. unfold emit; cbn. apply pool_ok_delete, Hok.
  - apply Halloc, Hok.
Qed.

Lemma clear_device_pool_ok device rt :
  pool_ok rt -> pool_ok (clear_device device rt).2.
Proof.
  intros Hok. unfold clear_device. destruct device as [device|].
  - rewrite run_bind, run_lift_bind.
    destruct (resolve_device device) as [d|e]; [|exact Hok].
    rewrite run_bind. unfold pool_lookup at 1.
    destruct (_tensors rt !! d); run; cbn.
    + apply (pool_ok_delete rt d _ Hok).
    + apply pool_ok_trace, Hok.
  - run. cbn. intros d t Ht. cbn in Ht. rewrite lookup_empty in Ht. discriminate.
Qed.

Lemma reachable_pool_ok rt : reachable rt -> pool_ok rt.
Proof.
  induction 1.
  - intros d t Ht. cbn in Ht. rewrite lookup_empty in Ht. discriminate.
  - apply get_tensor_pool_ok; assumption.
  - apply clear_device_pool_ok; assumption.
  - apply pool_ok_trace; assumption.
Qed.


(** ** Shared-memory size *)

Lemma fold_left_max_ge (l : list Z) (x : Z) : x <= fold_left Z.max l x.
Proof.
  revert x. induction l as [|y l IH]; intros x; simpl; [lia|].
  specialize (IH (Z.max x y)). lia.
Qed.

Lemma fold_left_max_spec (l : list Z) (x : Z) :
  fold_left Z.max l x ∈ x :: l /\ (forall y, y ∈ x :: l -> y <= fold_left Z.max l x).
Proof.
  revert x. induction l as [|y l IH]; intros x; simpl.
  - split; [left|]. intros z Hz. apply list_elem_of_singleton in Hz. lia.
  - destruct (IH (Z.max x y)) as [Hin Hmax]. split.
    + apply elem_of_cons in Hin as [E|Hin].
      * rewrite E. destruct (Z.max_spec x y) as [[_ ->]|[_ ->]]; [right; left|left].
      * right; right; exact Hin.
    + intros z Hz.
      apply elem_of_cons in Hz as [->|Hz].
      * pose proof (Hmax (Z.max x y) ltac:(left)). lia.
      * apply elem_of_cons in Hz as [->|Hz].
        -- pose proof (Hmax (Z.max x y) ltac:(left)). lia.
        -- apply Hmax. right; exact Hz.
Qed.

Lemma array_max_spec (a : list Z) (m : Z) :
  array_max a = Ok m -> m ∈ a /\ (forall y, y ∈ a -> y <= m).
Proof.
  destruct a as [|x xs]; simpl; [discriminate|].
  intros [= <-]. apply fold_left_max_spec.
Qed.

Lemma array_max_nonempty (x : Z) (xs : list Z) : exists m, array_max (x :: xs) = Ok m.
Proof. eexists; reflexivity. Qed.

(** On increasing offsets below [2^32] the unsigned differences are the
    plain ones. *)
Lemma gaps_uint32_increasing (a : list Z) :
  Forall (fun x => 0 <= x < 2 ^ 32) a ->
  (forall i x y, a !! i = Some x -> a !! S i = Some y -> x <= y) ->
  gaps_uint32 a = zip_with Z.sub (drop 1 a) a.
Proof.
  unfold gaps_uint32. induction a as [|x a IH]; intros Hr Hs; [reflexivity|].
  destruct a as [|y a]; [reflexivity|].
  change (drop 1 (x :: y :: a)) with (y :: drop 1 (y :: a)).
  cbn [zip_with]. f_equal.
  - unfold sub_uint32. apply Z.mod_small.
    pose proof (Hs 0%nat x y eq_refl eq_refl).
    apply Forall_cons in Hr as [? Hr]. apply Forall_cons in Hr as [? _]. lia.
  - apply IH.
    + apply Forall_cons in Hr as [_ Hr]. exact Hr.
    + intros i u v Hu Hv. exact (Hs (S i) u v Hu Hv).
Qed.

Lemma shared_mem_size_formula t0 tpb t len a :
  uint32_offsets t = Ok ([len], a) ->
  (2 <= length a)%nat ->
  exists gap,
    shared_mem_size_of (t0 :: tpb) t = Ok (t0 * 4 + 4 + 2 * gap) /\
    gap ∈ gaps_uint32 a /\ (forall g, g ∈ gaps_uint32 a -> g <= gap).
Proof.
  unfold uint32_offsets, shared_mem_size_of. intros Ho Hlen.
  destruct a as [|x0 [|x1 a]]; [simpl in Hlen; lia..|].
  destruct (array_max (gaps_uint32 (x0 :: x1 :: a))) as [gap|e] eqn:Hmax;
    [|discriminate].
  exists gap. split; [|apply array_max_spec, Hmax].
  cbv [mbind outcome_bind first_item] in Ho |- *.
  destruct (view_uint32 t) as [p|e]; [|discriminate].
  rewrite Ho. cbv [consecutive_differences].
  change (Z.to_nat (numel_of_shape [])) with 1%nat.
  fold (gaps_uint32 (x0 :: x1 :: a)). rewrite Hmax.
  f_equal. lia.
Qed.

Lemma getattr_attr m name v :
  attrs m !! name = Some v -> getattr m name = Ok (OValue v).
Proof. unfold getattr. intros ->. reflexivity. Qed.

Lemma getattr_buffer m name t :
  attrs m !! name = None -> _parameters m !! name = None ->
  _buffers m !! name = Some t ->
  getattr m name = Ok (OValue (VTensor t)).
Proof. unfold getattr. intros -> -> ->. reflexivity. Qed.

Lemma getattr_int_is_attr m name z :
  getattr m name = Ok (OValue (VInt z)) -> attrs m !! name = Some (VInt z).
Proof.
  unfold getattr.
  destruct (attrs m !! name); [congruence|].
  destruct (_parameters m !! name) as [[?|]|]; [discriminate..|].
  destruct (_buffers m !! name); [discriminate|].
  destruct (assoc name (_modules m)); discriminate.
Qed.

Lemma setattr_unused m name v :
  _parameters m !! name = None -> assoc name (_modules m) = None ->
  _buffers m !! name = None ->
  setattr m name v = Ok (with_attrs m (<[name := v]> (attrs m))).
Proof.
  intros Hp Hm Hb. unfold setattr. rewrite Hp, Hm, Hb.
  repeat (case_decide as H; [destruct H as [? H]; discriminate|]). reflexivity.
Qed.

Lemma register_buffer_unused m name t :
  name <> "" -> unused_name m name ->
  register_buffer m name t = Ok (with_buffers m (<[name := t]> (_buffers m))).
Proof.
  intros Hne (Ha & Hp & Hb & Hm). unfold register_buffer, hasattr, getattr.
  destruct (String.eqb_spec name ""); [done|].
  rewrite Ha, Hp, Hb, Hm. reflexivity.
Qed.

(** At rewrite time the size is computed from the attached offsets and
    stored as the attribute [shared_mem_size]. *)
Lemma attach_output_positions cfg parts t m size :
  last_part parts = "output_positions" ->
  unused_name m "output_positions" ->
  unused_name m "shared_mem_size" ->
  shared_mem_size_of (cfg_threads_per_block cfg) t = Ok size ->
  attach cfg parts t m =
    Ok (with_attrs (with_buffers m (<["output_positions" := t]> (_buffers m)))
          (<["shared_mem_size" := VInt size]> (attrs m))).
Proof.
  intros Hlast Hop Hsm Hsize. unfold attach. rewrite Hlast.
  change (String.eqb "output_positions" "split_positions") with false.
  change (String.eqb "output_positions" "encoded_exponent") with false.
  change (String.eqb "output_positions" "output_positions") with true.
  cbv beta iota.
  rewrite (register_buffer_unused m "output_positions" t) by done.
  cbv [mbind outcome_bind tensor_attr].
  destruct Hop as (Ha & Hp & Hb & Hm), Hsm as (Ha' & Hp' & Hb' & Hm').
  rewrite (getattr_buffer _ "output_positions" t); cbn [attrs _parameters _buffers with_buffers];
    [|done|done|apply lookup_insert_eq].
  rewrite Hsize.
  rewrite setattr_unused; cbn [attrs _parameters _buffers _modules with_buffers]; try done.
  rewrite lookup_insert_ne by done. exact Hb'.
Qed.

Lemma install_weights_run reconstructed module rt :
  match kind module with
  | KLinear =>
      lift (assign_weight "out_features" "in_features" reconstructed module)
  | KEmbedding =>
      lift (assign_weight "num_embeddings" "embedding_dim" reconstructed module)
  | KOther =>
      split_positions ← lift (getattr module "split_positions");
      match split_positions with
      | OValue (VIntList indices) =>
          let weights := tensor_split reconstructed indices in
          targets ← lift (getattr module "weight_injection_modules");
          match targets with
          | OValue (VModules targets) => lift (inject_weights targets weights module)
          | _ => lift (Raise Unmodelled)
          end
      | _ => lift (Raise Unmodelled)
      end
  end rt = (install_weights reconstructed module, rt).
Proof.
  unfold install_weights. destruct (kind module); try reflexivity.
  rewrite run_lift_bind. cbv [mbind outcome_bind].
  destruct (getattr module "split_positions") as [[[]|]|]; try reflexivity.
  cbv zeta. rewrite run_lift_bind.
  destruct (getattr module "weight_injection_modules") as [[[]|]|]; reflexivity.
Qed.

(** What a successful run of the decode hook went through. *)
Lemma decode_hook_inv tpb bpt m rt m' rt' :
  decode_hook tpb bpt m rt = (Ok m', rt') ->
  exists sign_mantissa encoded_exponent luts n_luts reconstructed rt1 blocks threads size,
    tensor_attr m "sign_mantissa" = Ok sign_mantissa /\
    tensor_attr m "encoded_exponent" = Ok encoded_exponent /\
    tensor_attr m "luts" = Ok luts /\
    first_item (t_shape luts) = Ok n_luts /\
    get_tensor (DevObj (t_device encoded_exponent)) (numel sign_mantissa) rt
      = (Ok reconstructed, rt1) /\
    blocks_per_grid (numel encoded_exponent) tpb bpt = Ok blocks /\
    first_item tpb = Ok threads /\
    int_attr m "shared_mem_size" = Ok size /\
    rt' = emit (KernelDecode n_luts (numel encoded_exponent) (numel sign_mantissa)
                  blocks threads size reconstructed) rt1 /\
    install_weights reconstructed m = Ok m'.
Proof.
  unfold decode_hook. intros H.
  rewrite run_lift_bind in H.
  destruct (tensor_attr m "sign_mantissa") as [sm|] eqn:?; [|discriminate].
  rewrite run_lift_bind in H.
  destruct (tensor_attr m "encoded_exponent") as [ee|] eqn:?; [|discriminate].
  rewrite run_lift_bind in H.
  destruct (tensor_attr m "luts") as [luts|] eqn:?; [|discriminate].
  rewrite run_lift_bind in H.
  destruct (first_item (t_shape luts)) as [n_luts|] eqn:?; [|discriminate].
  rewrite run_bind in H.
  destruct (get_tensor (DevObj (t_device ee)) (numel sm) rt) as [[rec|] rt1] eqn:?;
    [|discriminate].
  rewrite run_lift_bind in H.
  destruct (blocks_per_grid (numel ee) tpb bpt) as [blocks|] eqn:?; [|discriminate].
  rewrite run_lift_bind in H.
  destruct (tensor_attr m "output_positions") eqn:?; [|discriminate].
  rewrite run_lift_bind in H.
  destruct (tensor_attr m "gaps") eqn:?; [|discriminate].
  rewrite run_lift_bind in H.
  destruct (first_item tpb) as [threads|] eqn:?; [|discriminate].
  rewrite run_lift_bind in H.
  destruct (int_attr m "shared_mem_size") as [size|] eqn:?; [|discriminate].
  rewrite run_bind in H. unfold report at 1 in H. cbv beta iota in H.
  rewrite install_weights_run in H. injection H as H <-.
  exists sm, ee, luts, n_luts, rec, rt1, blocks, threads, size.
  repeat (apply conj; [first [eassumption|reflexivity]|]). exact H.
Qed.

Lemma setattr_attrs_other m name v m' k :
  setattr m name v = Ok m' -> k <> name -> attrs m' !! k = attrs m !! k.
Proof.
  unfold setattr. intros H Hk.
  repeat case_decide; destruct v; try discriminate; injection H as <-;
    cbn [attrs with_attrs with_parameters with_buffers]; try reflexivity;
    rewrite lookup_insert_ne; done.
Qed.

Lemma assign_weight_attrs_other rows cols w m m' k :
  assign_weight rows cols w m = Ok m' -> k <> "weight" -> attrs m' !! k = attrs m !! k.
Proof.
  unfold assign_weight. cbv [mbind outcome_bind]. intros H Hk.
  destruct (int_attr m rows); [|discriminate].
  destruct (int_attr m cols); [|discriminate].
  destruct (tensor_view w _); [|discriminate].
  eapply setattr_attrs_other; eassumption.
Qed.

Lemma update_target_attrs_other path rows cols w m m' k :
  update_target path (assign_weight rows cols w) m = Ok m' ->
  k <> "weight" -> attrs m' !! k = attrs m !! k.
Proof.
  destruct path as [|p rest]; cbn [update_target]; intros H Hk.
  - eapply assign_weight_attrs_other; eassumption.
  - cbv [mbind outcome_bind] in H.
    destruct (getattr m p) as [[|c]|]; try discriminate.
    destruct (update_target rest _ c); [|discriminate].
    injection H as <-. reflexivity.
Qed.

Lemma inject_weights_attrs_other targets weights m m' k :
  inject_weights targets weights m = Ok m' ->
  k <> "weight" -> attrs m' !! k = attrs m !! k.
Proof.
  revert weights m. induction targets as [|t targets IH]; intros weights m H Hk.
  - injection H as <-. reflexivity.
  - destruct weights as [|w weights]; [injection H as <-; reflexivity|].
    cbn [inject_weights] in H. cbv [mbind outcome_bind] in H.
    destruct (update_target t _ m) as [m1|] eqn:E; [|discriminate].
    rewrite (IH _ _ H Hk). eapply update_target_attrs_other; eassumption.
Qed.

Lemma install_weights_attrs_other w m m' k :
  install_weights w m = Ok m' -> k <> "weight" -> attrs m' !! k = attrs m !! k.
Proof.
  unfold install_weights. intros H Hk. destruct (kind m).
  1,2: eapply assign_weight_attrs_other; eassumption.
  cbv [mbind outcome_bind] in H.
  destruct (getattr m "split_positions") as [[[]|]|]; try discriminate.
  destruct (getattr m "weight_injection_modules") as [[[]|]|]; try discriminate.
  eapply inject_weights_attrs_other; eassumption.
Qed.

(** The decode hook reads the stored size and hands it to the kernel; it
    does not compute or change it. *)
Lemma decode_hook_reads_shared_mem_size tpb bpt m rt m' rt' :
  decode_hook tpb bpt m rt = (Ok m', rt') ->
  exists size tr n_luts n_bytes n_elements blocks threads out,
    getattr m "shared_mem_size" = Ok (OValue (VInt size)) /\
    getattr m' "shared_mem_size" = Ok (OValue (VInt size)) /\
    trace rt' = tr ++ [KernelDecode n_luts n_bytes n_elements blocks threads size out].
Proof.
  intros H. apply decode_hook_inv in H
    as (sm & ee & luts & n_luts & rec & rt1 & blocks & threads & size
        & _ & _ & _ & _ & _ & _ & _ & Hsize & -> & Hinst).
  assert (getattr m "shared_mem_size" = Ok (OValue (VInt size))) as Hget.
  { unfold int_attr in Hsize. cbv [mbind outcome_bind] in Hsize.
    destruct (getattr m "shared_mem_size") as [[[]|]|]; try discriminate.
    congruence. }
  exists size, (trace rt1), n_luts, (numel ee), (numel sm), blocks, threads, rec.
  split; [exact Hget|]. split; [|reflexivity].
  apply getattr_attr. rewrite (install_weights_attrs_other _ _ _ _ Hinst) by done.
  apply getattr_int_is_attr, Hget.
Qed.

(** C3. The stored shared-memory size is
    [threads_per_block[0] * 4 + 4 + 2 * gap], where [gap] is the largest
    consecutive difference of the output positions read as unsigned 32-bit
    offsets.  It is computed when the output-positions leaf is attached and
    stored as the attribute [shared_mem_size]; the decode hook only reads the
    stored value and passes it to the kernel.  For offsets [0, 10, 25, 40]
    and 128 threads the value is 546. *)
Theorem shared_mem_size_computed_at_rewrite :
  (forall t0 tpb t len a,
     uint32_offsets t = Ok ([len], a) ->
     (2 <= length a)%nat ->
     exists gap,
       shared_mem_size_of (t0 :: tpb) t = Ok (t0 * 4 + 4 + 2 * gap) /\
       gap ∈ gaps_uint32 a /\ (forall g, g ∈ gaps_uint32 a -> g <= gap)) /\
  (forall cfg parts t m size,
     last_part parts = "output_positions" ->
     unused_name m "output_positions" ->
     unused_name m "shared_mem_size" ->
     shared_mem_size_of (cfg_threads_per_block cfg) t = Ok size ->
     exists m',
       attach cfg parts t m = Ok m' /\
       getattr m' "shared_mem_size" = Ok (OValue (VInt size))) /\
  (forall tpb bpt m rt m' rt',
     decode_hook tpb bpt m rt = (Ok m', rt') ->
     exists size tr n_luts n_bytes n_elements blocks threads out,
       getattr m "shared_mem_size" = Ok (OValue (VInt size)) /\
       getattr m' "shared_mem_size" = Ok (OValue (VInt size)) /\
       trace rt' = tr ++ [KernelDecode n_luts n_bytes n_elements blocks threads size out]) /\
  shared_mem_size_of [128] (offsets_tensor [0; 10; 25; 40]) = Ok 546.
Proof.
  split; [exact shared_mem_size_formula|].
  split.
  { intros cfg parts t m size Hlast Hop Hsm Hsize.
    eexists. split; [apply attach_output_positions; eassumption|].
    apply getattr_attr. cbn [attrs with_attrs]. apply lookup_insert_eq. }
  split; [exact decode_hook_reads_shared_mem_size|].
  reflexivity.
Qed.

(** C5. A layer whose output positions hold a single offset has no
    consecutive difference: the maximum is taken over an empty sequence, the
    size computation raises, and so does the attachment of the leaf. *)
Theorem single_position_fails (t : tensor) (len x : Z) :
  uint32_offsets t = Ok ([len], [x]) ->
  (forall tpb, is_ok (shared_mem_size_of tpb t) = false) /\
  (forall t0 tpb, shared_mem_size_of (t0 :: tpb) t = Raise ValueError) /\
  (forall cfg parts m,
     last_part parts = "output_positions" ->
     unused_name m "output_positions" ->
     is_ok (attach cfg parts t m) = false).
Proof.
  intros Ho.
  assert (forall t0 tpb, shared_mem_size_of (t0 :: tpb) t = Raise ValueError) as Hraise.
  { intros t0 tpb. unfold uint32_offsets, shared_mem_size_of in *.
    cbv [mbind outcome_bind first_item] in Ho |- *.
    destruct (view_uint32 t); [|discriminate]. rewrite Ho. reflexivity. }
  assert (forall tpb, is_ok (shared_mem_size_of tpb t) = false) as Hfail.
  { intros [|t0 tpb]; [reflexivity|]. rewrite Hraise. reflexivity. }
  repeat split; [exact Hfail|exact Hraise|].
  intros cfg parts m Hlast (Ha & Hp & Hb & Hm). unfold attach. rewrite Hlast.
  change (String.eqb "output_positions" "split_positions") with false.
  change (String.eqb "output_positions" "encoded_exponent") with false.
  change (String.eqb "output_positions" "output_positions") with true.
  cbv beta iota.
  rewrite (register_buffer_unused m "output_positions" t) by done.
  cbv [mbind outcome_bind tensor_attr].
  rewrite (getattr_buffer _ "output_positions" t); cbn [attrs _parameters _buffers with_buffers];
    [|done|done|apply lookup_insert_eq].
  specialize (Hfail (cfg_threads_per_block cfg)).
  destruct (shared_mem_size_of (cfg_threads_per_block cfg) t); [discriminate|reflexivity].
Qed.

(** ** Loading one tensor *)

Lemma getattr_module_assoc m name c :
  getattr m name = Ok (OModule c) -> assoc name (_modules m) = Some c.
Proof.
  unfold getattr.
  destruct (attrs m !! name); [discriminate|].
  destruct (_parameters m !! name); [discriminate|].
  destruct (_buffers m !! name); [discriminate|].
  destruct (assoc name (_modules m)); [|discriminate].
  intros [= ->]. reflexivity.
Qed.

Lemma getattr_raise_assoc m name e :
  getattr m name = Raise e -> assoc name (_modules m) = None.
Proof.
  unfold getattr.
  destruct (attrs m !! name); [discriminate|].
  destruct (_parameters m !! name); [discriminate|].
  destruct (_buffers m !! name); [discriminate|].
  destruct (assoc name (_modules m)); [discriminate|reflexivity].
Qed.

Lemma path_breaks_submodule path m :
  path_breaks path m = true -> submodule path m = None.
Proof.
  revert m. induction path as [|part rest IH]; intros m; cbn [path_breaks submodule];
    [discriminate|].
  destruct (getattr m part) as [[v|child]|e] eqn:E; [discriminate| |].
  - rewrite (getattr_module_assoc _ _ _ E). apply IH.
  - rewrite (getattr_raise_assoc _ _ _ E). reflexivity.
Qed.

Lemma path_breaks_navigate path f m :
  path_breaks path m = true -> navigate path f m = Ok None.
Proof.
  revert m. induction path as [|part rest IH]; intros m; cbn [path_breaks navigate];
    [discriminate|].
  unfold hasattr.
  destruct (getattr m part) as [[v|child]|e] eqn:E; cbn [is_ok]; [discriminate| |reflexivity].
  intros Hb. cbv [mbind outcome_bind]. rewrite (IH _ Hb). reflexivity.
Qed.


(** C7. When an intermediate attribute of the dotted path is missing, the
    failure is reported on standard error, the iteration returns normally
    with the model exactly as it was (no buffer, hook or attribute is added),
    and the loop goes on with the next tensor. *)
Theorem missing_module_path_skips_tensor
    (cfg : dfloat11_config) (model : nn_module) (name : string) (value : tensor)
    (rt : runtime) :
  path_breaks (all_but_last (split_on "." name)) model = true ->
  load_tensor cfg model (name, value) rt
    = (Ok model, emit (PrintCannotFindModulePath name) rt) /\
  forall rest,
    for_each (load_tensor cfg) ((name, value) :: rest) model rt
    = for_each (load_tensor cfg) rest model (emit (PrintCannotFindModulePath name) rt).
Proof.
  intros Hb.
  assert (load_tensor cfg model (name, value) rt
    = (Ok model, emit (PrintCannotFindModulePath name) rt)) as E.
  { unfold load_tensor, state_dict_entry.
    rewrite (path_breaks_submodule _ _ Hb). cbn [mbind option_bind].
    rewrite run_lift_bind, (path_breaks_navigate _ _ _ Hb). reflexivity. }
  split; [exact E|].
  intros rest. cbn [for_each]. rewrite run_bind, E. reflexivity.
Qed.

(** ** Pattern dispatch at rewrite time *)

Lemma configure_skips_unmatched before rest parts m :
  Forall (fun entry => fullmatch (fst entry) (dotted (all_but_last parts)) = false) before ->
  configure_weight_injection (before ++ rest) parts m
  = configure_weight_injection rest parts m.
Proof.
  induction 1 as [|[pattern names] before Hno _ IH]; [reflexivity|].
  cbn [app configure_weight_injection]. cbn [fst] in Hno. rewrite Hno. exact IH.
Qed.

Lemma configure_no_match pattern_dict parts m :
  Forall (fun entry => fullmatch (fst entry) (dotted (all_but_last parts)) = false)
    pattern_dict ->
  configure_weight_injection pattern_dict parts m = Ok m.
Proof.
  intros H. rewrite <- (app_nil_r pattern_dict).
  rewrite (configure_skips_unmatched _ [] _ _ H). reflexivity.
Qed.

Lemma detach_weight_parameter m :
  weight_is_parameter m ->
  detach_weight m = Ok (with_parameters m (delete "weight" (_parameters m))).
Proof.
  intros (Ha & [p Hp] & Hb & Hm). unfold detach_weight, getattr, delattr.
  rewrite Ha, Hp. cbv [mbind outcome_bind].
  case_decide as H; [reflexivity|]. destruct H. eauto.
Qed.

Lemma detach_weight_twice m :
  weight_is_parameter m ->
  detach_weight (with_parameters m (delete "weight" (_parameters m)))
  = Raise AttributeError.
Proof.
  intros (Ha & _ & Hb & Hm). unfold detach_weight, getattr.
  cbn [attrs _parameters _buffers _modules with_parameters].
  rewrite Ha, lookup_delete_eq, Hb, Hm. reflexivity.
Qed.

Lemma configure_second_match_raises after parts m :
  kind m <> KOther ->
  detach_weight m = Raise AttributeError ->
  Exists (fun entry => fullmatch (fst entry) (dotted (all_but_last parts)) = true) after ->
  configure_weight_injection after parts m = Raise AttributeError.
Proof.
  intros Hk Hd. induction 1 as [[pattern names] after Hyes|[pattern names] after _ IH];
    cbn [configure_weight_injection].
  - cbn [fst] in Hyes. rewrite Hyes.
    destruct (kind m); [| |done]; rewrite Hd; reflexivity.
  - destruct (fullmatch pattern _); [|exact IH].
    destruct (kind m); [| |done]; rewrite Hd; reflexivity.
Qed.

Lemma setattr_plain_value m name v m' :
  (forall t, v <> VTensor t) -> v <> VNone ->
  setattr m name v = Ok m' ->
  m' = with_attrs m (<[name := v]> (attrs m)).
Proof.
  unfold setattr. intros Ht Hn H.
  repeat case_decide; destruct v; try discriminate; try congruence;
    try (exfalso; eapply Ht; reflexivity).
Qed.

Lemma delattr_attrs_other m name m' k :
  delattr m name = Ok m' -> k <> name -> attrs m' !! k = attrs m !! k.
Proof.
  unfold delattr. intros H Hk.
  repeat case_decide; try discriminate; injection H as <-;
    cbn [attrs with_attrs with_parameters with_buffers with_modules]; try reflexivity.
  rewrite lookup_delete_ne; done.
Qed.

Lemma detach_weight_attrs_other m m' k :
  detach_weight m = Ok m' -> k <> "weight" -> attrs m' !! k = attrs m !! k.
Proof.
  unfold detach_weight. cbv [mbind outcome_bind].
  destruct (getattr m "weight"); [|discriminate].
  intros H Hk. eapply delattr_attrs_other; eassumption.
Qed.

Lemma update_target_attrs path f k :
  (forall m m', f m = Ok m' -> attrs m' !! k = attrs m !! k) ->
  forall m m', update_target path f m = Ok m' -> attrs m' !! k = attrs m !! k.
Proof.
  intros Hf. destruct path as [|p rest]; cbn [update_target]; intros m m' H.
  - eapply Hf; eassumption.
  - cbv [mbind outcome_bind] in H.
    destruct (getattr m p) as [[|c]|]; try discriminate.
    destruct (update_target rest f c); [|discriminate].
    injection H as <-. reflexivity.
Qed.

(** The targets of a split pattern are recorded in the order of the names. *)
Lemma collect_targets_records names : forall parts m acc m' parts',
  attrs m !! "weight_injection_modules" = Some (VModules acc) ->
  collect_targets names parts m = Ok (m', parts') ->
  attrs m' !! "weight_injection_modules"
    = Some (VModules (acc ++ map (split_on ".") names)).
Proof.
  induction names as [|attr_path names IH]; intros parts m acc m' parts' Hacc H.
  - injection H as <- _. cbn [map]. rewrite app_nil_r. exact Hacc.
  - cbn [collect_targets] in H. cbv [mbind outcome_bind] in H.
    destruct (update_target (split_on "." attr_path) detach_weight m) as [m1|] eqn:E1;
      [|discriminate].
    assert (attrs m1 !! "weight_injection_modules" = Some (VModules acc)) as Hacc1.
    { rewrite <- Hacc. eapply update_target_attrs; [|exact E1].
      intros ? ? Hd. eapply detach_weight_attrs_other; [exact Hd|done]. }
    rewrite (getattr_attr _ _ _ Hacc1) in H.
    destruct (setattr m1 "weight_injection_modules" _) as [m2|] eqn:E2; [|discriminate].
    apply setattr_plain_value in E2; [|done|done]. subst m2.
    rewrite (IH _ _ (acc ++ [split_on "." attr_path]) _ _
               (lookup_insert_eq (attrs m1) _ _) H).
    cbn [map]. rewrite <- app_assoc. reflexivity.
Qed.

(** C1 (amended). The patterns are tried in mapping order against the
    module's dotted path.  Patterns that do not match have no effect, so the
    first matching pattern is the first one applied; but the loop does not
    stop there, and every later pattern is still tried and applied when it
    matches.  For a Linear or Embedding module, whose weight the first match
    detaches, the result is that of the first match alone when no later
    pattern matches, and the rewrite raises [AttributeError] when one does.
    For any other module matched by a single pattern, the listed sub-layers
    are recorded, in order, as its weight-injection targets. *)
Theorem patterns_are_applied_in_mapping_order :
  (forall before rest parts m,
     Forall (fun entry => fullmatch (fst entry) (dotted (all_but_last parts)) = false)
       before ->
     configure_weight_injection (before ++ rest) parts m
     = configure_weight_injection rest parts m) /\
  (forall pattern_dict parts m,
     Forall (fun entry => fullmatch (fst entry) (dotted (all_but_last parts)) = false)
       pattern_dict ->
     configure_weight_injection pattern_dict parts m = Ok m) /\
  (forall pattern attr_names after parts m,
     fullmatch pattern (dotted (all_but_last parts)) = true ->
     kind m <> KOther ->
     weight_is_parameter m ->
     (Forall (fun entry => fullmatch (fst entry) (dotted (all_but_last parts)) = false)
        after ->
      configure_weight_injection ((pattern, attr_names) :: after) parts m
      = Ok (with_parameters m (delete "weight" (_parameters m)))) /\
     (Exists (fun entry => fullmatch (fst entry) (dotted (all_but_last parts)) = true)
        after ->
      configure_weight_injection ((pattern, attr_names) :: after) parts m
      = Raise AttributeError)) /\
  (forall pattern attr_names parts m m',
     fullmatch pattern (dotted (all_but_last parts)) = true ->
     kind m = KOther ->
     configure_weight_injection [(pattern, attr_names)] parts m = Ok m' ->
     getattr m' "weight_injection_modules"
       = Ok (OValue (VModules (map (split_on ".") attr_names)))).
Proof.
  split; [exact configure_skips_unmatched|].
  split; [exact configure_no_match|].
  split.
  - intros pattern attr_names after parts m Hyes Hk Hw.
    assert (configure_weight_injection ((pattern, attr_names) :: after) parts m
              = (configure_weight_injection after parts
                   (with_parameters m (delete "weight" (_parameters m))))) as E.
    { cbn [configure_weight_injection]. rewrite Hyes.
      destruct (kind m); [| |done]; rewrite (detach_weight_parameter m Hw); reflexivity. }
    rewrite E. split; intros H.
    + apply configure_no_match, H.
    + apply configure_second_match_raises; [exact Hk|apply detach_weight_twice, Hw|exact H].
  - intros pattern attr_names parts m m' Hyes Hk H.
    cbn [configure_weight_injection] in H. rewrite Hyes, Hk in H.
    cbv [mbind outcome_bind] in H.
    destruct (setattr m "weight_injection_modules" (VModules [])) as [m1|] eqn:E1;
      [|discriminate].
    apply setattr_plain_value in E1; [|done|done]. subst m1.
    destruct (collect_targets attr_names parts _) as [[m2 parts2]|] eqn:E2; [|discriminate].
    injection H as <-.
    apply getattr_attr.
    apply (collect_targets_records _ _ _ [] _ _ (lookup_insert_eq _ _ _) E2).
Qed.

(** ** The decode hook on a module that kept its weight *)

Lemma register_buffer_inv m name t m' :
  register_buffer m name t = Ok m' -> m' = with_buffers m (<[name := t]> (_buffers m)).
Proof.
  unfold register_buffer. destruct (String.eqb name ""); [discriminate|].
  destruct (_ && _); [discriminate|]. intros [= <-]. reflexivity.
Qed.

Lemma setattr_hooks m name v m' :
  setattr m name v = Ok m' -> _forward_pre_hooks m' = _forward_pre_hooks m.
Proof.
  unfold setattr. intros H.
  repeat case_decide; destruct v; try discriminate; injection H as <-; reflexivity.
Qed.

Lemma delattr_hooks m name m' :
  delattr m name = Ok m' -> _forward_pre_hooks m' = _forward_pre_hooks m.
Proof.
  unfold delattr. intros H.
  repeat case_decide; try discriminate; injection H as <-; reflexivity.
Qed.

Lemma detach_weight_hooks m m' :
  detach_weight m = Ok m' -> _forward_pre_hooks m' = _forward_pre_hooks m.
Proof.
  unfold detach_weight. cbv [mbind outcome_bind].
  destruct (getattr m "weight"); [|discriminate]. apply delattr_hooks.
Qed.

Lemma update_target_hooks path f :
  (forall m m', f m = Ok m' -> _forward_pre_hooks m' = _forward_pre_hooks m) ->
  forall m m', update_target path f m = Ok m' ->
    _forward_pre_hooks m' = _forward_pre_hooks m.
Proof.
  intros Hf. destruct path as [|p rest]; cbn [update_target]; intros m m' H.
  - eapply Hf; eassumption.
  - cbv [mbind outcome_bind] in H.
    destruct (getattr m p) as [[|c]|]; try discriminate.
    destruct (update_target rest f c); [|discriminate].
    injection H as <-. reflexivity.
Qed.

Lemma collect_targets_hooks names : forall parts m m' parts',
  collect_targets names parts m = Ok (m', parts') ->
  _forward_pre_hooks m' = _forward_pre_hooks m.
Proof.
  induction names as [|attr_path names IH]; intros parts m m' parts' H.
  - injection H as <- _. reflexivity.
  - cbn [collect_targets] in H. cbv [mbind outcome_bind] in H.
    destruct (update_target (split_on "." attr_path) detach_weight m) as [m1|] eqn:E1;
      [|discriminate].
    destruct (getattr m1 "weight_injection_modules") as [[[]|]|]; try discriminate.
    destruct (setattr m1 "weight_injection_modules" _) as [m2|] eqn:E2; [|discriminate].
    rewrite (IH _ _ _ _ H), (setattr_hooks _ _ _ _ E2).
    exact (update_target_hooks _ _ detach_weight_hooks _ _ E1).
Qed.

Lemma configure_hooks pattern_dict : forall parts m m',
  configure_weight_injection pattern_dict parts m = Ok m' ->
  _forward_pre_hooks m' = _forward_pre_hooks m.
Proof.
  induction pattern_dict as [|[pattern names] pattern_dict IH]; intros parts m m' H.
  - injection H as <-. reflexivity.
  - cbn [configure_weight_injection] in H.
    destruct (fullmatch pattern _); [|exact (IH _ _ _ H)].
    cbv [mbind outcome_bind] in H.
    destruct (kind m).
    1,2: destruct (detach_weight m) as [m1|] eqn:E1; [|discriminate];
         rewrite (IH _ _ _ H); exact (detach_weight_hooks _ _ E1).
    destruct (setattr m "weight_injection_modules" _) as [m1|] eqn:E1; [|discriminate].
    destruct (collect_targets names parts m1) as [[m2 parts2]|] eqn:E2; [|discriminate].
    rewrite (IH _ _ _ H), (collect_targets_hooks _ _ _ _ _ E2).
    exact (setattr_hooks _ _ _ _ E1).
Qed.

Lemma attach_encoded_exponent cfg parts t m :
  last_part parts = "encoded_exponent" ->
  attach cfg parts t m =
    (m1 ← register_buffer m "encoded_exponent" t;
     configure_weight_injection (cfg_pattern_dict cfg) parts
       (register_forward_pre_hook m1
          (get_hook (cfg_threads_per_block cfg) (cfg_bytes_per_thread cfg)))).
Proof. intros Hlast. unfold attach. rewrite Hlast. reflexivity. Qed.

Lemma setattr_weight_refused m w :
  is_Some (_parameters m !! "weight") ->
  setattr m "weight" (VTensor w) = Raise TypeError.
Proof. intros H. unfold setattr. case_decide; [reflexivity|done]. Qed.

Lemma install_weights_refused rec m :
  kind m <> KOther ->
  is_Some (_parameters m !! "weight") ->
  is_ok (install_weights rec m) = false.
Proof.
  intros Hk Hw. unfold install_weights, assign_weight. cbv [mbind outcome_bind].
  destruct (kind m); [| |done].
  all: repeat match goal with
       | |- context [match ?o with Ok _ => _ | Raise _ => _ end] =>
           destruct o; [|reflexivity]
       end.
  all: rewrite setattr_weight_refused by exact Hw; reflexivity.
Qed.

Lemma decode_hook_refused tpb bpt m rt :
  kind m <> KOther ->
  is_Some (_parameters m !! "weight") ->
  is_ok (decode_hook tpb bpt m rt).1 = false.
Proof.
  intros Hk Hw.
  destruct (decode_hook tpb bpt m rt) as [[m'|e] rt'] eqn:E; [|reflexivity].
  apply decode_hook_inv in E
    as (? & ? & ? & ? & rec & ? & ? & ? & ? & _ & _ & _ & _ & _ & _ & _ & _ & _ & Hinst).
  pose proof (install_weights_refused rec m Hk Hw) as Hno.
  rewrite Hinst in Hno. discriminate.
Qed.

(** C9 (amended). When the encoded-exponent leaf is attached the decode
    hook is registered whatever the patterns are: if the attachment returns,
    the hook is the last of the module's forward pre-hooks.  When no pattern
    matches the module's path, its parameters stay as they were, so a Linear
    or Embedding module keeps its registered weight.  On a forward pass of
    such a module the hook does not replace the weight: a module refuses the
    assignment of a plain tensor to a name registered as a parameter
    ([TypeError]), so the hook, and the forward pass with it, raises. *)
Theorem hook_registered_but_weight_not_replaced :
  (forall cfg parts t m m',
     last_part parts = "encoded_exponent" ->
     attach cfg parts t m = Ok m' ->
     _forward_pre_hooks m'
     = _forward_pre_hooks m
       ++ [get_hook (cfg_threads_per_block cfg) (cfg_bytes_per_thread cfg)]) /\
  (forall cfg parts t m m',
     last_part parts = "encoded_exponent" ->
     Forall (fun entry => fullmatch (fst entry) (dotted (all_but_last parts)) = false)
       (cfg_pattern_dict cfg) ->
     attach cfg parts t m = Ok m' ->
     _parameters m' = _parameters m /\ kind m' = kind m) /\
  (forall tpb bpt m rt,
     kind m <> KOther ->
     is_Some (_parameters m !! "weight") ->
     is_ok (decode_hook tpb bpt m rt).1 = false /\
     (forall rec rows cols w,
        int_attr m (if kind m is KLinear then "out_features" else "num_embeddings") = Ok rows ->
        int_attr m (if kind m is KLinear then "in_features" else "embedding_dim") = Ok cols ->
        tensor_view rec [rows; cols] = Ok w ->
        install_weights rec m = Raise TypeError) /\
     (forall hooks,
        _forward_pre_hooks m = DecodeHook tpb bpt :: hooks ->
        is_ok (forward_pre m rt).1 = false)).
Proof.
  split; [|split].
  - intros cfg parts t m m' Hlast H.
    rewrite (attach_encoded_exponent _ _ _ _ Hlast) in H. cbv [mbind outcome_bind] in H.
    destruct (register_buffer m "encoded_exponent" t) as [m1|] eqn:E1; [|discriminate].
    apply register_buffer_inv in E1. subst m1.
    rewrite (configure_hooks _ _ _ _ H). reflexivity.
  - intros cfg parts t m m' Hlast Hno H.
    rewrite (attach_encoded_exponent _ _ _ _ Hlast) in H. cbv [mbind outcome_bind] in H.
    destruct (register_buffer m "encoded_exponent" t) as [m1|] eqn:E1; [|discriminate].
    apply register_buffer_inv in E1. subst m1.
    rewrite (configure_no_match _ _ _ Hno) in H. injection H as <-. split; reflexivity.
  - intros tpb bpt m rt Hk Hw. split; [apply decode_hook_refused; assumption|]. split.
    + intros rec rows cols w Hr Hc Hv. unfold install_weights, assign_weight.
      destruct (kind m); [| |done]; cbv [mbind outcome_bind];
        rewrite Hr, Hc, Hv; apply setattr_weight_refused, Hw.
    + intros hooks Hh. unfold forward_pre. rewrite Hh.
      cbn [run_forward_pre_hooks run_hook]. rewrite run_bind.
      pose proof (decode_hook_refused tpb bpt m rt Hk Hw) as Hno.
      destruct (decode_hook tpb bpt m rt) as [[m'|e] rt']; [discriminate|reflexivity].
Qed.

(** ** Classes that must not be split *)

Lemma note_class_spec acc entry pattern c :
  c ∈ note_class acc entry pattern <->
  c ∈ acc \/ (fullmatch pattern (fst entry) = true /\ class_name (snd entry) = c).
Proof.
  forget_collaborators.
  unfold note_class. destruct (fullmatch pattern (fst entry)) eqn:Hm.
  - case_bool_decide as Hin.
    + split; [tauto|]. intros [?|[_ <-]]; assumption.
    + rewrite elem_of_app, list_elem_of_singleton. split; intros [?|?]; try tauto.
      * right. split; congruence.
      * right. symmetry. tauto.
  - split; [tauto|]. intros [?|[? _]]; [assumption|discriminate].
Qed.


Lemma scan_modules_spec entries pattern : forall acc c,
  c ∈ fold_left (fun acc entry => note_class acc entry pattern) entries acc <->
  c ∈ acc \/ exists entry, entry ∈ entries /\
    fullmatch pattern (fst entry) = true /\ class_name (snd entry) = c.
Proof.
  forget_collaborators.
  induction entries as [|entry entries IH]; intros acc c; cbn [fold_left].
  - split; [tauto|]. intros [?|(? & H & _)]; [assumption|]. inversion H.
  - rewrite IH, note_class_spec. split.
    + intros [[?|?]|(e & ? & ?)]; [tauto| |].
      * right. exists entry. split; [left|assumption].
      * right. exists e. split; [right; assumption|assumption].
    + intros [?|(e & He & ?)]; [tauto|].
      apply elem_of_cons in He as [->|He]; [tauto|]. right. eauto.
Qed.


Lemma scan_patterns_spec model patterns : forall acc c,
  c ∈ fold_left
        (fun acc pattern =>
           fold_left (fun acc entry => note_class acc entry pattern)
             (named_modules "" model) acc)
        patterns acc <->
  c ∈ acc \/ exists pattern, pattern ∈ patterns /\ matched_class model pattern c.
Proof.
  forget_collaborators.
  induction patterns as [|pattern patterns IH]; intros acc c; cbn [fold_left].
  - split; [tauto|]. intros [?|(? & H & _)]; [assumption|]. inversion H.
  - rewrite IH, scan_modules_spec. unfold matched_class. split.
    + intros [[?|([name m] & ? & ? & ?)]|(p & ? & ?)]; [tauto| |].
      * right. exists pattern. split; [left|]. exists name, m. auto.
      * right. exists p. split; [right; assumption|assumption].
    + intros [?|(p & Hp & Hm)]; [tauto|].
      apply elem_of_cons in Hp as [->|Hp]; [|right; eauto].
      destruct Hm as (name & m & ? & ? & ?). left. right. exists (name, m). auto.
Qed.



(** ** The loader *)

Lemma no_placement_ret {A : Type} (a : A) : no_placement (mret a : M A).
Proof. intros rt. exists []. cbn. rewrite app_nil_r. auto. Qed.

Lemma no_placement_lift {A : Type} (o : outcome A) : no_placement (lift o).
Proof. intros rt. exists []. cbn. rewrite app_nil_r. auto. Qed.

Lemma no_placement_report e : is_placement e = false -> no_placement (report e).
Proof. intros He rt. exists [e]. cbn. auto. Qed.

Lemma no_placement_bind {A B : Type} (m : M A) (k : A -> M B) :
  no_placement m -> (forall a, no_placement (k a)) -> no_placement (m ≫= k).
Proof.
  intros Hm Hk rt. rewrite run_bind.
  destruct (Hm rt) as (extra1 & E1 & F1).
  destruct (m rt) as [[a|e] rt1]; cbn [snd] in E1.
  - destruct (Hk a rt1) as (extra2 & E2 & F2).
    exists (extra1 ++ extra2). rewrite E2, E1, app_assoc. split; [reflexivity|].
    apply Forall_app; auto.
  - exists extra1. auto.
Qed.

Lemma no_placement_for_each {S A : Type} (body : S -> A -> M S) (items : list A) :
  (forall s x, no_placement (body s x)) -> forall s, no_placement (for_each body items s).
Proof.
  intros Hb. induction items as [|x items IH]; intros s; cbn [for_each].
  - apply no_placement_ret.
  - apply no_placement_bind; [apply Hb|exact IH].
Qed.

Lemma no_placement_load_tensor cfg model entry : no_placement (load_tensor cfg model entry).
Proof.
  destruct entry as [name value]. unfold load_tensor.
  destruct (state_dict_entry model (split_on "." name)) as [[[] dest]|].
  1,2: case_decide;
       [apply no_placement_bind; [apply no_placement_lift|intros; apply no_placement_ret]
       |apply no_placement_bind;
         [apply no_placement_report; reflexivity|intros; apply no_placement_ret]].
  apply no_placement_bind; [apply no_placement_lift|].
  intros [m|]; [apply no_placement_ret|].
  apply no_placement_bind; [apply no_placement_report; reflexivity|].
  intros; apply no_placement_ret.
Qed.

Lemma no_placement_load model directory_path cfg :
  no_placement (load_and_replace_tensors model directory_path cfg).
Proof.
  unfold load_and_replace_tensors.
  apply no_placement_bind; [apply no_placement_lift|]. intros names.
  apply no_placement_for_each. intros m file_name.
  apply no_placement_bind; [apply no_placement_lift|]. intros loaded.
  apply no_placement_for_each. intros; apply no_placement_load_tensor.
Qed.

Lemma no_placement_prepare name bfloat16_model kwargs :
  no_placement (prepare_model name bfloat16_model kwargs).
Proof.
  unfold prepare_model.
  apply no_placement_bind.
  { destruct (os_path_exists name); [apply no_placement_ret|].
    apply no_placement_bind; [|intros; apply no_placement_ret].
    destruct (os_path_exists (replace_slashes name)); [apply no_placement_ret|].
    apply no_placement_bind; [apply no_placement_report; reflexivity|].
    intros; apply no_placement_lift. }
  intros path. apply no_placement_bind; [apply no_placement_lift|]. intros config.
  apply no_placement_bind.
  { destruct bfloat16_model; [apply no_placement_ret|].
    apply no_placement_bind; [apply no_placement_lift|intros; apply no_placement_ret]. }
  intros model. apply no_placement_bind.
  { destruct (config_dfloat11 config); [apply no_placement_ret|apply no_placement_lift]. }
  intros cfg. apply no_placement_bind; [apply no_placement_load|]. intros model'.
  apply no_placement_bind.
  { apply no_placement_for_each. intros bytes param.
    destruct (counted_bytes (t_dtype param)); [apply no_placement_ret|].
    apply no_placement_bind; [apply no_placement_report; reflexivity|].
    intros; apply no_placement_ret. }
  intros bytes. apply no_placement_bind; [apply no_placement_report; reflexivity|].
  intros; apply no_placement_ret.
Qed.

Lemma place_model_asserts model cfg device device_map max_memory rt :
  truthy device = false -> device_map <> "auto" ->
  place_model model cfg device device_map max_memory rt = (Raise AssertionError, rt).
Proof.
  intros Hd Hm. unfold place_model. rewrite Hd. rewrite run_bind.
  case_decide; [done|]. reflexivity.
Qed.

(** C10. Called without an explicit device and with a [device_map] other
    than ['auto'], [from_pretrained] raises [AssertionError] as soon as the
    model is prepared: the process state is the one the preparation left,
    which holds no call to a placement collaborator.  The check belongs to
    this path only: with an explicit device the model is moved there
    whatever [device_map] is. *)
Theorem auto_device_map_required_without_device
    (name : string) (device : option string) (device_map : string)
    (max_memory : option memory_map) (bfloat16_model : option nn_module)
    (kwargs : model_kwargs) (rt : runtime) :
  truthy device = false ->
  device_map <> "auto" ->
  (forall model cfg rt1,
     place_model model cfg device device_map max_memory rt1 = (Raise AssertionError, rt1)) /\
  from_pretrained name device device_map max_memory bfloat16_model kwargs rt
    = match prepare_model name bfloat16_model kwargs rt with
      | (Ok _, rt1) => (Raise AssertionError, rt1)
      | (Raise e, rt1) => (Raise e, rt1)
      end /\
  (exists extra,
     trace (from_pretrained name device device_map max_memory bfloat16_model kwargs rt).2
       = trace rt ++ extra /\
     Forall (fun e => is_placement e = false) extra) /\
  (forall s other_map model cfg rt1,
     s <> "" ->
     place_model model cfg (Some s) other_map max_memory rt1
     = (model_to model s, emit (ModelTo s) rt1)).
Proof.
  intros Hd Hm.
  assert (from_pretrained name device device_map max_memory bfloat16_model kwargs rt
    = match prepare_model name bfloat16_model kwargs rt with
      | (Ok _, rt1) => (Raise AssertionError, rt1)
      | (Raise e, rt1) => (Raise e, rt1)
      end) as E.
  { unfold from_pretrained. rewrite run_bind.
    destruct (prepare_model name bfloat16_model kwargs rt) as [[[model cfg]|e] rt1];
      [|reflexivity].
    rewrite run_bind, place_model_asserts by assumption. reflexivity. }
  split; [intros; apply place_model_asserts; assumption|].
  split; [exact E|]. split.
  - rewrite E. destruct (no_placement_prepare name bfloat16_model kwargs rt) as (extra & Ht & Hf).
    exists extra. split; [|exact Hf].
    destruct (prepare_model name bfloat16_model kwargs rt) as [[?|?] rt1]; exact Ht.
  - intros s other_map model cfg rt1 Hs. unfold place_model, truthy.
    destruct (String.eqb_spec s ""); [done|]. cbn [negb default from_option].
    rewrite run_bind. reflexivity.
Qed.

(** ** More on the buffer pool *)

Lemma tensor_prefix_whole dt cap d id n :
  0 <= n <= cap ->
  tensor_prefix (Tensor dt [cap] d (Pooled id 0)) n = Tensor dt [n] d (Pooled id 0).
Proof.
  intros Hn. unfold tensor_prefix, slice_upto. rewrite numel_1d.
  destruct (Z.leb_spec 0 n); [|lia]. rewrite Z.min_l by lia. reflexivity.
Qed.

(** How a request is served from a reachable state: by the device's buffer
    when it is large enough, by a fresh allocation otherwise. *)
Lemma get_tensor_served rt device d n :
  reachable rt ->
  resolve_device device = Ok d ->
  0 <= n ->
  exists id rt',
    get_tensor device n rt = (Ok (Tensor bfloat16 [n] d (Pooled id 0)), rt') /\
    reachable rt' /\
    _tensors rt' !! d = Some (Tensor bfloat16 [Z.max n (capacity rt d)] d (Pooled id 0)) /\
    (forall d', d' <> d -> _tensors rt' !! d' = _tensors rt !! d') /\
    (is_Some (_tensors rt !! d) -> n <= capacity rt d -> rt' = rt) /\
    (~ (is_Some (_tensors rt !! d) /\ n <= capacity rt d) ->
     id = next_alloc rt /\ next_alloc rt' = S (next_alloc rt) /\
     trace rt' = trace rt ++ (if _tensors rt !! d is Some _ then [EmptyCache] else [])
                          ++ [PrintAllocated n d]).
Proof.
  intros Hreach Hd Hn.
  pose proof (reachable_pool_ok rt Hreach) as Hok.
  pose proof (reach_get_tensor rt device n Hreach) as Hreach'.
  unfold capacity.
  destruct (_tensors rt !! d) as [existing|] eqn:He.
  - destruct (Hok d existing He) as (cap & id & -> & Hcap & Hid).
    rewrite numel_1d.
    destruct (Z_le_gt_dec n cap) as [Hle|Hgt].
    + pose proof (get_tensor_hit device d n rt _ Hd He) as E.
      rewrite numel_1d, tensor_prefix_whole in E by lia. specialize (E Hle).
      rewrite E in Hreach'. exists id, rt. rewrite Z.max_r by lia.
      split; [exact E|]. split; [exact Hreach'|]. split; [exact He|].
      split; [reflexivity|]. split; [reflexivity|].
      intros Hno. exfalso. apply Hno. split; [eauto|exact Hle].
    + pose proof (get_tensor_allocate device d n rt Hd Hn) as E.
      rewrite He in E.
      specialize (E ltac:(intros ? [= <-]; rewrite numel_1d; lia)).
      rewrite E in Hreach'.
      eexists (next_alloc rt), _. rewrite Z.max_l by lia.
      split; [exact E|]. cbn [snd _tensors next_alloc trace] in *.
      split; [exact Hreach'|]. split; [apply lookup_insert_eq|].
      split; [intros d' Hne; rewrite lookup_insert_ne; done|].
      split; [intros _ ?; lia|]. intros _. repeat split.
  - pose proof (get_tensor_allocate device d n rt Hd Hn) as E.
    rewrite He in E. specialize (E ltac:(intros ? [=])).
    rewrite E in Hreach'.
    eexists (next_alloc rt), _. rewrite Z.max_l by lia.
    split; [exact E|]. cbn [snd _tensors next_alloc trace] in *.
    split; [exact Hreach'|]. split; [apply lookup_insert_eq|].
    split; [intros d' Hne; rewrite lookup_insert_ne; done|].
    split; [intros [? [=]]|]. intros _. repeat split.
Qed.

(** X1. After a request for [n >= 0] elements the device's buffer holds the
    larger of [n] and what it held before: the pool never shrinks a buffer. *)
Theorem pool_capacity_is_running_maximum
    (rt : runtime) (device : device_arg) (d : torch_device) (n : Z) :
  reachable rt ->
  resolve_device device = Ok d ->
  0 <= n ->
  capacity (get_tensor device n rt).2 d = Z.max n (capacity rt d) /\
  (forall d', d' <> d -> capacity (get_tensor device n rt).2 d' = capacity rt d').
Proof.
  intros Hreach Hd Hn.
  destruct (get_tensor_served rt device d n Hreach Hd Hn)
    as (id & rt' & Hrun & _ & Hentry & Hother & _).
  rewrite Hrun. cbn [snd]. split.
  - unfold capacity at 1. rewrite Hentry. apply numel_1d.
  - intros d' Hne. unfold capacity. rewrite (Hother d' Hne). reflexivity.
Qed.

Lemma clear_device_run target d rt :
  match target with Some device => resolve_device device = Ok d | None => True end ->
  exists rt1,
    clear_device target rt = (Ok tt, rt1) /\
    _tensors rt1 !! d = None /\ next_alloc rt1 = next_alloc rt /\
    trace rt1 = trace rt ++ [EmptyCache].
Proof.
  intros Ht. unfold clear_device. rewrite run_bind. destruct target as [device|].
  - rewrite run_lift_bind, Ht, run_bind. unfold pool_lookup at 1.
    destruct (_tensors rt !! d) eqn:He; run; eexists; (split; [reflexivity|]);
      cbn [_tensors next_alloc trace]; (split; [|split; reflexivity]).
    + apply lookup_delete_eq.
    + exact He.
  - run. eexists. split; [reflexivity|]. cbn [_tensors next_alloc trace].
    split; [apply lookup_empty|split; reflexivity].
Qed.

(** X2. After [clear_device], for that device or for all, the next request
    on the device is served by a new allocation, whatever its size: no view
    handed out before the clearing shares storage with it. *)
Theorem request_after_clear_is_fresh
    (rt : runtime) (target : option device_arg) (device : device_arg)
    (d : torch_device) (n : Z) :
  reachable rt ->
  resolve_device device = Ok d ->
  match target with Some cleared => resolve_device cleared = Ok d | None => True end ->
  0 <= n ->
  exists v rt2,
    get_tensor device n (clear_device target rt).2 = (Ok v, rt2) /\
    t_shape v = [n] /\
    allocation v = Some (next_alloc rt) /\
    _tensors rt2 !! d = Some v /\
    (forall d' t, _tensors rt !! d' = Some t -> allocation t <> allocation v).
Proof.
  intros Hreach Hd Ht Hn.
  destruct (clear_device_run target d rt Ht) as (rt1 & Hclear & Hnone & Hnext & _).
  pose proof (reach_clear_device rt target Hreach) as Hreach1.
  rewrite Hclear in Hreach1 |- *. cbn [snd] in Hreach1 |- *.
  destruct (get_tensor_served rt1 device d n Hreach1 Hd Hn)
    as (id & rt2 & Hrun & _ & Hentry & _ & _ & Hmiss).
  destruct Hmiss as (-> & _); [rewrite Hnone; intros [[? [=]] _]|].
  unfold capacity in Hentry. rewrite Hnone, Z.max_l in Hentry by lia.
  eexists _, rt2. split; [exact Hrun|]. rewrite Hnext in *.
  cbn [t_shape allocation t_storage]. repeat split; try assumption.
  intros d' t Hin E.
  destruct (reachable_pool_ok rt Hreach d' t Hin) as (cap & id & -> & _ & Hid).
  cbn in E. injection E as E. lia.
Qed.

(** ** Dotted names *)

Lemma split_on_nonempty sep s : split_on sep s <> [].
Proof.
  destruct s as [|c rest]; cbn [split_on]; [discriminate|].
  destruct (Ascii.eqb c sep); [discriminate|].
  destruct (split_on sep rest); discriminate.
Qed.

Lemma dotted_cons x y l : dotted (x :: y :: l) = (x ++ "." ++ dotted (y :: l))%string.
Proof. reflexivity. Qed.

Lemma dotted_split s : dotted (split_on "." s) = s.
Proof.
  induction s as [|c rest IH]; [reflexivity|]. cbn [split_on].
  destruct (Ascii.eqb_spec c ".") as [->|Hc].
  - pose proof (split_on_nonempty "." rest) as Hne.
    destruct (split_on "." rest) as [|x xs]; [done|].
    rewrite dotted_cons, IH. reflexivity.
  - pose proof (split_on_nonempty "." rest) as Hne.
    destruct (split_on "." rest) as [|x xs]; [done|].
    destruct xs as [|y ys].
    + cbn in IH |- *. rewrite IH. reflexivity.
    + rewrite dotted_cons in IH. rewrite dotted_cons.
      change (String c x ++ "." ++ dotted (y :: ys))%string
        with (String c (x ++ "." ++ dotted (y :: ys))%string).
      rewrite IH. reflexivity.
Qed.

Lemma split_on_component x :
  dot_free x = true -> split_on "." x = [x].
Proof.
  induction x as [|c x IH]; [reflexivity|]. cbn [dot_free split_on].
  intros H. apply andb_true_iff in H as [Hc Hx].
  destruct (Ascii.eqb c "."); [discriminate|]. rewrite (IH Hx). reflexivity.
Qed.

Lemma split_on_append x rest :
  dot_free x = true ->
  split_on "." (x ++ "." ++ rest)%string = x :: split_on "." rest.
Proof.
  induction x as [|c x IH]; [reflexivity|]. cbn [dot_free]. intros H.
  apply andb_true_iff in H as [Hc Hx].
  change (String c x ++ "." ++ rest)%string with (String c (x ++ "." ++ rest)%string).
  cbn [split_on]. destruct (Ascii.eqb c "."); [discriminate|].
  rewrite (IH Hx). reflexivity.
Qed.

Lemma split_on_dotted parts :
  parts <> [] ->
  Forall (fun part => dot_free part = true) parts ->
  split_on "." (dotted parts) = parts.
Proof.
  induction parts as [|x parts IH]; [done|]. intros _ Hall.
  apply Forall_cons in Hall as [Hx Hall].
  destruct parts as [|y parts]; [exact (split_on_component x Hx)|].
  rewrite dotted_cons, split_on_append by exact Hx.
  rewrite IH; [reflexivity|discriminate|exact Hall].
Qed.

Lemma all_but_last_snoc (path : list string) leaf : all_but_last (path ++ [leaf]) = path.
Proof. apply removelast_last. Qed.

Lemma last_part_snoc (path : list string) leaf : last_part (path ++ [leaf]) = leaf.
Proof. apply last_last. Qed.

(** X3. Splitting a tensor name at its dots and joining the parts again
    gives the name back; and a name built from dot-free components splits
    into exactly these components.  So for the name [path.leaf] the leaf the
    rewrite dispatches on is [leaf], the modules it walks are [path], and the
    string it matches the patterns against is the dotted [path]. *)
Theorem tensor_name_splits_into_path_and_leaf :
  (forall name, dotted (split_on "." name) = name) /\
  (forall path leaf,
     Forall (fun part => dot_free part = true) (path ++ [leaf]) ->
     split_on "." (dotted (path ++ [leaf])) = path ++ [leaf] /\
     last_part (split_on "." (dotted (path ++ [leaf]))) = leaf /\
     all_but_last (split_on "." (dotted (path ++ [leaf]))) = path /\
     dotted (all_but_last (split_on "." (dotted (path ++ [leaf])))) = dotted path).
Proof.
  split; [exact dotted_split|].
  intros path leaf Hall.
  assert (split_on "." (dotted (path ++ [leaf])) = path ++ [leaf]) as E.
  { apply split_on_dotted; [|exact Hall]. destruct path; discriminate. }
  rewrite E, last_part_snoc, all_but_last_snoc. repeat split.
Qed.

(** ** More on loading one tensor *)

Lemma assoc_set_lookup {A : Type} (k : string) (v : A) (l : list (string * A)) :
  assoc k (assoc_set k v l) = Some v.
Proof.
  induction l as [|[k' v'] l IH]; cbn [assoc_set assoc].
  - rewrite String.eqb_refl. reflexivity.
  - destruct (String.eqb k k') eqn:E; cbn [assoc]; rewrite ?String.eqb_refl, ?E; auto.
Qed.

Lemma update_submodule_lookup path f m owner :
  submodule path m = Some owner ->
  submodule path (update_submodule path f m) = Some (f owner).
Proof.
  revert m. induction path as [|name rest IH]; intros m; cbn [submodule update_submodule].
  - intros [= ->]. reflexivity.
  - destruct (assoc name (_modules m)) as [c|] eqn:E; [|discriminate].
    intros H. cbn [submodule _modules with_modules].
    rewrite assoc_set_lookup. exact (IH c H).
Qed.

Lemma resolve_path_submodule path m owner :
  resolve_path path m = Some owner -> submodule path m = Some owner.
Proof.
  revert m. induction path as [|part rest IH]; intros m; cbn [resolve_path submodule];
    [trivial|].
  destruct (getattr m part) as [[v|child]|e] eqn:E; try discriminate.
  rewrite (getattr_module_assoc _ _ _ E). apply IH.
Qed.

Lemma navigate_resolved path f m owner :
  resolve_path path m = Some owner ->
  navigate path f m
  = (owner' ← f owner; Ok (Some (update_submodule path (fun _ => owner') m))).
Proof.
  revert m. induction path as [|part rest IH]; intros m; cbn [resolve_path navigate].
  - intros [= ->]. reflexivity.
  - unfold hasattr.
    destruct (getattr m part) as [[v|child]|e] eqn:E; try discriminate.
    intros H. cbn [is_ok]. cbv [mbind outcome_bind]. rewrite (IH child H).
    cbv [mbind outcome_bind]. destruct (f owner) as [owner'|]; [|reflexivity].
    cbn [update_submodule]. rewrite (getattr_module_assoc _ _ _ E). reflexivity.
Qed.


Lemma same_registered_refl k m : same_registered k m m.
Proof. split; reflexivity. Qed.

Lemma same_registered_trans k m1 m2 m3 :
  same_registered k m1 m2 -> same_registered k m2 m3 -> same_registered k m1 m3.
Proof. intros [? ?] [? ?]. split; congruence. Qed.

Lemma delattr_same_registered m name m' k :
  delattr m name = Ok m' -> k <> name -> same_registered k m m'.
Proof.
  unfold delattr, same_registered. intros H Hk.
  repeat case_decide; try discriminate; injection H as <-;
    cbn [_parameters _buffers with_attrs with_parameters with_buffers with_modules];
    rewrite ?lookup_delete_ne by done; split; reflexivity.
Qed.

Lemma detach_weight_same_registered m m' k :
  detach_weight m = Ok m' -> k <> "weight" -> same_registered k m m'.
Proof.
  unfold detach_weight. cbv [mbind outcome_bind].
  destruct (getattr m "weight"); [|discriminate].
  intros H Hk. eapply delattr_same_registered; eassumption.
Qed.

Lemma update_target_same_registered path f k :
  (forall m m', f m = Ok m' -> same_registered k m m') ->
  forall m m', update_target path f m = Ok m' -> same_registered k m m'.
Proof.
  intros Hf. destruct path as [|p rest]; cbn [update_target]; intros m m' H.
  - eapply Hf; eassumption.
  - cbv [mbind outcome_bind] in H.
    destruct (getattr m p) as [[|c]|]; try discriminate.
    destruct (update_target rest f c); [|discriminate].
    injection H as <-. split; reflexivity.
Qed.

Lemma collect_targets_same_registered names k : forall parts m m' parts',
  k <> "weight" ->
  collect_targets names parts m = Ok (m', parts') -> same_registered k m m'.
Proof.
  induction names as [|attr_path names IH]; intros parts m m' parts' Hk H.
  - injection H as <- _. apply same_registered_refl.
  - cbn [collect_targets] in H. cbv [mbind outcome_bind] in H.
    destruct (update_target (split_on "." attr_path) detach_weight m) as [m1|] eqn:E1;
      [|discriminate].
    destruct (getattr m1 "weight_injection_modules") as [[[]|]|]; try discriminate.
    destruct (setattr m1 "weight_injection_modules" _) as [m2|] eqn:E2; [|discriminate].
    apply setattr_plain_value in E2; [|done|done]. subst m2.
    eapply same_registered_trans; [|exact (IH _ _ _ _ Hk H)].
    eapply (same_registered_trans _ _ m1); [|split; reflexivity].
    eapply update_target_same_registered; [|exact E1].
    intros ? ? Hd. eapply detach_weight_same_registered; eassumption.
Qed.

Lemma configure_same_registered pattern_dict k : forall parts m m',
  k <> "weight" ->
  configure_weight_injection pattern_dict parts m = Ok m' -> same_registered k m m'.
Proof.
  induction pattern_dict as [|[pattern names] pattern_dict IH]; intros parts m m' Hk H.
  - injection H as <-. apply same_registered_refl.
  - cbn [configure_weight_injection] in H.
    destruct (fullmatch pattern _); [|exact (IH _ _ _ Hk H)].
    cbv [mbind outcome_bind] in H.
    destruct (kind m).
    1,2: destruct (detach_weight m) as [m1|] eqn:E1; [|discriminate];
         (eapply same_registered_trans; [|exact (IH _ _ _ Hk H)]);
         eapply detach_weight_same_registered; eassumption.
    destruct (setattr m "weight_injection_modules" _) as [m1|] eqn:E1; [|discriminate].
    apply setattr_plain_value in E1; [|done|done]. subst m1.
    destruct (collect_targets names parts _) as [[m2 parts2]|] eqn:E2; [|discriminate].
    eapply same_registered_trans; [|exact (IH _ _ _ Hk H)].
    eapply same_registered_trans; [|exact (collect_targets_same_registered _ _ _ _ _ _ Hk E2)].
    split; reflexivity.
Qed.

(** What a returning attachment leaves registered under the leaf name. *)
Lemma attach_registers cfg parts t m m' :
  last_part parts <> "split_positions" ->
  attach cfg parts t m = Ok m' ->
  _buffers m' !! last_part parts = Some t /\
  _parameters m' !! last_part parts = _parameters m !! last_part parts.
Proof.
  intros Hsp H. unfold attach in H.
  destruct (String.eqb_spec (last_part parts) "split_positions"); [done|].
  cbv [mbind outcome_bind] in H.
  destruct (register_buffer m (last_part parts) t) as [m1|] eqn:E1; [|discriminate].
  apply register_buffer_inv in E1. subst m1.
  destruct (String.eqb_spec (last_part parts) "encoded_exponent") as [Ee|_].
  - assert (last_part parts <> "weight") as Hw by (rewrite Ee; discriminate).
    destruct (configure_same_registered _ (last_part parts) _ _ _ Hw H) as [Hp Hb].
    rewrite Hp, Hb. cbn [_parameters _buffers with_buffers register_forward_pre_hook with_hooks].
    rewrite lookup_insert_eq. split; reflexivity.
  - destruct (String.eqb_spec (last_part parts) "output_positions") as [Eo|_].
    + destruct (tensor_attr _ "output_positions"); [|discriminate].
      destruct (shared_mem_size_of _ _); [|discriminate].
      apply setattr_plain_value in H; [|done|done]. subst m'.
      cbn [_parameters _buffers with_buffers with_attrs].
      rewrite lookup_insert_eq. split; reflexivity.
    + injection H as <-. cbn [_parameters _buffers with_buffers].
      rewrite lookup_insert_eq. split; reflexivity.
Qed.

Lemma load_tensor_attach_inv cfg model name value rt model' rt' owner :
  state_dict_entry model (split_on "." name) = None ->
  resolve_path (all_but_last (split_on "." name)) model = Some owner ->
  load_tensor cfg model (name, value) rt = (Ok model', rt') ->
  rt' = rt /\
  exists owner',
    attach cfg (split_on "." name) value owner = Ok owner' /\
    model' = update_submodule (all_but_last (split_on "." name)) (fun _ => owner') model.
Proof.
  intros Hnone Hres H. unfold load_tensor in H. rewrite Hnone in H.
  rewrite run_lift_bind, (navigate_resolved _ _ _ _ Hres) in H.
  cbv [mbind outcome_bind] in H.
  destruct (attach cfg (split_on "." name) value owner) as [owner'|]; [|discriminate].
  injection H as <- <-. split; [reflexivity|]. exists owner'. auto.
Qed.

(** X5. A compressed tensor attached as a buffer becomes an entry of the
    state dictionary under its name.  Loading a tensor of that name again
    therefore takes the copy path: it attaches nothing and registers no
    second decode hook, whatever the tensor is. *)
Theorem attached_buffer_is_loaded_once
    (cfg : dfloat11_config) (model : nn_module) (name : string) (value : tensor)
    (rt : runtime) (model' : nn_module) (rt' : runtime) (owner : nn_module) :
  last_part (split_on "." name) <> "split_positions" ->
  state_dict_entry model (split_on "." name) = None ->
  resolve_path (all_but_last (split_on "." name)) model = Some owner ->
  load_tensor cfg model (name, value) rt = (Ok model', rt') ->
  state_dict_entry model' (split_on "." name) = Some (IsBuffer, value) /\
  forall again model'' rt'',
    load_tensor cfg model' (name, again) rt' = (Ok model'', rt'') ->
    exists owner' owner'',
      submodule (all_but_last (split_on "." name)) model' = Some owner' /\
      submodule (all_but_last (split_on "." name)) model'' = Some owner'' /\
      _forward_pre_hooks owner'' = _forward_pre_hooks owner'.
Proof.
  intros Hsp Hnone Hres H.
  destruct (load_tensor_attach_inv _ _ _ _ _ _ _ _ Hnone Hres H)
    as (-> & owner' & Hatt & ->).
  pose proof (resolve_path_submodule _ _ _ Hres) as Hsub.
  pose proof (update_submodule_lookup _ (fun _ => owner') _ _ Hsub) as Hsub'.
  destruct (attach_registers _ _ _ _ _ Hsp Hatt) as [Hb Hp].
  assert (state_dict_entry
            (update_submodule (all_but_last (split_on "." name)) (fun _ => owner') model)
            (split_on "." name) = Some (IsBuffer, value)) as Hentry.
  { unfold state_dict_entry in Hnone |- *. rewrite Hsub in Hnone. rewrite Hsub'.
    cbn [mbind option_bind] in Hnone |- *. rewrite Hp, Hb.
    destruct (_parameters owner !! last_part (split_on "." name)) as [[p|]|];
      [discriminate|reflexivity|reflexivity]. }
  split; [exact Hentry|].
  intros again model'' rt'' H2. unfold load_tensor in H2. rewrite Hentry in H2.
  exists owner'. case_decide.
  - rewrite run_lift_bind in H2. destruct (copy_ value again) as [b|]; [|discriminate].
    injection H2 as <- _. eexists. split; [exact Hsub'|].
    split; [apply (update_submodule_lookup _ _ _ _ Hsub')|]. reflexivity.
  - injection H2 as <- _. eexists. split; [exact Hsub'|]. split; [exact Hsub'|reflexivity].
Qed.

(** X6. The split positions are kept as a plain list attribute of the
    module: they are not registered as a buffer, so the name does not become
    an entry of the state dictionary and the hooks are as before. *)
Theorem split_positions_stay_outside_state_dict
    (cfg : dfloat11_config) (model : nn_module) (name : string) (value : tensor)
    (rt : runtime) (model' : nn_module) (rt' : runtime) (owner : nn_module) :
  last_part (split_on "." name) = "split_positions" ->
  state_dict_entry model (split_on "." name) = None ->
  resolve_path (all_but_last (split_on "." name)) model = Some owner ->
  load_tensor cfg model (name, value) rt = (Ok model', rt') ->
  state_dict_entry model' (split_on "." name) = None /\
  exists owner' l,
    submodule (all_but_last (split_on "." name)) model' = Some owner' /\
    tolist value = Ok l /\
    getattr owner' "split_positions" = Ok (OValue l) /\
    _buffers owner' = _buffers owner /\
    _forward_pre_hooks owner' = _forward_pre_hooks owner.
Proof.
  intros Hlast Hnone Hres H.
  destruct (load_tensor_attach_inv _ _ _ _ _ _ _ _ Hnone Hres H)
    as (-> & owner' & Hatt & ->).
  pose proof (resolve_path_submodule _ _ _ Hres) as Hsub.
  pose proof (update_submodule_lookup _ (fun _ => owner') _ _ Hsub) as Hsub'.
  unfold attach in Hatt. rewrite Hlast in Hatt.
  change (String.eqb "split_positions" "split_positions") with true in Hatt.
  change (String.eqb "split_positions" "encoded_exponent") with false in Hatt.
  change (String.eqb "split_positions" "output_positions") with false in Hatt.
  cbv [mbind outcome_bind] in Hatt.
  destruct (tolist value) as [l|] eqn:El; [|discriminate].
  destruct (setattr owner "split_positions" l) as [m1|] eqn:E1; [|discriminate].
  injection Hatt as <-.
  assert ((forall t, l <> VTensor t) /\ l <> VNone) as [Hnt Hnn].
  { unfold tolist in El.
    destruct (t_storage value) as [[|x [|]]|], (t_shape value) as [|? [|]];
      try discriminate; injection El as <-; split; done. }
  apply setattr_plain_value in E1; [|exact Hnt|exact Hnn]. subst m1.
  split.
  - unfold state_dict_entry in Hnone |- *. rewrite Hsub in Hnone. rewrite Hsub'.
    exact Hnone.
  - exists (with_attrs owner (<["split_positions" := l]> (attrs owner))), l.
    split; [exact Hsub'|]. split; [reflexivity|].
    split; [apply getattr_attr, lookup_insert_eq|]. split; reflexivity.
Qed.

(** ** The decode hook on a rewritten layer *)

Lemma is_ok_inv {A : Type} (o : outcome A) : is_ok o = true -> exists a, o = Ok a.
Proof. destruct o; [eauto|discriminate]. Qed.

Lemma blocks_per_grid_first_item n tpb bpt blocks :
  blocks_per_grid n tpb bpt = Ok blocks -> exists t0, first_item tpb = Ok t0.
Proof. unfold blocks_per_grid. destruct (first_item tpb); [eauto|discriminate]. Qed.

Lemma install_weights_layer w m :
  kind m <> KOther ->
  install_weights w m = assign_weight (rows_attr (kind m)) (cols_attr (kind m)) w m.
Proof. unfold install_weights. destruct (kind m); [reflexivity|reflexivity|done]. Qed.

(** The run of the decode hook on a rewritten layer, given the buffer the
    pool hands out. *)
Lemma decode_hook_run tpb bpt m d n rows cols rt rec rt1 :
  ready_for_decode tpb bpt m d n rows cols ->
  get_tensor (DevObj d) n rt = (Ok rec, rt1) ->
  numel rec = n ->
  exists n_luts n_bytes blocks threads size,
    decode_hook tpb bpt m rt
    = (Ok (with_attrs m
             (<["weight" := VTensor (Tensor (t_dtype rec) [rows; cols] (t_device rec)
                                       (t_storage rec))]> (attrs m))),
       emit (KernelDecode n_luts n_bytes n blocks threads size rec) rt1).
Proof.
  intros (Hk & (sm & Hsm & Hn) & (ee & Hee & Hdev & Hblocks) & (luts & Hluts & Hnl)
          & Hpos & Hgaps & Hsize & Hrows & Hcols & Hr & Hc & Hprod & Hwp & Hwb & Hwm)
         Hget Hnum.
  apply is_ok_inv in Hblocks as [blocks Hblocks], Hnl as [n_luts Hnl],
    Hpos as [pos Hpos], Hgaps as [gaps Hgaps], Hsize as [size Hsize].
  destruct (blocks_per_grid_first_item _ _ _ _ Hblocks) as [t0 Ht0].
  assert (tensor_view rec [rows; cols]
          = Ok (Tensor (t_dtype rec) [rows; cols] (t_device rec) (t_storage rec))) as Hview.
  { unfold tensor_view. cbn [forallb].
    destruct (Z.leb_spec 0 rows); [|lia]. destruct (Z.leb_spec 0 cols); [|lia].
    cbn [andb]. unfold numel_of_shape at 1. cbn [fold_right].
    destruct (Z.eqb_spec (rows * (cols * 1)) (numel rec)); [reflexivity|lia]. }
  exists n_luts, (numel ee), blocks, t0, size.
  unfold decode_hook.
  rewrite run_lift_bind, Hsm, run_lift_bind, Hee, run_lift_bind, Hluts,
    run_lift_bind, Hnl, run_bind, Hdev, Hn, Hget, run_lift_bind, Hblocks,
    run_lift_bind, Hpos, run_lift_bind, Hgaps, run_lift_bind, Ht0,
    run_lift_bind, Hsize, run_bind.
  unfold report at 1. cbv beta iota. rewrite install_weights_run.
  rewrite (install_weights_layer _ _ Hk).
  unfold assign_weight. cbv [mbind outcome_bind]. rewrite Hrows, Hcols, Hview.
  rewrite setattr_unused by assumption. reflexivity.
Qed.

Lemma ready_for_decode_size tpb bpt m d n rows cols :
  ready_for_decode tpb bpt m d n rows cols -> 0 <= n.
Proof. intros (_ & _ & _ & _ & _ & _ & _ & _ & _ & ? & ? & ? & _). nia. Qed.

(** X7. On a rewritten Linear or Embedding layer the decode hook returns:
    it takes the buffer of the layer's device from the pool, launches the
    kernel once on it, and installs as the plain attribute [weight] a
    bfloat16 view of shape [rows, cols] that shares the storage of the
    device's pool buffer.  Nothing else of the layer changes. *)
Theorem decode_hook_installs_weight
    (tpb : list Z) (bpt : Z) (m : nn_module) (d : torch_device) (n rows cols : Z)
    (rt : runtime) :
  reachable rt ->
  ready_for_decode tpb bpt m d n rows cols ->
  exists w rt',
    decode_hook tpb bpt m rt = (Ok (with_attrs m (<["weight" := VTensor w]> (attrs m))), rt') /\
    reachable rt' /\
    t_shape w = [rows; cols] /\ t_dtype w = bfloat16 /\ t_device w = d /\
    (exists buf, _tensors rt' !! d = Some buf /\ allocation w = allocation buf /\
       is_Some (allocation w) /\ numel w <= numel buf) /\
    (exists n_luts n_bytes blocks threads size out,
       trace rt' = trace (get_tensor (DevObj d) n rt).2
                   ++ [KernelDecode n_luts n_bytes n blocks threads size out] /\
       allocation out = allocation w).
Proof.
  intros Hreach Hready.
  pose proof (ready_for_decode_size _ _ _ _ _ _ _ Hready) as Hn.
  destruct (get_tensor_served rt (DevObj d) d n Hreach eq_refl Hn)
    as (id & rt1 & Hget & Hreach1 & Hentry & _).
  destruct (decode_hook_run _ _ _ _ _ _ _ _ _ _ Hready Hget (numel_1d _ _ _ _))
    as (n_luts & n_bytes & blocks & threads & size & Hrun).
  eexists _, _. split; [exact Hrun|].
  rewrite Hget. cbn [snd t_shape t_dtype t_device t_storage trace emit _tensors allocation].
  split; [apply reach_report, Hreach1|].
  repeat (split; [reflexivity|]). split.
  - eexists. split; [exact Hentry|]. cbn [t_storage]. repeat split; [eauto|].
    rewrite numel_1d. unfold numel, numel_of_shape. cbn [t_shape fold_right].
    destruct Hready as (_ & _ & _ & _ & _ & _ & _ & _ & _ & ? & ? & ? & _). lia.
  - exists n_luts, n_bytes, blocks, threads, size, (Tensor bfloat16 [n] d (Pooled id 0)).
    split; reflexivity.
Qed.

(** X8. Two layers of one device decoded one after the other share the
    storage of their weights when the second needs no more elements than
    the first: the second hook allocates nothing, and the weight it installs
    is a view on the very allocation the first layer's weight views. *)
Theorem later_decode_reuses_the_storage
    (tpb : list Z) (bpt : Z) (m1 m2 : nn_module) (d : torch_device)
    (n1 r1 c1 n2 r2 c2 : Z) (rt : runtime) :
  reachable rt ->
  ready_for_decode tpb bpt m1 d n1 r1 c1 ->
  ready_for_decode tpb bpt m2 d n2 r2 c2 ->
  n2 <= n1 ->
  exists m1' rt1 m2' rt2 w1 w2,
    decode_hook tpb bpt m1 rt = (Ok m1', rt1) /\
    decode_hook tpb bpt m2 rt1 = (Ok m2', rt2) /\
    getattr m1' "weight" = Ok (OValue (VTensor w1)) /\
    getattr m2' "weight" = Ok (OValue (VTensor w2)) /\
    is_Some (allocation w1) /\
    allocation w2 = allocation w1 /\
    next_alloc rt2 = next_alloc rt1.
Proof.
  intros Hreach Hm1 Hm2 Hle.
  pose proof (ready_for_decode_size _ _ _ _ _ _ _ Hm1) as Hn1.
  pose proof (ready_for_decode_size _ _ _ _ _ _ _ Hm2) as Hn2.
  destruct (get_tensor_served rt (DevObj d) d n1 Hreach eq_refl Hn1)
    as (id1 & rta & Hget1 & Hreacha & Hentry1 & _).
  destruct (decode_hook_run _ _ _ _ _ _ _ _ _ _ Hm1 Hget1 (numel_1d _ _ _ _))
    as (? & ? & ? & ? & ? & Hrun1).
  set (rt1 := emit _ rta) in Hrun1.
  assert (reachable rt1) as Hreach1 by apply reach_report, Hreacha.
  assert (_tensors rt1 !! d
          = Some (Tensor bfloat16 [Z.max n1 (capacity rt d)] d (Pooled id1 0))) as Hpool1
    by exact Hentry1.
  destruct (get_tensor_served rt1 (DevObj d) d n2 Hreach1 eq_refl Hn2)
    as (id2 & rtb & Hget2 & _ & Hentry2 & _ & Hhit & _).
  assert (rtb = rt1) as ->.
  { apply Hhit; [rewrite Hpool1; eauto|].
    unfold capacity at 1. rewrite Hpool1, numel_1d. lia. }
  rewrite Hpool1 in Hentry2. injection Hentry2 as _ Hid.
  destruct (decode_hook_run _ _ _ _ _ _ _ _ _ _ Hm2 Hget2 (numel_1d _ _ _ _))
    as (? & ? & ? & ? & ? & Hrun2).
  eexists _, rt1, _, _, _, _.
  split; [exact Hrun1|]. split; [exact Hrun2|].
  split; [apply getattr_attr, lookup_insert_eq|].
  split; [apply getattr_attr, lookup_insert_eq|].
  cbn [allocation t_storage]. split; [eauto|]. split; [congruence|reflexivity].
Qed.

(** ** More on the shared-memory size *)

Lemma le_bytes_range k x : Forall (fun b => 0 <= b < 256) (le_bytes k x).
Proof.
  revert x. induction k as [|k IH]; intros x; cbn [le_bytes]; constructor.
  - apply Z.mod_pos_bound. lia.
  - apply IH.
Qed.

Lemma words_of_bytes_range bs :
  Forall (fun b => 0 <= b < 256) bs ->
  Forall (fun w => 0 <= w < 2 ^ 32) (words_of_bytes bs).
Proof.
  assert (forall n bs, (length bs <= n)%nat ->
            Forall (fun b => 0 <= b < 256) bs ->
            Forall (fun w => 0 <= w < 2 ^ 32) (words_of_bytes bs)) as H.
  { induction n as [|n IH]; intros l Hlen Hl.
    - destruct l; [constructor|simpl in Hlen; lia].
    - destruct l as [|b0 [|b1 [|b2 [|b3 rest]]]]; cbn [words_of_bytes]; try constructor.
      + repeat match goal with H : Forall _ (_ :: _) |- _ =>
          apply Forall_cons in H as [? H] end. lia.
      + apply IH.
        * simpl in Hlen. lia.
        * repeat match goal with H : Forall _ (_ :: _) |- _ =>
            apply Forall_cons in H as [? H] end. assumption. }
  intros Hb. exact (H (length bs) bs (le_n _) Hb).
Qed.

Lemma uint32_offsets_range t shape a :
  uint32_offsets t = Ok (shape, a) -> Forall (fun w => 0 <= w < 2 ^ 32) a.
Proof.
  unfold uint32_offsets, view_uint32, numpy. cbv [mbind outcome_bind].
  destruct (t_storage t) as [data|]; [|discriminate].
  set (words := words_of_bytes _).
  assert (Forall (fun w => 0 <= w < 2 ^ 32) words) as Hw.
  { apply words_of_bytes_range. apply Forall_forall. intros b Hb.
    apply list_elem_of_bind in Hb as (x & Hb & _).
    exact (proj1 (Forall_forall _ _) (le_bytes_range _ x) b Hb). }
  destruct (rev (t_shape t)) as [|last_dim outer].
  - destruct (_ =? 4); [|discriminate]. cbn [t_storage t_device t_shape].
    destruct (String.eqb _ "cpu"); [|discriminate]. intros [= _ <-]. exact Hw.
  - destruct (_ =? 0); [|discriminate]. cbn [t_storage t_device t_shape].
    destruct (String.eqb _ "cpu"); [|discriminate]. intros [= _ <-]. exact Hw.
Qed.

(** X9. When the offsets never decrease, the stored size is
    [threads_per_block[0] * 4 + 4 + 2 * gap] with [gap] the largest plain
    difference between consecutive offsets: the unsigned arithmetic plays no
    part. *)
Theorem shared_mem_size_of_increasing_offsets
    (t0 : Z) (tpb : list Z) (t : tensor) (len : Z) (a : list Z) :
  uint32_offsets t = Ok ([len], a) ->
  (2 <= length a)%nat ->
  (forall i x y, a !! i = Some x -> a !! S i = Some y -> x <= y) ->
  exists gap,
    shared_mem_size_of (t0 :: tpb) t = Ok (t0 * 4 + 4 + 2 * gap) /\
    0 <= gap /\
    gap ∈ zip_with Z.sub (drop 1 a) a /\
    (forall g, g ∈ zip_with Z.sub (drop 1 a) a -> g <= gap).
Proof.
  intros Ho Hlen Hinc.
  destruct (shared_mem_size_formula t0 tpb t len a Ho Hlen) as (gap & Hsize & Hin & Hmax).
  pose proof (uint32_offsets_range _ _ _ Ho) as Hrange.
  rewrite (gaps_uint32_increasing a Hrange Hinc) in Hin, Hmax.
  exists gap. repeat split; try assumption.
  apply list_elem_of_lookup in Hin as [i Hi].
  apply lookup_zip_with_Some in Hi as (y & x & -> & Hy & Hx).
  rewrite lookup_drop in Hy. pose proof (Hinc i x y Hx Hy). lia.
Qed.

(** X10. An offset smaller than its predecessor is not rejected: the
    unsigned difference wraps around, and the stored size is at least
    [threads_per_block[0] * 4 + 4 + 2 * (2^32 - drop)], where [drop] is the
    amount by which the offset went down. *)
Theorem shared_mem_size_wraps_on_decreasing_offsets
    (t0 : Z) (tpb : list Z) (t : tensor) (len : Z) (a : list Z) (i : nat) (x y : Z) :
  uint32_offsets t = Ok ([len], a) ->
  a !! i = Some x ->
  a !! S i = Some y ->
  y < x ->
  exists size,
    shared_mem_size_of (t0 :: tpb) t = Ok size /\
    t0 * 4 + 4 + 2 * (2 ^ 32 - (x - y)) <= size.
Proof.
  intros Ho Hx Hy Hdown.
  assert (2 <= length a)%nat as Hlen.
  { apply lookup_lt_Some in Hy. lia. }
  destruct (shared_mem_size_formula t0 tpb t len a Ho Hlen) as (gap & Hsize & _ & Hmax).
  pose proof (uint32_offsets_range _ _ _ Ho) as Hrange.
  pose proof (proj1 (Forall_lookup _ _) Hrange i x Hx) as Rx.
  pose proof (proj1 (Forall_lookup _ _) Hrange (S i) y Hy) as Ry.
  cbv beta in Rx, Ry.
  assert (2 ^ 32 - (x - y) ∈ gaps_uint32 a) as Hin.
  { apply list_elem_of_lookup. exists i. unfold gaps_uint32.
    apply lookup_zip_with_Some. exists y, x. split; [|split; [|exact Hx]].
    - unfold sub_uint32.
      apply (Z.mod_unique (y - x) (2 ^ 32) (-1) (2 ^ 32 - (x - y))); lia.
    - rewrite lookup_drop. exact Hy. }
  exists (t0 * 4 + 4 + 2 * gap). split; [exact Hsize|].
  pose proof (Hmax _ Hin). lia.
Qed.

(** ** Rewritten modules and the placement advisor *)

Lemma assoc_elem_of {A : Type} (k : string) (l : list (string * A)) (v : A) :
  assoc k l = Some v -> (k, v) ∈ l.
Proof.
  induction l as [|[k' v'] l IH]; cbn [assoc]; [discriminate|].
  destruct (String.eqb_spec k k') as [->|_].
  - intros [= ->]. left.
  - intros H. right. exact (IH H).
Qed.

Lemma named_modules_submodule path : forall prefix m c,
  submodule path m = Some c ->
  (qualified prefix path, c) ∈ named_modules prefix m.
Proof.
  induction path as [|part rest IH]; intros prefix m c; cbn [submodule qualified fold_left].
  - intros [= <-]. destruct m. left.
  - destruct (assoc part (_modules m)) as [child|] eqn:E; [|discriminate].
    intros H. destruct m as [cn k a ps bs ms hs]. cbn [named_modules _modules] in E |- *.
    right. apply list_elem_of_In, in_flat_map.
    exists (part, child). split; [apply list_elem_of_In, assoc_elem_of, E|].
    apply list_elem_of_In. exact (IH _ child c H).
Qed.

Lemma append_assoc (a b c : string) :
  ((a ++ b) ++ c = a ++ (b ++ c))%string.
Proof.
  induction a as [|x a IH]; [reflexivity|].
  change (String x ((a ++ b) ++ c) = String x (a ++ b ++ c))%string.
  by rewrite IH.
Qed.

Lemma append_nonempty (a b : string) : a <> "" -> (a ++ b)%string <> "".
Proof. destruct a; [done|discriminate]. Qed.

Lemma qualified_dotted path : forall prefix,
  Forall (fun part => part <> "") path ->
  qualified prefix path
  = if String.eqb prefix "" then dotted path
    else match path with
         | [] => prefix
         | _ => (prefix ++ "." ++ dotted path)%string
         end.
Proof.
  induction path as [|part rest IH]; intros prefix Hne.
  - cbn. destruct (String.eqb_spec prefix ""); congruence.
  - apply Forall_cons in Hne as [Hp Hrest].
    change (qualified prefix (part :: rest)) with
      (qualified (prefix ++ (if String.eqb prefix "" then "" else ".") ++ part)%string rest).
    rewrite (IH _ Hrest).
    destruct (String.eqb_spec prefix "") as [->|Hpre].
    + change (String.eqb "" "") with true. cbv iota.
      change ("" ++ "" ++ part)%string with part.
      destruct (String.eqb_spec part ""); [done|].
      destruct rest; reflexivity.
    + destruct (String.eqb_spec (prefix ++ "." ++ part)%string "") as [E|_].
      { exfalso. exact (append_nonempty _ _ Hpre E). }
      destruct rest as [|next rest]; [reflexivity|].
      rewrite dotted_cons.
      rewrite !append_assoc. reflexivity.
Qed.

(** X11. The dotted path the rewrite matches the patterns against is the
    name under which [named_modules] lists the module it reached.  So a
    module that a pattern matched at rewrite time has its class among the
    classes [get_no_split_classes] returns for the same patterns. *)
Theorem rewritten_module_class_is_not_split
    (model owner : nn_module) (path : list string)
    (pattern_dict : list (string * list string)) (pattern : string)
    (attr_names : list string) :
  resolve_path path model = Some owner ->
  Forall (fun part => part <> "") path ->
  (pattern, attr_names) ∈ pattern_dict ->
  fullmatch pattern (dotted path) = true ->
  (dotted path, owner) ∈ named_modules "" model /\
  class_name owner ∈ get_no_split_classes model pattern_dict.
Proof.
  intros Hres Hne Hin Hyes.
  assert ((dotted path, owner) ∈ named_modules "" model) as Hnm.
  { pose proof (named_modules_submodule path "" model owner
                  (resolve_path_submodule _ _ _ Hres)) as H.
    rewrite (qualified_dotted path "" Hne) in H. exact H. }
  split; [exact Hnm|].
  unfold get_no_split_classes. apply scan_patterns_spec. right.
  exists pattern. split.
  - apply list_elem_of_fmap. exists (pattern, attr_names). auto.
  - exists (dotted path), owner. auto.
Qed.

(** ** What the loader reports *)

Lemma reports_only_ret {A : Type} allowed (a : A) : reports_only allowed (mret a : M A).
Proof. intros [ts na tr]. exists []. cbn. rewrite app_nil_r. auto. Qed.

Lemma reports_only_lift {A : Type} allowed (o : outcome A) : reports_only allowed (lift o).
Proof. intros [ts na tr]. exists []. cbn. rewrite app_nil_r. auto. Qed.

Lemma reports_only_report (allowed : event -> bool) e :
  allowed e = true -> reports_only allowed (report e).
Proof. intros He rt. exists [e]. cbn. auto. Qed.

Lemma reports_only_bind {A B : Type} allowed (m : M A) (k : A -> M B) :
  reports_only allowed m -> (forall a, reports_only allowed (k a)) ->
  reports_only allowed (m ≫= k).
Proof.
  intros Hm Hk rt. rewrite run_bind.
  destruct (Hm rt) as (extra1 & E1 & F1).
  destruct (m rt) as [[a|e] rt1]; cbn [snd] in E1; subst rt1.
  - destruct (Hk a (Runtime (_tensors rt) (next_alloc rt) (trace rt ++ extra1)))
      as (extra2 & E2 & F2).
    cbn [_tensors next_alloc trace] in E2.
    exists (extra1 ++ extra2). rewrite E2, app_assoc. split; [reflexivity|].
    apply Forall_app; auto.
  - exists extra1. auto.
Qed.

Lemma reports_only_for_each {S A : Type} allowed (body : S -> A -> M S) (items : list A) :
  (forall s x, reports_only allowed (body s x)) ->
  forall s, reports_only allowed (for_each body items s).
Proof.
  intros Hb. induction items as [|x items IH]; intros s; cbn [for_each].
  - apply reports_only_ret.
  - apply reports_only_bind; [apply Hb|exact IH].
Qed.

Lemma reports_only_mono {A : Type} (allowed allowed' : event -> bool) (m : M A) :
  (forall e, allowed e = true -> allowed' e = true) ->
  reports_only allowed m -> reports_only allowed' m.
Proof.
  intros Hsub Hm rt. destruct (Hm rt) as (extra & E & F).
  exists extra. split; [exact E|].
  eapply Forall_impl; [exact F|]. intros e. apply Hsub.
Qed.

Lemma reports_only_load_tensor cfg model entry :
  reports_only is_load_diagnostic (load_tensor cfg model entry).
Proof.
  destruct entry as [name value]. unfold load_tensor.
  destruct (state_dict_entry model (split_on "." name)) as [[[] dest]|].
  1,2: case_decide;
       [apply reports_only_bind; [apply reports_only_lift|intros; apply reports_only_ret]
       |apply reports_only_bind;
         [apply reports_only_report; reflexivity|intros; apply reports_only_ret]].
  apply reports_only_bind; [apply reports_only_lift|].
  intros [m|]; [apply reports_only_ret|].
  apply reports_only_bind; [apply reports_only_report; reflexivity|].
  intros; apply reports_only_ret.
Qed.

Lemma reports_only_load allowed model directory_path cfg :
  (forall e, is_load_diagnostic e = true -> allowed e = true) ->
  reports_only allowed (load_and_replace_tensors model directory_path cfg).
Proof.
  intros Hsub. apply (reports_only_mono is_load_diagnostic); [exact Hsub|].
  unfold load_and_replace_tensors.
  apply reports_only_bind; [apply reports_only_lift|]. intros names.
  apply reports_only_for_each. intros m file_name.
  apply reports_only_bind; [apply reports_only_lift|]. intros loaded.
  apply reports_only_for_each. intros; apply reports_only_load_tensor.
Qed.


Lemma diagnostic_is_not_download e : is_load_diagnostic e = true -> is_not_download e = true.
Proof. destruct e; cbn; congruence. Qed.

Lemma reports_only_size_loop allowed ts :
  (forall dt, allowed (PrintUnrecognizedDtype dt) = true) ->
  forall acc,
  reports_only allowed
    (for_each
       (fun model_bytes param =>
          match counted_bytes (t_dtype param) with
          | Some size => mret (model_bytes + numel param * size)
          | None => report (PrintUnrecognizedDtype (t_dtype param));; mret model_bytes
          end) ts acc).
Proof.
  intros Hal. apply reports_only_for_each. intros bytes param.
  destruct (counted_bytes (t_dtype param)); [apply reports_only_ret|].
  apply reports_only_bind; [apply reports_only_report, Hal|].
  intros; apply reports_only_ret.
Qed.

Lemma reports_only_place model cfg device device_map max_memory :
  reports_only is_not_download (place_model model cfg device device_map max_memory).
Proof.
  unfold place_model. destruct (truthy device).
  - apply reports_only_bind; [apply reports_only_report; reflexivity|].
    intros; apply reports_only_lift.
  - apply reports_only_bind.
    { case_decide; [apply reports_only_ret|apply reports_only_lift]. }
    intros _. apply reports_only_bind; [apply reports_only_report; reflexivity|].
    intros _. apply reports_only_bind; [apply reports_only_lift|]. intros mm.
    apply reports_only_bind; [apply reports_only_report; reflexivity|].
    intros _. apply reports_only_bind; [apply reports_only_lift|]. intros dm.
    apply reports_only_bind; [apply reports_only_report; reflexivity|].
    intros _. apply reports_only_lift.
Qed.

(** X13. A model found on disk is never downloaded.  When the given name,
    or the name with its slashes replaced, exists as a path,
    [from_pretrained] makes no call to [snapshot_download], whatever else
    happens; nor does it touch the tensor pool or the allocator. *)
Theorem local_model_is_not_downloaded
    (name : string) (device : option string) (device_map : string)
    (max_memory : option memory_map) (bfloat16_model : option nn_module)
    (kwargs : model_kwargs) :
  os_path_exists name = true \/ os_path_exists (replace_slashes name) = true ->
  reports_only is_not_download
    (from_pretrained name device device_map max_memory bfloat16_model kwargs).
Proof.
  intros Hlocal. unfold from_pretrained.
  apply reports_only_bind.
  { unfold prepare_model. apply reports_only_bind.
    { destruct (os_path_exists name) eqn:E1; [apply reports_only_ret|].
      apply reports_only_bind; [|intros; apply reports_only_ret].
      destruct (os_path_exists (replace_slashes name)) eqn:E2; [apply reports_only_ret|].
      exfalso. destruct Hlocal; discriminate. }
    intros path. apply reports_only_bind; [apply reports_only_lift|]. intros config.
    apply reports_only_bind.
    { destruct bfloat16_model; [apply reports_only_ret|].
      apply reports_only_bind; [apply reports_only_lift|intros; apply reports_only_ret]. }
    intros model. apply reports_only_bind.
    { destruct (config_dfloat11 config); [apply reports_only_ret|apply reports_only_lift]. }
    intros cfg. apply reports_only_bind.
    { apply reports_only_load, diagnostic_is_not_download. }
    intros model'. apply reports_only_bind.
    { apply reports_only_size_loop. reflexivity. }
    intros bytes. apply reports_only_bind; [apply reports_only_report; reflexivity|].
    intros; apply reports_only_ret. }
  intros [model cfg]. apply reports_only_bind; [apply reports_only_place|].
  intros model'. apply reports_only_bind.
  { destruct (existsb _ _); [apply reports_only_report; reflexivity|apply reports_only_ret]. }
  intros; apply reports_only_ret.
Qed.

(** X14. The directory a hub model is downloaded to holds no slash, so it
    is a single entry of the working directory; and replacing the slashes
    changes a name exactly when it has one. *)
Theorem local_directory_has_no_slash (name : string) :
  has_slash (replace_slashes name) = false /\
  (replace_slashes name = name <-> has_slash name = false).
Proof.
  induction name as [|c rest [IH1 IH2]]; [by split|].
  cbn [replace_slashes has_slash].
  destruct (Ascii.eqb_spec c "/") as [->|Hc].
  - split; [exact IH1|]. split; discriminate.
  - cbn [has_slash orb]. destruct (Ascii.eqb_spec c "/"); [done|]. cbn [orb].
    split; [exact IH1|]. split.
    + intros [= E]. by apply IH2.
    + intros E. f_equal. by apply IH2.
Qed.






(** ** Split weights *)

Lemma tensor_slice_numel t a b :
  0 <= a -> a <= b -> b <= numel t -> numel (tensor_slice t a b) = b - a.
Proof.
  intros Ha Hab Hb. unfold tensor_slice, clamp_index.
  destruct (Z.ltb_spec a 0); [lia|]. destruct (Z.ltb_spec b 0); [lia|].
  unfold numel at 1, numel_of_shape. cbn [t_shape fold_right]. lia.
Qed.

Lemma tensor_slice_same_storage t a b :
  allocation (tensor_slice t a b) = allocation t /\
  t_device (tensor_slice t a b) = t_device t /\
  t_dtype (tensor_slice t a b) = t_dtype t.
Proof.
  unfold tensor_slice, allocation. cbn [t_storage t_device t_dtype].
  destruct (t_storage t); auto.
Qed.

Lemma tensor_split_from_tiles t indices : forall start,
  0 <= start ->
  nondecreasing_from start indices (numel t) = true ->
  length (tensor_split_from t start indices) = S (length indices) /\
  fold_right (fun w total => numel w + total) 0 (tensor_split_from t start indices)
  = numel t - start.
Proof.
  induction indices as [|i rest IH]; intros start Hstart Hsorted;
    cbn [nondecreasing_from] in Hsorted; cbn [tensor_split_from length fold_right].
  - apply Z.leb_le in Hsorted. split; [reflexivity|].
    rewrite tensor_slice_numel; lia.
  - apply andb_true_iff in Hsorted as [Hi Hrest]. apply Z.leb_le in Hi.
    destruct (IH i ltac:(lia) Hrest) as [Hlen Hsum].
    split; [by rewrite Hlen|].
    rewrite Hsum, tensor_slice_numel; [lia|lia|lia|].
    clear -Hrest Hi. revert i Hi Hrest.
    induction rest as [|j rest IHr]; intros i Hi; cbn [nondecreasing_from].
    + intros H. by apply Z.leb_le in H.
    + intros H. apply andb_true_iff in H as [Hj Hrest]. apply Z.leb_le in Hj.
      specialize (IHr j ltac:(lia) Hrest). lia.
Qed.

Lemma tensor_split_from_same_storage t indices : forall start,
  Forall (fun w => allocation w = allocation t /\ t_device w = t_device t /\
                   t_dtype w = t_dtype t)
    (tensor_split_from t start indices).
Proof.
  induction indices as [|i rest IH]; intros start; cbn [tensor_split_from];
    constructor; auto using tensor_slice_same_storage.
Qed.

(** X16. The weights a split module hands to its sub-modules tile the
    decoded buffer: for split positions that never decrease and stay within
    the buffer, [tensor_split] gives one chunk more than there are
    positions, the chunks' element counts add up to the buffer's, and every
    chunk is a view on the buffer's own storage, on its device and of its
    element type. *)
Theorem split_weights_tile_the_buffer (t : tensor) (indices : list Z) :
  nondecreasing_from 0 indices (numel t) = true ->
  length (tensor_split t indices) = S (length indices) /\
  fold_right (fun w total => numel w + total) 0 (tensor_split t indices) = numel t /\
  Forall (fun w => allocation w = allocation t /\ t_device w = t_device t /\
                   t_dtype w = t_dtype t)
    (tensor_split t indices).
Proof.
  intros Hsorted. unfold tensor_split.
  destruct (tensor_split_from_tiles t indices 0 ltac:(lia) Hsorted) as [Hlen Hsum].
  split; [exact Hlen|]. split; [lia|]. apply tensor_split_from_same_storage.
Qed.

Lemma assoc_set_lookup_ne {A : Type} (k k' : string) (v : A) (l : list (string * A)) :
  k' <> k -> assoc k' (assoc_set k v l) = assoc k' l.
Proof.
  intros Hne. induction l as [|[k0 v0] l IH]; cbn [assoc_set assoc].
  - destruct (String.eqb_spec k' k); [done|reflexivity].
  - destruct (String.eqb_spec k k0) as [->|Hk]; cbn [assoc].
    + destruct (String.eqb_spec k' k0); [done|reflexivity].
    + destruct (String.eqb_spec k' k0); [reflexivity|exact IH].
Qed.

Lemma update_direct_target name f m m' :
  update_target [name] f m = Ok m' ->
  exists c c', getattr m name = Ok (OModule c) /\ f c = Ok c' /\
    m' = with_modules m (assoc_set name c' (_modules m)).
Proof.
  cbn [update_target]. cbv [mbind outcome_bind].
  destruct (getattr m name) as [[v|c]|e]; try discriminate.
  destruct (f c) as [c'|e] eqn:Ef; [|discriminate].
  intros [= <-]. eauto.
Qed.

Lemma getattr_updated_same m name c c' :
  getattr m name = Ok (OModule c) ->
  getattr (with_modules m (assoc_set name c' (_modules m))) name = Ok (OModule c').
Proof.
  unfold getattr. destruct m as [cn k a ps bs ms hs].
  cbn [with_modules attrs _parameters _buffers _modules].
  destruct (a !! name); [discriminate|]. destruct (ps !! name); [discriminate|].
  destruct (bs !! name); [discriminate|]. intros _.
  by rewrite assoc_set_lookup.
Qed.

Lemma getattr_updated_other m name name' c' :
  name' <> name ->
  getattr (with_modules m (assoc_set name c' (_modules m))) name' = getattr m name'.
Proof.
  intros Hne. unfold getattr. destruct m as [cn k a ps bs ms hs].
  cbn [with_modules attrs _parameters _buffers _modules].
  by rewrite assoc_set_lookup_ne.
Qed.

Lemma setattr_getattr_other m name v m' k :
  setattr m name v = Ok m' -> k <> name -> getattr m' k = getattr m k.
Proof.
  unfold setattr. intros H Hk. destruct m as [cn kd a ps bs ms hs].
  cbn [_parameters _buffers _modules attrs] in H.
  repeat case_decide; destruct v; try discriminate; injection H as <-;
    unfold getattr;
    cbn [attrs _parameters _buffers _modules with_attrs with_parameters with_buffers];
    rewrite ?lookup_insert_ne by done; reflexivity.
Qed.

Lemma setattr_tensor_holds m w m' :
  setattr m "weight" (VTensor w) = Ok m' -> holds_weight m' w.
Proof.
  unfold setattr, holds_weight. intros H.
  repeat case_decide; try discriminate; injection H as <-;
    cbn [attrs _buffers with_attrs with_buffers]; rewrite lookup_insert_eq; auto.
Qed.

Lemma assign_weight_holds w c c' :
  assign_weight "out_features" "in_features" w c = Ok c' ->
  exists rows cols,
    int_attr c' "out_features" = Ok rows /\ int_attr c' "in_features" = Ok cols /\
    rows * cols = numel w /\ holds_weight c' (as_matrix w rows cols).
Proof.
  unfold assign_weight. cbv [mbind outcome_bind]. intros H.
  destruct (int_attr c "out_features") as [rows|] eqn:Hr; [|discriminate].
  destruct (int_attr c "in_features") as [cols|] eqn:Hc; [|discriminate].
  destruct (tensor_view w [rows; cols]) as [v|] eqn:Hv; [|discriminate].
  unfold tensor_view in Hv.
  destruct (forallb _ _); [|discriminate].
  destruct (Z.eqb_spec (numel_of_shape [rows; cols]) (numel w)) as [Hn|]; [|discriminate].
  injection Hv as <-.
  exists rows, cols.
  unfold int_attr in *.
  rewrite !(setattr_getattr_other _ _ _ _ _ H) by discriminate.
  split; [exact Hr|]. split; [exact Hc|]. split.
  - unfold numel_of_shape in Hn. cbn [fold_right] in Hn. lia.
  - exact (setattr_tensor_holds _ _ _ H).
Qed.

Lemma inject_weights_other names : forall weights m m' name,
  inject_weights (direct_targets names) weights m = Ok m' ->
  name ∉ names ->
  getattr m' name = getattr m name.
Proof.
  induction names as [|n names IH]; intros weights m m' name; cbn [direct_targets map inject_weights].
  - by intros [= ->].
  - destruct weights as [|w weights]; [by intros [= ->]|].
    cbv [mbind outcome_bind].
    destruct (update_target [n] _ m) as [m1|e] eqn:E1; [|discriminate].
    intros H Hnot. apply not_elem_of_cons in Hnot as [Hne Hnot].
    apply update_direct_target in E1 as (c & c' & _ & _ & ->).
    rewrite (IH _ _ _ _ H Hnot). by apply getattr_updated_other.
Qed.

(** X17. The chunks reach the sub-modules in order.  When the targets of a
    split module are distinct attributes of it, a run of the injection that
    returns has given the i-th target the i-th chunk, seen as a matrix of
    the target's [out_features] by [in_features], which multiply to the
    chunk's element count; a target beyond the last chunk is left as it
    was. *)
Theorem split_weights_reach_their_targets
    (names : list string) (weights : list tensor) (m m' : nn_module) :
  NoDup names ->
  inject_weights (direct_targets names) weights m = Ok m' ->
  (forall i name w,
     names !! i = Some name -> weights !! i = Some w ->
     exists target rows cols,
       getattr m' name = Ok (OModule target) /\
       int_attr target "out_features" = Ok rows /\
       int_attr target "in_features" = Ok cols /\
       rows * cols = numel w /\
       holds_weight target (as_matrix w rows cols)) /\
  (forall i name,
     names !! i = Some name -> weights !! i = None ->
     getattr m' name = getattr m name).
Proof.
  revert weights m m'.
  induction names as [|n names IH]; intros weights m m' Hnd; cbn [direct_targets map inject_weights].
  - intros _. split; intros i ? *; rewrite lookup_nil; discriminate.
  - apply NoDup_cons in Hnd as [Hfresh Hnd].
    destruct weights as [|w0 weights].
    { intros [= ->]. split; [intros i ? ? _; rewrite lookup_nil; discriminate|reflexivity]. }
    cbv [mbind outcome_bind].
    destruct (update_target [n] _ m) as [m1|e] eqn:E1; [|discriminate].
    intros H. fold (direct_targets names) in H.
    destruct (IH weights m1 m' Hnd H) as [IHhit IHmiss].
    apply update_direct_target in E1 as (c & c' & Hc & Hassign & ->).
    split.
    + intros [|i] name w; cbn [lookup list_lookup].
      * intros [= <-] [= <-].
        destruct (assign_weight_holds _ _ _ Hassign) as (rows & cols & Hr & Hk & Hn & Hw).
        exists c', rows, cols.
        rewrite (inject_weights_other _ _ _ _ _ H Hfresh).
        rewrite (getattr_updated_same _ _ _ _ Hc). auto.
      * apply IHhit.
    + intros [|i] name; cbn [lookup list_lookup]; [discriminate|].
      intros Hname Hnone. rewrite (IHmiss i name Hname Hnone).
      apply getattr_updated_other. intros ->.
      apply Hfresh. by eapply list_elem_of_lookup_2.
Qed.

(** ** Loading the compressed record of a layer *)

Lemma elem_cons_ne (k x : string) (l : list string) :
  k <> x -> bool_decide (k ∈ x :: l) = bool_decide (k ∈ l).
Proof.
  intros Hne. apply bool_decide_ext. rewrite elem_of_cons.
  split; [intros [E|H]; [destruct (Hne E)|exact H]|intros H; right; exact H].
Qed.

Lemma elem_cons_eq (k : string) (l : list string) : bool_decide (k ∈ k :: l) = true.
Proof. apply bool_decide_eq_true. left. Qed.

Lemma attached_buffers_out (done : list (string * tensor)) (bs : gmap string tensor) k :
  k ∉ done.*1 ->
  foldr (fun entry bs => <[entry.1 := entry.2]> bs) bs done !! k = bs !! k.
Proof.
  induction done as [|[leaf t] done IH]; [reflexivity|]. cbn [fmap list_fmap foldr fst snd].
  intros Hk. apply not_elem_of_cons in Hk as [Hne Hk].
  rewrite lookup_insert_ne by done. exact (IH Hk).
Qed.

Lemma attached_buffers_in (done : list (string * tensor)) (bs : gmap string tensor) k t :
  NoDup done.*1 -> (k, t) ∈ done ->
  foldr (fun entry bs => <[entry.1 := entry.2]> bs) bs done !! k = Some t.
Proof.
  induction done as [|[leaf t'] done IH]; intros Hnd Hin; [by apply elem_of_nil in Hin|].
  cbn [fmap list_fmap foldr fst snd] in Hnd |- *.
  apply NoDup_cons in Hnd as [Hfresh Hnd].
  apply elem_of_cons in Hin as [[= -> ->]|Hin]; [apply lookup_insert_eq|].
  rewrite lookup_insert_ne; [exact (IH Hnd Hin)|].
  intros ->. apply Hfresh. apply list_elem_of_fmap. by exists (k, t).
Qed.

Lemma attached_unused tpb bpt size done lin k :
  unused_name lin k ->
  (k = "shared_mem_size" -> "output_positions" ∉ done.*1) ->
  k ∉ done.*1 ->
  unused_name (attached tpb bpt size done lin) k.
Proof.
  intros (Ha & Hp & Hb & Hm) Hsize Hk. unfold unused_name, attached.
  cbn [attrs _parameters _buffers _modules].
  split; [|split; [|split]].
  - destruct (bool_decide_reflect ("output_positions" ∈ done.*1)) as [Hop|_]; [|exact Ha].
    rewrite lookup_insert_ne; [exact Ha|]. intros E. symmetry in E. by apply Hsize in E.
  - destruct (bool_decide ("encoded_exponent" ∈ done.*1)); [|exact Hp].
    apply lookup_delete_None. auto.
  - rewrite attached_buffers_out by exact Hk. exact Hb.
  - exact Hm.
Qed.

Lemma record_leaf ee sm luts pos gaps leaf t :
  (leaf, t) ∈ compressed_record ee sm luts pos gaps ->
  leaf ∈ ["encoded_exponent"; "sign_mantissa"; "luts"; "output_positions"; "gaps"].
Proof.
  intros H. apply (list_elem_of_fmap_2 fst) in H. exact H.
Qed.

Lemma attach_plain cfg parts t m leaf :
  last_part parts = leaf ->
  leaf <> "split_positions" -> leaf <> "encoded_exponent" -> leaf <> "output_positions" ->
  attach cfg parts t m = register_buffer m leaf t.
Proof.
  intros Hlast H1 H2 H3. unfold attach. rewrite Hlast.
  destruct (String.eqb_spec leaf "split_positions"); [done|].
  destruct (String.eqb_spec leaf "encoded_exponent"); [done|].
  destruct (String.eqb_spec leaf "output_positions"); [done|].
  cbv [mbind outcome_bind]. destruct (register_buffer m leaf t); reflexivity.
Qed.

Lemma done_names ee sm luts pos gaps (done : list (string * tensor)) k :
  Forall (fun entry => entry ∈ compressed_record ee sm luts pos gaps) done ->
  k ∉ ["encoded_exponent"; "sign_mantissa"; "luts"; "output_positions"; "gaps"] ->
  k ∉ done.*1.
Proof.
  intros Hall Hk Hin. apply list_elem_of_fmap in Hin as ([leaf t] & -> & Hin).
  apply Hk. eapply record_leaf. exact (proj1 (Forall_forall _ _) Hall _ Hin).
Qed.

(** One entry of the record attached to the layer. *)
Lemma attach_step cfg path parts lin rows cols ee sm luts pos gaps size done leaf t
    before after pattern attr_names :
  compressible lin rows cols ->
  cfg_pattern_dict cfg = before ++ (pattern, attr_names) :: after ->
  Forall (fun entry => fullmatch entry.1 (dotted path) = false) (before ++ after) ->
  fullmatch pattern (dotted path) = true ->
  shared_mem_size_of (cfg_threads_per_block cfg) pos = Ok size ->
  (leaf, t) ∈ compressed_record ee sm luts pos gaps ->
  Forall (fun entry => entry ∈ compressed_record ee sm luts pos gaps) done ->
  leaf ∉ done.*1 ->
  last_part parts = leaf -> all_but_last parts = path ->
  attach cfg parts t
    (attached (cfg_threads_per_block cfg) (cfg_bytes_per_thread cfg) size done lin)
  = Ok (attached (cfg_threads_per_block cfg) (cfg_bytes_per_thread cfg) size
          ((leaf, t) :: done) lin).
Proof.
  intros (Hkind & Hweight & Hunused & _) Hcfg Hno Hyes Hsize Hin Hdone Hfresh Hlast Hpath.
  apply Forall_app in Hno as [Hbefore Hafter].
  assert ("shared_mem_size" ∉ done.*1) as Hsms.
  { eapply done_names; [exact Hdone|]. by apply (bool_decide_unpack _). }
  assert ("weight" ∉ done.*1) as Hw.
  { eapply done_names; [exact Hdone|]. by apply (bool_decide_unpack _). }
  set (m := attached _ _ size done lin).
  assert (forall k, k ∈ ["encoded_exponent"; "sign_mantissa"; "luts"; "output_positions";
                         "gaps"; "shared_mem_size"] ->
                    unused_name lin k) as Hlin
    by (intros k; exact (proj1 (Forall_forall _ _) Hunused k)).
  assert (unused_name m leaf) as Hleaf.
  { apply attached_unused; [| |exact Hfresh].
    - apply Hlin. apply record_leaf in Hin.
      change (leaf ∈ ["encoded_exponent"; "sign_mantissa"; "luts"; "output_positions";
                      "gaps"] ++ ["shared_mem_size"]).
      apply elem_of_app. left. exact Hin.
    - intros ->. apply record_leaf in Hin. revert Hin. by apply (bool_decide_unpack _). }
  unfold compressed_record in Hin.
  repeat (apply elem_of_cons in Hin as [Hin|Hin]); try (by apply elem_of_nil in Hin);
    injection Hin as -> <-.
  - (* encoded_exponent *)
    rewrite (attach_encoded_exponent _ _ _ _ Hlast).
    rewrite register_buffer_unused by done. cbv [mbind outcome_bind].
    rewrite Hcfg, configure_skips_unmatched by (rewrite Hpath; exact Hbefore).
    cbn [configure_weight_injection]. rewrite Hpath, Hyes.
    assert (bool_decide ("encoded_exponent" ∈ done.*1) = false) as Hee
      by (by apply bool_decide_eq_false).
    assert (weight_is_parameter
              (register_forward_pre_hook
                 (with_buffers m (<["encoded_exponent" := t]> (_buffers m)))
                 (get_hook (cfg_threads_per_block cfg) (cfg_bytes_per_thread cfg)))) as Hwp.
    { destruct Hweight as (Ha & Hp & Hb & Hm). unfold weight_is_parameter, m, attached.
      cbn [attrs _parameters _buffers _modules register_forward_pre_hook with_hooks
           with_buffers]. rewrite Hee.
      split; [|split; [exact Hp|split; [|exact Hm]]].
      - destruct (bool_decide ("output_positions" ∈ done.*1)); [|exact Ha].
        by rewrite lookup_insert_ne.
      - rewrite lookup_insert_ne by done. by rewrite attached_buffers_out. }
    assert (kind (register_forward_pre_hook
                    (with_buffers m (<["encoded_exponent" := t]> (_buffers m)))
                    (get_hook (cfg_threads_per_block cfg) (cfg_bytes_per_thread cfg)))
            = kind lin) as Hk by reflexivity.
    rewrite Hk. destruct (kind lin) eqn:Ekind; [| |done];
      rewrite (detach_weight_parameter _ Hwp); cbv [mbind outcome_bind];
      (rewrite configure_no_match by (rewrite Hpath; exact Hafter));
      f_equal; unfold m, attached, register_forward_pre_hook, get_hook;
      cbn [with_parameters with_hooks with_buffers class_name kind attrs _parameters
           _buffers _modules _forward_pre_hooks fmap list_fmap fst snd foldr];
      rewrite Hee, elem_cons_eq, elem_cons_ne, app_nil_r, Ekind by done; reflexivity.
  - (* sign_mantissa *)
    rewrite (attach_plain _ _ _ _ _ Hlast) by done.
    rewrite register_buffer_unused by done. f_equal. unfold m, attached.
    cbn [with_buffers class_name kind attrs _parameters _buffers _modules
         _forward_pre_hooks fmap list_fmap fst snd foldr].
    rewrite !elem_cons_ne by done. reflexivity.
  - (* luts *)
    rewrite (attach_plain _ _ _ _ _ Hlast) by done.
    rewrite register_buffer_unused by done. f_equal. unfold m, attached.
    cbn [with_buffers class_name kind attrs _parameters _buffers _modules
         _forward_pre_hooks fmap list_fmap fst snd foldr].
    rewrite !elem_cons_ne by done. reflexivity.
  - (* output_positions *)
    assert (unused_name m "shared_mem_size") as Hs.
    { apply attached_unused; [apply Hlin; by apply (bool_decide_unpack _)|intros _; exact Hfresh|exact Hsms]. }
    rewrite (attach_output_positions _ _ _ _ size Hlast Hleaf Hs Hsize). f_equal.
    assert (bool_decide ("output_positions" ∈ done.*1) = false) as Hop
      by (by apply bool_decide_eq_false).
    unfold m, attached.
    cbn [with_attrs with_buffers class_name kind attrs _parameters _buffers _modules
         _forward_pre_hooks fmap list_fmap fst snd foldr].
    rewrite Hop, elem_cons_eq, elem_cons_ne by done. reflexivity.
  - (* gaps *)
    rewrite (attach_plain _ _ _ _ _ Hlast) by done.
    rewrite register_buffer_unused by done. f_equal. unfold m, attached.
    cbn [with_buffers class_name kind attrs _parameters _buffers _modules
         _forward_pre_hooks fmap list_fmap fst snd foldr].
    rewrite !elem_cons_ne by done. reflexivity.
Qed.

Lemma resolve_path_updated path f m owner :
  resolve_path path m = Some owner ->
  resolve_path path (update_submodule path f m) = Some (f owner).
Proof.
  revert m. induction path as [|part rest IH]; intros m; cbn [resolve_path update_submodule].
  - by intros [= ->].
  - destruct (getattr m part) as [[v|child]|e] eqn:E; try discriminate.
    intros H. rewrite (getattr_module_assoc _ _ _ E).
    cbn [resolve_path]. rewrite (getattr_updated_same _ _ _ _ E). exact (IH child H).
Qed.

(** The tensor [path.leaf] attached to the module at [path]. *)
Lemma load_tensor_attaches cfg model path owner owner' leaf t rt :
  resolve_path path model = Some owner ->
  Forall (fun part => dot_free part = true) (path ++ [leaf]) ->
  _parameters owner !! leaf = None -> _buffers owner !! leaf = None ->
  attach cfg (path ++ [leaf]) t owner = Ok owner' ->
  load_tensor cfg model (dotted (path ++ [leaf]), t) rt
  = (Ok (update_submodule path (fun _ => owner') model), rt).
Proof.
  intros Hres Hfree Hp Hb Hattach. unfold load_tensor.
  rewrite split_on_dotted by (done || by destruct path).
  unfold state_dict_entry. rewrite all_but_last_snoc, last_part_snoc.
  rewrite (resolve_path_submodule _ _ _ Hres). cbn [mbind option_bind].
  rewrite Hp, Hb. rewrite run_lift_bind, (navigate_resolved _ _ _ _ Hres), Hattach.
  reflexivity.
Qed.

Lemma record_leaf_dot_free ee sm luts pos gaps leaf t :
  (leaf, t) ∈ compressed_record ee sm luts pos gaps -> dot_free leaf = true.
Proof.
  intros H. apply record_leaf in H.
  repeat (apply elem_of_cons in H as [->|H]; [reflexivity|]).
  by apply elem_of_nil in H.
Qed.

(** The entries [todo] of the record loaded into a model whose layer at
    [path] already has the entries [done]. *)
Lemma load_record_entries cfg path lin rows cols ee sm luts pos gaps size
    before after pattern attr_names rt todo : forall done model,
  compressible lin rows cols ->
  Forall (fun part => dot_free part = true) path ->
  cfg_pattern_dict cfg = before ++ (pattern, attr_names) :: after ->
  Forall (fun entry => fullmatch entry.1 (dotted path) = false) (before ++ after) ->
  fullmatch pattern (dotted path) = true ->
  shared_mem_size_of (cfg_threads_per_block cfg) pos = Ok size ->
  Forall (fun entry => entry ∈ compressed_record ee sm luts pos gaps) (todo ++ done) ->
  NoDup (todo ++ done).*1 ->
  resolve_path path model
  = Some (attached (cfg_threads_per_block cfg) (cfg_bytes_per_thread cfg) size done lin) ->
  exists model' done',
    for_each (load_tensor cfg) (named_under path todo) model rt = (Ok model', rt) /\
    done' ≡ₚ todo ++ done /\
    resolve_path path model'
    = Some (attached (cfg_threads_per_block cfg) (cfg_bytes_per_thread cfg) size done' lin).
Proof.
  induction todo as [|[leaf t] todo IH];
    intros done model Hlin Hpath Hcfg Hno Hyes Hsize Hall Hnd Hres.
  - exists model, done. cbn [named_under map for_each]. by rewrite run_ret.
  - cbn [app] in Hall, Hnd. cbn [fmap list_fmap fst] in Hnd.
    apply Forall_cons in Hall as [Hin Hall].
    apply NoDup_cons in Hnd as [Hfresh0 Hnd].
    assert (leaf ∉ done.*1) as Hfresh
      by (rewrite fmap_app in Hfresh0; by apply not_elem_of_app in Hfresh0 as [_ ?]).
    pose proof (proj2 (proj1 (Forall_app _ _ _) Hall)) as Hdone.
    pose proof (attach_step cfg path (path ++ [leaf]) lin rows cols ee sm luts pos gaps
                  size done leaf t before after pattern attr_names
                  Hlin Hcfg Hno Hyes Hsize Hin Hdone Hfresh
                  (last_part_snoc _ _) (all_but_last_snoc _ _)) as Hstep.
    assert (unused_name
              (attached (cfg_threads_per_block cfg) (cfg_bytes_per_thread cfg) size done lin)
              leaf) as (_ & Hp & Hb & _).
    { destruct Hlin as (_ & _ & Hunused & _).
      apply attached_unused; [| |exact Hfresh].
      - apply (proj1 (Forall_forall _ _) Hunused).
        change (leaf ∈ ["encoded_exponent"; "sign_mantissa"; "luts"; "output_positions";
                        "gaps"] ++ ["shared_mem_size"]).
        apply elem_of_app. left. eapply record_leaf, Hin.
      - intros ->. apply record_leaf in Hin. revert Hin. by apply (bool_decide_unpack _). }
    assert (Forall (fun part => dot_free part = true) (path ++ [leaf])) as Hfree.
    { apply Forall_app. split; [exact Hpath|].
      constructor; [|constructor]. eapply record_leaf_dot_free, Hin. }
    pose proof (load_tensor_attaches cfg model path _ _ leaf t rt Hres Hfree Hp Hb Hstep)
      as Hload.
    destruct (IH ((leaf, t) :: done)
                (update_submodule path
                   (fun _ => attached (cfg_threads_per_block cfg) (cfg_bytes_per_thread cfg)
                               size ((leaf, t) :: done) lin) model)
                Hlin Hpath Hcfg Hno Hyes Hsize)
      as (model' & done' & Hrun & Hperm & Hres').
    + rewrite <- Permutation_middle. constructor; assumption.
    + rewrite <- Permutation_middle. cbn [fmap list_fmap fst].
      apply NoDup_cons. split; [exact Hfresh0|exact Hnd].
    + exact (resolve_path_updated _ _ _ _ Hres).
    + exists model', done'. split; [|split; [|exact Hres']].
      * cbn [named_under map for_each fst snd]. rewrite run_bind, Hload. exact Hrun.
      * rewrite Hperm. symmetry. apply Permutation_middle.
Qed.

Lemma attached_tensor_attr tpb bpt size done lin k t :
  NoDup done.*1 -> (k, t) ∈ done -> unused_name lin k -> k <> "shared_mem_size" ->
  tensor_attr (attached tpb bpt size done lin) k = Ok t.
Proof.
  intros Hnd Hin (Ha & Hp & _) Hk. unfold tensor_attr.
  rewrite (getattr_buffer _ k t); [reflexivity|..]; unfold attached;
    cbn [attrs _parameters _buffers].
  - destruct (bool_decide _); [by rewrite lookup_insert_ne|exact Ha].
  - destruct (bool_decide _); [apply lookup_delete_None; auto|exact Hp].
  - by apply attached_buffers_in.
Qed.

Lemma int_attr_is_attr m name z :
  int_attr m name = Ok z <-> attrs m !! name = Some (VInt z).
Proof.
  unfold int_attr. cbv [mbind outcome_bind]. split.
  - destruct (getattr m name) as [[[]|]|] eqn:E; try discriminate.
    intros [= ->]. exact (getattr_int_is_attr _ _ _ E).
  - intros H. by rewrite (getattr_attr _ _ _ H).
Qed.

(** The layer with all five entries attached. *)
Lemma attached_ready tpb bpt size done lin rows cols ee sm luts pos gaps :
  compressible lin rows cols -> rows * cols = numel sm ->
  done ≡ₚ compressed_record ee sm luts pos gaps ->
  is_ok (blocks_per_grid (numel ee) tpb bpt) = true ->
  is_ok (first_item (t_shape luts)) = true ->
  ready_for_decode tpb bpt (attached tpb bpt size done lin) (t_device ee) (numel sm)
    rows cols /\
  _forward_pre_hooks (attached tpb bpt size done lin)
  = _forward_pre_hooks lin ++ [DecodeHook tpb bpt].
Proof.
  intros (Hkind & (Hwa & Hwp & Hwb & Hwm) & Hunused & Hrows & Hcols & Hr & Hc) Hprod Hperm
         Hblocks Hluts.
  assert (NoDup done.*1) as Hnd.
  { rewrite Hperm. by apply (bool_decide_unpack _). }
  assert (forall k t, (k, t) ∈ compressed_record ee sm luts pos gaps ->
            tensor_attr (attached tpb bpt size done lin) k = Ok t) as Hattr.
  { intros k t Hin. apply attached_tensor_attr; [exact Hnd|by rewrite Hperm| |].
    - apply (proj1 (Forall_forall _ _) Hunused).
      change (k ∈ ["encoded_exponent"; "sign_mantissa"; "luts"; "output_positions";
                   "gaps"] ++ ["shared_mem_size"]).
      apply elem_of_app. left. eapply record_leaf, Hin.
    - intros ->. apply record_leaf in Hin. revert Hin. by apply (bool_decide_unpack _). }
  assert (bool_decide ("encoded_exponent" ∈ done.*1) = true) as Hee.
  { apply bool_decide_eq_true. rewrite Hperm. by apply (bool_decide_unpack _). }
  assert (bool_decide ("output_positions" ∈ done.*1) = true) as Hop.
  { apply bool_decide_eq_true. rewrite Hperm. by apply (bool_decide_unpack _). }
  assert ("weight" ∉ done.*1) as Hw.
  { rewrite Hperm. by apply (bool_decide_unpack _). }
  assert (forall name z, name <> "shared_mem_size" -> int_attr lin name = Ok z ->
            int_attr (attached tpb bpt size done lin) name = Ok z) as Hint.
  { intros name z Hne H. apply int_attr_is_attr in H. apply int_attr_is_attr.
    unfold attached. cbn [attrs]. rewrite Hop. by rewrite lookup_insert_ne. }
  split; [|unfold attached; cbn [_forward_pre_hooks]; by rewrite Hee].
  unfold ready_for_decode.
  split; [exact Hkind|].
  split; [exists sm; split; [apply Hattr; unfold compressed_record;
                             rewrite !elem_of_cons; auto|reflexivity]|].
  split; [exists ee; split; [apply Hattr; unfold compressed_record;
                             rewrite !elem_of_cons; auto|split; [reflexivity|exact Hblocks]]|].
  split; [exists luts; split; [apply Hattr; unfold compressed_record;
                               rewrite !elem_of_cons; auto|exact Hluts]|].
  split; [rewrite (Hattr "output_positions" pos); [reflexivity|];
          unfold compressed_record; rewrite !elem_of_cons; auto 10|].
  split; [rewrite (Hattr "gaps" gaps); [reflexivity|];
          unfold compressed_record; rewrite !elem_of_cons; auto 10|].
  split.
  { assert (int_attr (attached tpb bpt size done lin) "shared_mem_size" = Ok size) as ->;
      [|reflexivity].
    apply int_attr_is_attr. unfold attached. cbn [attrs]. rewrite Hop.
    apply lookup_insert_eq. }
  change (kind (attached tpb bpt size done lin)) with (kind lin).
  split; [apply Hint; [destruct (kind lin); discriminate|exact Hrows]|].
  split; [apply Hint; [destruct (kind lin); discriminate|exact Hcols]|].
  split; [exact Hr|]. split; [exact Hc|]. split; [exact Hprod|].
  unfold attached. cbn [_parameters _buffers _modules]. rewrite Hee.
  split; [apply lookup_delete_eq|].
  split; [by rewrite attached_buffers_out|exact Hwm].
Qed.

(** X19. Loading the five tensors of a layer's compressed record, in any
    order, makes the layer ready for decoding.  For a Linear or Embedding
    layer of the model whose dotted path exactly one pattern matches, the
    rewrite returns without a report, and afterwards the layer has lost its
    registered weight, holds the five tensors as buffers and the
    shared-memory size as an attribute, and carries one more forward
    pre-hook, the decode hook of the configuration. *)
Theorem loaded_record_is_ready_for_decode
    (cfg : dfloat11_config) (model lin : nn_module) (path : list string)
    (shard : list (string * tensor)) (ee sm luts pos gaps : tensor)
    (rows cols : Z) (before after : list (string * list string))
    (pattern : string) (attr_names : list string) (rt : runtime) :
  resolve_path path model = Some lin ->
  Forall (fun part => dot_free part = true) path ->
  compressible lin rows cols ->
  rows * cols = numel sm ->
  shard ≡ₚ compressed_record ee sm luts pos gaps ->
  cfg_pattern_dict cfg = before ++ (pattern, attr_names) :: after ->
  Forall (fun entry => fullmatch entry.1 (dotted path) = false) (before ++ after) ->
  fullmatch pattern (dotted path) = true ->
  is_ok (blocks_per_grid (numel ee) (cfg_threads_per_block cfg) (cfg_bytes_per_thread cfg))
  = true ->
  is_ok (first_item (t_shape luts)) = true ->
  is_ok (shared_mem_size_of (cfg_threads_per_block cfg) pos) = true ->
  exists model' lin',
    for_each (load_tensor cfg) (named_under path shard) model rt = (Ok model', rt) /\
    resolve_path path model' = Some lin' /\
    ready_for_decode (cfg_threads_per_block cfg) (cfg_bytes_per_thread cfg) lin'
      (t_device ee) (numel sm) rows cols /\
    _forward_pre_hooks lin'
    = _forward_pre_hooks lin
      ++ [DecodeHook (cfg_threads_per_block cfg) (cfg_bytes_per_thread cfg)].
Proof.
  intros Hres Hpath Hlin Hprod Hperm Hcfg Hno Hyes Hblocks Hluts Hsize.
  apply is_ok_inv in Hsize as [size Hsize].
  assert (resolve_path path model
          = Some (attached (cfg_threads_per_block cfg) (cfg_bytes_per_thread cfg) size [] lin))
    as Hstart.
  { rewrite Hres. f_equal. unfold attached. destruct lin. cbn.
    by rewrite app_nil_r. }
  destruct (load_record_entries cfg path lin rows cols ee sm luts pos gaps size
              before after pattern attr_names rt shard [] model
              Hlin Hpath Hcfg Hno Hyes Hsize)
    as (model' & done' & Hrun & Hdone & Hres'); [| |exact Hstart|].
  - rewrite app_nil_r, Hperm. apply Forall_forall. auto.
  - rewrite app_nil_r, Hperm. by apply (bool_decide_unpack _).
  - rewrite app_nil_r, Hperm in Hdone.
    destruct (attached_ready (cfg_threads_per_block cfg) (cfg_bytes_per_thread cfg) size
                done' lin rows cols ee sm luts pos gaps Hlin Hprod Hdone Hblocks Hluts)
      as [Hready Hhooks].
    eauto 10.
Qed.

(** ** The name the later patterns are matched against *)

Lemma collect_targets_parts names : forall parts m m' parts',
  collect_targets names parts m = Ok (m', parts') ->
  parts' = match names with
           | [] => parts
           | _ => split_on "." (List.last names "")
           end.
Proof.
  induction names as [|attr_path names IH]; intros parts m m' parts' H.
  - by injection H as _ <-.
  - cbn [collect_targets] in H. cbv [mbind outcome_bind] in H.
    destruct (update_target (split_on "." attr_path) detach_weight m) as [m1|];
      [|discriminate].
    destruct (getattr m1 "weight_injection_modules") as [[[]|]|]; try discriminate.
    destruct (setattr m1 "weight_injection_modules" _) as [m2|]; [|discriminate].
    rewrite (IH _ _ _ _ H). destruct names; reflexivity.
Qed.

(** X18. After a pattern has matched a module that is neither Linear nor
    Embedding and its sub-layers were collected, the patterns after it are
    no longer matched against the module's own path: the loop over the
    sub-layers rebinds [parts], so they are matched against the path of the
    last sub-layer named, without its last component.  When that name has
    no dot this is the empty string, and a later pattern that does not match
    the empty string is skipped even if it matches the module's path. *)
Theorem later_patterns_see_the_last_target
    (pattern : string) (attr_names : list string) (last_name : string)
    (after : list (string * list string)) (parts : list string) (m m' : nn_module) :
  fullmatch pattern (dotted (all_but_last parts)) = true ->
  kind m = KOther ->
  configure_weight_injection ((pattern, attr_names ++ [last_name]) :: after) parts m
  = Ok m' ->
  exists m1,
    configure_weight_injection [(pattern, attr_names ++ [last_name])] parts m = Ok m1 /\
    configure_weight_injection after (split_on "." last_name) m1 = Ok m' /\
    (dot_free last_name = true ->
     Forall (fun entry => fullmatch entry.1 "" = false) after ->
     m' = m1).
Proof.
  intros Hyes Hk H. cbn [configure_weight_injection] in H |- *.
  rewrite Hyes, Hk in H |- *. cbv [mbind outcome_bind] in H |- *.
  destruct (setattr m "weight_injection_modules" (VModules [])) as [m0|]; [|discriminate].
  destruct (collect_targets (attr_names ++ [last_name]) parts m0) as [[m1 parts']|] eqn:E;
    [|discriminate].
  apply collect_targets_parts in E.
  assert (parts' = split_on "." last_name) as ->.
  { rewrite E, last_last. by destruct attr_names. }
  exists m1. split; [reflexivity|]. split; [exact H|].
  intros Hfree Hno. rewrite configure_no_match in H; [by injection H|].
  rewrite (split_on_component _ Hfree). exact Hno.
Qed.

End Inference.

(** * Concrete runs *)

Lemma shared_mem_size_computed_at_rewrite_witness :
  (exists gap,
     shared_mem_size_of (128 :: []) (bytes_tensor [0;0;0;0; 10;0;0;0; 25;0;0;0; 40;0;0;0])
       = Ok (128 * 4 + 4 + 2 * gap) /\
     gap ∈ gaps_uint32 [0; 10; 25; 40] /\
     (forall g, g ∈ gaps_uint32 [0; 10; 25; 40] -> g <= gap)) /\
  (exists m',
     attach re_fullmatch (Config [128] 8 []) ["attn"; "output_positions"]
       (offsets_tensor [0; 10; 25; 40]) toy_model = Ok m' /\
     getattr m' "shared_mem_size" = Ok (OValue (VInt 546))) /\
  (exists m' rt' size tr n_luts n_bytes n_elements blocks threads out,
     decode_hook sample_device_of_str [128] 8 rewritten_linear start = (Ok m', rt') /\
     getattr rewritten_linear "shared_mem_size" = Ok (OValue (VInt size)) /\
     getattr m' "shared_mem_size" = Ok (OValue (VInt size)) /\
     trace rt' = tr ++ [KernelDecode n_luts n_bytes n_elements blocks threads size out]).
Proof.
  destruct (shared_mem_size_computed_at_rewrite sample_device_of_str re_fullmatch)
    as (Hformula & Hattach & Hhook & _).
  split; [|split].
  - apply (Hformula 128 [] _ 4 [0; 10; 25; 40]); [reflexivity|simpl; lia].
  - apply Hattach; [reflexivity| | |reflexivity]; repeat split; reflexivity.
  - destruct (decode_hook sample_device_of_str [128] 8 rewritten_linear start)
      as [[m'|e] rt'] eqn:E; [|vm_compute in E; discriminate].
    destruct (Hhook _ _ _ _ _ _ E) as (size & tr & a & b & c & d & e & out & H).
    exists m', rt', size, tr, a, b, c, d, e, out. split; [reflexivity|exact H].
Defined.

Lemma single_position_fails_witness :
  (forall tpb, is_ok (shared_mem_size_of tpb (offsets_tensor [7])) = false) /\
  (forall t0 tpb, shared_mem_size_of (t0 :: tpb) (offsets_tensor [7]) = Raise ValueError) /\
  (forall cfg parts m,
     last_part parts = "output_positions" ->
     unused_name m "output_positions" ->
     is_ok (attach re_fullmatch cfg parts (offsets_tensor [7]) m) = false).
Proof.
  apply (single_position_fails re_fullmatch (offsets_tensor [7]) 1 7). reflexivity.
Defined.

Lemma blocks_per_grid_exact_ceiling_witness :
  blocks_per_grid 1000 (256 :: []) 4 = Ok (exact_ceil_div 1000 (256 * 4)) /\
  (256 * 4) * (exact_ceil_div 1000 (256 * 4) - 1) < 1000
    <= (256 * 4) * exact_ceil_div 1000 (256 * 4) /\
  blocks_per_grid 1000 [256] 4 = Ok 1.
Proof.
  apply (blocks_per_grid_exact_ceiling 1000 256 4 []); [lia|lia|lia|].
  apply Z.ltb_lt. vm_compute. reflexivity.
Defined.

(** C4, as stated, fails: for [2^54 + 1] bytes, 256 threads and 8 bytes per
    thread the quotient [2^43 + 2^-11] rounds to the float [2^43], whose
    ceiling is one below the exact ceiling. *)
Lemma blocks_per_grid_not_exact :
  0 < 18014398509481985 /\ 0 < 256 /\ 0 < 8 /\
  blocks_per_grid 18014398509481985 [256] 8 = Ok 8796093022208 /\
  exact_ceil_div 18014398509481985 (256 * 8) = 8796093022209 /\
  blocks_per_grid 18014398509481985 [256] 8
    <> Ok (exact_ceil_div 18014398509481985 (256 * 8)).
Proof.
  repeat split; try lia; try (vm_compute; reflexivity).
  vm_compute. discriminate.
Qed.



Lemma missing_module_path_skips_tensor_witness :
  load_tensor re_fullmatch same_elements attention_only toy_model
    ("lm_hed.encoded_exponent", on_cpu uint8 [3] [0; 0; 0]) start
  = (Ok toy_model, emit (PrintCannotFindModulePath "lm_hed.encoded_exponent") start).
Proof.
  apply (missing_module_path_skips_tensor re_fullmatch same_elements attention_only
           toy_model "lm_hed.encoded_exponent" (on_cpu uint8 [3] [0; 0; 0]) start).
  reflexivity.
Defined.


Lemma patterns_are_applied_in_mapping_order_witness :
  configure_weight_injection re_fullmatch
    ([("attn", ["q_proj"; "k_proj"])] ++ [("lm_head", [])])
    ["lm_head"; "encoded_exponent"] (linear 2 3)
  = configure_weight_injection re_fullmatch [("lm_head", [])]
      ["lm_head"; "encoded_exponent"] (linear 2 3) /\
  configure_weight_injection re_fullmatch [("attn", ["q_proj"; "k_proj"])]
    ["lm_head"; "encoded_exponent"] (linear 2 3) = Ok (linear 2 3) /\
  configure_weight_injection re_fullmatch
    (("lm_head", []) :: [("attn", ["q_proj"; "k_proj"])])
    ["lm_head"; "encoded_exponent"] (linear 2 3)
  = Ok (with_parameters (linear 2 3) (delete "weight" (_parameters (linear 2 3)))) /\
  configure_weight_injection re_fullmatch (("lm_head", []) :: [("lm_hea.", [])])
    ["lm_head"; "encoded_exponent"] (linear 2 3)
  = Raise AttributeError /\
  (forall attn' : nn_module,
     submodule ["attn"] toy_model = Some attn' ->
     forall m',
       configure_weight_injection re_fullmatch [("attn", ["q_proj"; "k_proj"])]
         ["attn"; "encoded_exponent"] attn' = Ok m' ->
       getattr m' "weight_injection_modules"
       = Ok (OValue (VModules (map (split_on ".") ["q_proj"; "k_proj"])))).
Proof.
  destruct (patterns_are_applied_in_mapping_order re_fullmatch)
    as (Hskip & Hnone & Hlinear & Hsplit).
  assert (weight_is_parameter (linear 2 3)) as Hw
    by (split; [reflexivity|split; [eexists; reflexivity|split; reflexivity]]).
  split; [apply Hskip; repeat constructor|].
  split; [apply Hnone; repeat constructor|].
  split.
  { apply (Hlinear "lm_head" [] [("attn", ["q_proj"; "k_proj"])]
             ["lm_head"; "encoded_exponent"] (linear 2 3) eq_refl ltac:(discriminate) Hw).
    repeat constructor. }
  split.
  { apply (Hlinear "lm_head" [] [("lm_hea.", [])]
             ["lm_head"; "encoded_exponent"] (linear 2 3) eq_refl ltac:(discriminate) Hw).
    left. reflexivity. }
  intros attn' Ha m' Hm'.
  apply (Hsplit "attn" ["q_proj"; "k_proj"] ["attn"; "encoded_exponent"] attn' m');
    [reflexivity| |exact Hm'].
  change (submodule ["attn"] toy_model) with
    (Some (Module "Attention" KOther ∅ ∅ ∅
             [("q_proj", linear 2 2); ("k_proj", linear 2 1)] [])) in Ha.
  injection Ha as <-. reflexivity.
Defined.

(** C1, as stated, fails: a pattern after the first match is applied too.
    With two patterns that both match the head, the second one finds the
    weight already detached and the rewrite raises, where the first match
    alone succeeds; with two patterns that both match the attention block,
    the second one replaces the targets the first one recorded. *)
Lemma later_pattern_changes_the_rewrite :
  (load_tensor re_fullmatch same_elements head_twice toy_model
     ("lm_head.encoded_exponent", on_cpu uint8 [3] [0; 0; 0]) start).1
    = Raise AttributeError /\
  is_ok (load_tensor re_fullmatch same_elements (Config [128] 8 [("lm_head", [])]) toy_model
           ("lm_head.encoded_exponent", on_cpu uint8 [3] [0; 0; 0]) start).1 = true /\
  configure_weight_injection re_fullmatch (cfg_pattern_dict head_twice)
    ["lm_head"; "encoded_exponent"] (linear 2 3)
  <> configure_first_match_only re_fullmatch (cfg_pattern_dict head_twice)
       ["lm_head"; "encoded_exponent"] (linear 2 3) /\
  (exists attn m' m'',
     submodule ["attn"] toy_model = Some attn /\
     configure_weight_injection re_fullmatch (cfg_pattern_dict attention_twice)
       ["attn"; "encoded_exponent"] attn = Ok m' /\
     configure_first_match_only re_fullmatch (cfg_pattern_dict attention_twice)
       ["attn"; "encoded_exponent"] attn = Ok m'' /\
     getattr m' "weight_injection_modules" = Ok (OValue (VModules [["q_proj"]])) /\
     getattr m'' "weight_injection_modules" = Ok (OValue (VModules []))).
Proof.
  split; [vm_compute; reflexivity|].
  split; [vm_compute; reflexivity|].
  split; [vm_compute; discriminate|].
  eexists _, _, _. split; [reflexivity|].
  split; [vm_compute; reflexivity|].
  split; [vm_compute; reflexivity|].
  split; vm_compute; reflexivity.
Qed.

Lemma hook_registered_but_weight_not_replaced_witness :
  (forall m',
     attach re_fullmatch attention_only ["lm_head"; "encoded_exponent"]
       (on_cpu uint8 [3] [0; 0; 0]) (linear 2 3) = Ok m' ->
     _forward_pre_hooks m' = [DecodeHook [128] 8] /\
     _parameters m' = _parameters (linear 2 3)) /\
  is_ok (decode_hook sample_device_of_str [128] 8 hooked_linear start).1 = false /\
  is_ok (forward_pre sample_device_of_str hooked_linear start).1 = false.
Proof.
  destruct (hook_registered_but_weight_not_replaced sample_device_of_str re_fullmatch)
    as (Hhook & Hkeep & Hforward).
  split.
  - intros m' Hm'. split.
    + exact (Hhook attention_only ["lm_head"; "encoded_exponent"]
               (on_cpu uint8 [3] [0; 0; 0]) (linear 2 3) m' eq_refl Hm').
    + apply (Hkeep attention_only ["lm_head"; "encoded_exponent"]
               (on_cpu uint8 [3] [0; 0; 0]) (linear 2 3) m' eq_refl);
        [repeat constructor|exact Hm'].
  - destruct (Hforward [128] 8 hooked_linear start) as (Hdecode & _ & Hpre);
      [discriminate|eexists; reflexivity|].
    split; [exact Hdecode|]. apply (Hpre []). reflexivity.
Defined.

(** C9, as stated, fails in its consequence: after the head's compressed
    record is loaded under a configuration whose patterns do not match it,
    the head carries the hook and still has its registered weight, and its
    forward pre-hooks raise [TypeError] instead of replacing the weight. *)
Lemma unmatched_linear_forward_raises :
  exists model' rt' head,
    for_each (load_tensor re_fullmatch same_elements attention_only) head_record
      toy_model start = (Ok model', rt') /\
    submodule ["lm_head"] model' = Some head /\
    _forward_pre_hooks head = [DecodeHook [128] 8] /\
    _parameters head !! "weight" = Some (Some (weight_tensor 3 2)) /\
    getattr head "shared_mem_size" = Ok (OValue (VInt 546)) /\
    (forward_pre sample_device_of_str head rt').1 = Raise TypeError.
Proof.
  eexists _, _, _. split; [vm_compute; reflexivity|].
  split; [reflexivity|].
  repeat split; vm_compute; reflexivity.
Qed.

Lemma auto_device_map_required_without_device_witness :
  from_pretrained re_fullmatch same_elements
    (fun _ => Ok []) (fun d f => (d ++ "/" ++ f)%string) (fun _ => Ok [])
    (fun _ => true) (option dfloat11_config) unit
    (fun _ _ => Ok tt) (fun _ => Ok (Some attention_only)) (fun c => c)
    (fun _ _ => Ok toy_model) (fun _ m => m)
    unit unit (fun m _ => Ok m) (fun _ _ _ => Ok tt) (fun _ _ _ => Ok tt)
    (fun m _ => Ok m)
    "./llama3.1-8b-it-df11" None "balanced" None None tt start
  = (Raise AssertionError, emit (PrintTotalModelSize 24) start).
Proof.
  destruct (auto_device_map_required_without_device re_fullmatch same_elements
    (fun _ => Ok []) (fun d f => (d ++ "/" ++ f)%string) (fun _ => Ok [])
    (fun _ => true) (option dfloat11_config) unit
    (fun _ _ => Ok tt) (fun _ => Ok (Some attention_only)) (fun c => c)
    (fun _ _ => Ok toy_model) (fun _ m => m)
    unit unit (fun m _ => Ok m) (fun _ _ _ => Ok tt) (fun _ _ _ => Ok tt)
    (fun m _ => Ok m)
    "./llama3.1-8b-it-df11" None "balanced" None None tt start)
    as (_ & Hrun & _); [reflexivity|discriminate|].
  rewrite Hrun. vm_compute. reflexivity.
Defined.

(** ** Further concrete runs *)

Lemma pool_capacity_is_running_maximum_witness :
  capacity (get_tensor sample_device_of_str (DevStr "cuda:0") 6 start).2 cuda0
  = Z.max 6 (capacity start cuda0) /\
  capacity (get_tensor sample_device_of_str (DevStr "cuda:0") 6 start).2 cpu
  = capacity start cpu.
Proof.
  destruct (pool_capacity_is_running_maximum sample_device_of_str start
              (DevStr "cuda:0") cuda0 6) as [Hhere Hother];
    [apply reach_start|reflexivity|lia|].
  split; [exact Hhere|]. apply Hother. discriminate.
Defined.

Lemma request_after_clear_is_fresh_witness :
  exists v rt2,
    get_tensor sample_device_of_str (DevStr "cuda:0") 4
      (clear_device sample_device_of_str (Some (DevStr "cuda:0"))
         (get_tensor sample_device_of_str (DevStr "cuda:0") 6 start).2).2
    = (Ok v, rt2) /\
    t_shape v = [4] /\
    allocation v = Some 1%nat /\
    _tensors rt2 !! cuda0 = Some v.
Proof.
  destruct (request_after_clear_is_fresh sample_device_of_str
              (get_tensor sample_device_of_str (DevStr "cuda:0") 6 start).2
              (Some (DevStr "cuda:0")) (DevStr "cuda:0") cuda0 4)
    as (v & rt2 & Hrun & Hshape & Halloc & Hpool & _);
    [apply reach_get_tensor, reach_start|reflexivity|reflexivity|lia|].
  exists v, rt2. repeat split; assumption.
Defined.

Lemma tensor_name_splits_into_path_and_leaf_witness :
  dotted (split_on "." "model.layers.0.self_attn.encoded_exponent")
  = "model.layers.0.self_attn.encoded_exponent" /\
  split_on "." (dotted (["model"; "layers"; "0"; "self_attn"] ++ ["encoded_exponent"]))
  = ["model"; "layers"; "0"; "self_attn"] ++ ["encoded_exponent"].
Proof.
  destruct tensor_name_splits_into_path_and_leaf as [Hjoin Hsplit].
  split; [apply Hjoin|].
  apply (Hsplit ["model"; "layers"; "0"; "self_attn"] "encoded_exponent").
  repeat constructor.
Defined.


Lemma attached_buffer_is_loaded_once_witness :
  exists model' rt',
    load_tensor re_fullmatch same_elements attention_only toy_model
      ("lm_head.encoded_exponent", on_cpu uint8 [3] [0; 0; 0]) start = (Ok model', rt') /\
    state_dict_entry model' (split_on "." "lm_head.encoded_exponent")
    = Some (IsBuffer, on_cpu uint8 [3] [0; 0; 0]).
Proof.
  destruct (load_tensor re_fullmatch same_elements attention_only toy_model
              ("lm_head.encoded_exponent", on_cpu uint8 [3] [0; 0; 0]) start)
    as [[model'|e] rt'] eqn:E; [|vm_compute in E; discriminate].
  exists model', rt'. split; [reflexivity|].
  apply (attached_buffer_is_loaded_once re_fullmatch same_elements attention_only
           toy_model "lm_head.encoded_exponent" (on_cpu uint8 [3] [0; 0; 0]) start
           model' rt' (linear 2 3)); [discriminate|reflexivity|reflexivity|exact E].
Defined.

Lemma split_positions_stay_outside_state_dict_witness :
  exists model' rt',
    load_tensor re_fullmatch same_elements attention_only toy_model
      ("attn.split_positions", on_cpu int64 [1] [4]) start = (Ok model', rt') /\
    state_dict_entry model' (split_on "." "attn.split_positions") = None.
Proof.
  destruct (load_tensor re_fullmatch same_elements attention_only toy_model
              ("attn.split_positions", on_cpu int64 [1] [4]) start)
    as [[model'|e] rt'] eqn:E; [|vm_compute in E; discriminate].
  exists model', rt'. split; [reflexivity|].
  destruct (submodule ["attn"] toy_model) as [attn|] eqn:Ha; [|discriminate].
  apply (split_positions_stay_outside_state_dict re_fullmatch same_elements
           attention_only toy_model "attn.split_positions" (on_cpu int64 [1] [4]) start
           model' rt' attn); [reflexivity|reflexivity| |exact E].
  vm_compute in Ha |- *. exact Ha.
Defined.

Lemma rewritten_linear_ready :
  ready_for_decode [128] 8 rewritten_linear cuda0 6 3 2.
Proof.
  unfold ready_for_decode.
  split; [discriminate|].
  split; [eexists; split; reflexivity|].
  split; [eexists; split; [reflexivity|split; reflexivity]|].
  split; [eexists; split; reflexivity|].
  repeat (split; [first [reflexivity|lia|discriminate]|]). reflexivity.
Qed.

Lemma decode_hook_installs_weight_witness :
  exists w rt',
    decode_hook sample_device_of_str [128] 8 rewritten_linear start
    = (Ok (with_attrs rewritten_linear
             (<["weight" := VTensor w]> (attrs rewritten_linear))), rt') /\
    t_shape w = [3; 2] /\ t_dtype w = bfloat16 /\ t_device w = cuda0.
Proof.
  destruct (decode_hook_installs_weight sample_device_of_str [128] 8 rewritten_linear
              cuda0 6 3 2 start)
    as (w & rt' & Hrun & _ & Hshape & Hdt & Hdev & _);
    [apply reach_start|exact rewritten_linear_ready|].
  exists w, rt'. repeat split; assumption.
Defined.

Lemma later_decode_reuses_the_storage_witness :
  exists m1' rt1 m2' rt2 w1 w2,
    decode_hook sample_device_of_str [128] 8 rewritten_linear start = (Ok m1', rt1) /\
    decode_hook sample_device_of_str [128] 8 rewritten_linear rt1 = (Ok m2', rt2) /\
    getattr m1' "weight" = Ok (OValue (VTensor w1)) /\
    getattr m2' "weight" = Ok (OValue (VTensor w2)) /\
    allocation w2 = allocation w1 /\
    next_alloc rt2 = next_alloc rt1.
Proof.
  destruct (later_decode_reuses_the_storage sample_device_of_str [128] 8
              rewritten_linear rewritten_linear cuda0 6 3 2 6 3 2 start)
    as (m1' & rt1 & m2' & rt2 & w1 & w2 & H1 & H2 & Hw1 & Hw2 & _ & Hsame & Hnext);
    [apply reach_start|exact rewritten_linear_ready|exact rewritten_linear_ready|lia|].
  exists m1', rt1, m2', rt2, w1, w2. repeat split; assumption.
Defined.

Lemma shared_mem_size_of_increasing_offsets_witness :
  exists gap,
    shared_mem_size_of (128 :: []) (offsets_tensor [0; 10; 25; 40])
    = Ok (128 * 4 + 4 + 2 * gap) /\
    0 <= gap /\
    gap ∈ zip_with Z.sub (drop 1 [0; 10; 25; 40]) [0; 10; 25; 40].
Proof.
  destruct (shared_mem_size_of_increasing_offsets 128 [] (offsets_tensor [0; 10; 25; 40])
              4 [0; 10; 25; 40]) as (gap & Hsize & Hpos & Hin & _).
  - reflexivity.
  - simpl. lia.
  - intros [|[|[|[|i]]]] x y Hx Hy; simpl in Hx, Hy; try discriminate;
      injection Hx as <-; injection Hy as <-; lia.
  - exists gap. repeat split; assumption.
Defined.

Lemma shared_mem_size_wraps_on_decreasing_offsets_witness :
  exists size,
    shared_mem_size_of (128 :: []) (offsets_tensor [0; 40; 25]) = Ok size /\
    128 * 4 + 4 + 2 * (2 ^ 32 - (40 - 25)) <= size.
Proof.
  apply (shared_mem_size_wraps_on_decreasing_offsets 128 [] (offsets_tensor [0; 40; 25])
           3 [0; 40; 25] 1 40 25); [reflexivity|reflexivity|reflexivity|lia].
Defined.

Lemma rewritten_module_class_is_not_split_witness :
  ("attn", attention_block) ∈ named_modules "" toy_model /\
  "Attention" ∈ get_no_split_classes re_fullmatch toy_model
                  (cfg_pattern_dict attention_only).
Proof.
  apply (rewritten_module_class_is_not_split re_fullmatch toy_model
           attention_block
           ["attn"] (cfg_pattern_dict attention_only) "attn" ["q_proj"; "k_proj"]).
  - reflexivity.
  - repeat constructor. discriminate.
  - left.
  - vm_compute. reflexivity.
Defined.

Lemma local_model_is_not_downloaded_witness :
  reports_only is_not_download
    (from_pretrained re_fullmatch same_elements
       (fun _ => Ok []) (fun d f => (d ++ "/" ++ f)%string) (fun _ => Ok [])
       (fun _ => true) (option dfloat11_config) unit
       (fun _ _ => Ok tt) (fun _ => Ok (Some attention_only)) (fun c => c)
       (fun _ _ => Ok toy_model) (fun _ m => m)
       unit unit (fun m _ => Ok m) (fun _ _ _ => Ok tt) (fun _ _ _ => Ok tt)
       (fun m _ => Ok m)
       "./llama3.1-8b-it-df11" (Some "cuda:0") "auto" None None tt).
Proof.
  apply (local_model_is_not_downloaded re_fullmatch same_elements
           (fun _ => Ok []) (fun d f => (d ++ "/" ++ f)%string) (fun _ => Ok [])
           (fun _ => true) (option dfloat11_config) unit
           (fun _ _ => Ok tt) (fun _ => Ok (Some attention_only)) (fun c => c)
           (fun _ _ => Ok toy_model) (fun _ m => m)
           unit unit (fun m _ => Ok m) (fun _ _ _ => Ok tt) (fun _ _ _ => Ok tt)
           (fun m _ => Ok m)
           "./llama3.1-8b-it-df11" (Some "cuda:0") "auto" None None tt).
  left. reflexivity.
Defined.

Lemma local_directory_has_no_slash_witness :
  has_slash (replace_slashes "DFloat11/Llama-3.1-8B-Instruct-DF11") = false /\
  replace_slashes "DFloat11/Llama-3.1-8B-Instruct-DF11"
  <> "DFloat11/Llama-3.1-8B-Instruct-DF11".
Proof.
  destruct (local_directory_has_no_slash "DFloat11/Llama-3.1-8B-Instruct-DF11")
    as [Hnone Hiff].
  split; [exact Hnone|]. intros E. apply Hiff in E. discriminate.
Defined.


Lemma split_weights_tile_the_buffer_witness :
  length (tensor_split (Tensor bfloat16 [6] cuda0 (Pooled 0 0)) [4]) = 2%nat /\
  fold_right (fun w total => numel w + total) 0
    (tensor_split (Tensor bfloat16 [6] cuda0 (Pooled 0 0)) [4]) = 6.
Proof.
  destruct (split_weights_tile_the_buffer (Tensor bfloat16 [6] cuda0 (Pooled 0 0)) [4])
    as (Hlen & Hsum & _); [reflexivity|].
  split; [exact Hlen|exact Hsum].
Defined.

Lemma split_weights_reach_their_targets_witness :
  exists m' target,
    inject_weights (direct_targets ["q_proj"; "k_proj"])
      (tensor_split (Tensor bfloat16 [6] cuda0 (Pooled 0 0)) [4]) detached_attention
    = Ok m' /\
    getattr m' "k_proj" = Ok (OModule target) /\
    holds_weight target
      (as_matrix (tensor_slice (Tensor bfloat16 [6] cuda0 (Pooled 0 0)) 4 6) 1 2).
Proof.
  destruct (inject_weights (direct_targets ["q_proj"; "k_proj"])
              (tensor_split (Tensor bfloat16 [6] cuda0 (Pooled 0 0)) [4])
              detached_attention) as [m'|e] eqn:E; [|vm_compute in E; discriminate].
  destruct (split_weights_reach_their_targets ["q_proj"; "k_proj"]
              (tensor_split (Tensor bfloat16 [6] cuda0 (Pooled 0 0)) [4])
              detached_attention m') as [Hhit _].
  - apply NoDup_cons. split; [|apply NoDup_singleton].
    rewrite list_elem_of_singleton. discriminate.
  - exact E.
  - destruct (Hhit 1%nat "k_proj"
                (tensor_slice (Tensor bfloat16 [6] cuda0 (Pooled 0 0)) 4 6)
                eq_refl eq_refl) as (target & rows & cols & Hget & Hr & Hc & _ & Hw).
    exists m', target. split; [reflexivity|]. split; [exact Hget|].
    assert (rows = 1 /\ cols = 2) as [-> ->]; [|exact Hw].
    vm_compute in E. injection E as <-. vm_compute in Hget. injection Hget as <-.
    vm_compute in Hr, Hc. split; congruence.
Defined.

Lemma loaded_record_is_ready_for_decode_witness :
  exists model' lin',
    for_each (load_tensor re_fullmatch same_elements attention_and_head)
      (named_under ["lm_head"]
         ([ ("sign_mantissa", on_cpu uint8 [6] [0; 0; 0; 0; 0; 0]);
            ("luts", on_cpu uint8 [2; 256] (repeat 0 512%nat));
            ("output_positions", on_cpu uint32 [4] [0; 10; 25; 40]);
            ("gaps", on_cpu uint8 [2] [0; 0]) ]
          ++ [("encoded_exponent", on_cpu uint8 [3] [0; 0; 0])]))
      toy_model start = (Ok model', start) /\
    resolve_path ["lm_head"] model' = Some lin' /\
    ready_for_decode [128] 8 lin' cpu 6 3 2 /\
    _forward_pre_hooks lin' = [DecodeHook [128] 8].
Proof.
  apply (loaded_record_is_ready_for_decode re_fullmatch same_elements attention_and_head
           toy_model (linear 2 3) ["lm_head"] _
           (on_cpu uint8 [3] [0; 0; 0]) (on_cpu uint8 [6] [0; 0; 0; 0; 0; 0])
           (on_cpu uint8 [2; 256] (repeat 0 512%nat))
           (on_cpu uint32 [4] [0; 10; 25; 40]) (on_cpu uint8 [2] [0; 0])
           3 2 [("attn", ["q_proj"; "k_proj"])] [] "lm_head" [] start).
  - reflexivity.
  - repeat constructor.
  - split; [discriminate|]. split.
    { split; [reflexivity|]. split; [eexists; reflexivity|]. split; reflexivity. }
    split; [repeat constructor|]. repeat split; try reflexivity; lia.
  - reflexivity.
  - symmetry. apply Permutation_cons_append.
  - reflexivity.
  - repeat constructor.
  - vm_compute. reflexivity.
  - vm_compute. reflexivity.
  - reflexivity.
  - vm_compute. reflexivity.
Defined.

Lemma later_patterns_see_the_last_target_witness :
  exists m1,
    configure_weight_injection re_fullmatch [("attn", ["q_proj"] ++ ["k_proj"])]
      ["attn"; "encoded_exponent"]
      attention_block = Ok m1 /\
    configure_weight_injection re_fullmatch
      (("attn", ["q_proj"] ++ ["k_proj"]) :: [("at+n", ["q_proj"])])
      ["attn"; "encoded_exponent"]
      attention_block = Ok m1.
Proof.
  destruct (configure_weight_injection re_fullmatch
              (("attn", ["q_proj"] ++ ["k_proj"]) :: [("at+n", ["q_proj"])])
              ["attn"; "encoded_exponent"]
              attention_block)
    as [m'|e] eqn:E; [|vm_compute in E; discriminate].
  destruct (later_patterns_see_the_last_target re_fullmatch "attn" ["q_proj"] "k_proj"
              [("at+n", ["q_proj"])] ["attn"; "encoded_exponent"] attention_block m')
    as (m1 & H1 & _ & Hsame); [vm_compute; reflexivity|reflexivity|exact E|].
  exists m1. split; [exact H1|].
  rewrite (Hsame eq_refl); [reflexivity|]. repeat constructor.
Defined.
